(** * Partial parsing and static macro-call extraction of dbt

    A shallow embedding of [core/dbt/clients/jinja_static.py] and
    [core/dbt/parser/partial.py], and the properties of both that the
    design document states.

    Python dictionaries are [gmap]s, Python sets are [gset]s, Python lists
    are lists.  A Python exception is a value of [exn]; code that can raise
    returns a [Res].  The methods of [PartialParsing] mutate the object they
    belong to: they are functions from the state of that object to a result
    and a new state, and the state reached when an exception is raised is
    kept, as the mutations done before a [raise] are in Python. *)

From stdpp Require Import base gmap strings list fin_maps.
From Stdlib Require Import String Ascii Lia.

Open Scope string_scope.
Open Scope list_scope.
Set Warnings "-register-all".

(** ** Exceptions and results *)

Inductive exn : Type :=
| Exception (msg : string)              (* raise Exception(msg) *)
| CompilationException (msg : string)   (* raise_compiler_error(msg) *)
| KeyError (key : string)               (* d[key], d.pop(key) on a missing key *)
| ValueError (item : string)            (* l.remove(item) on a missing item *)
| IndexError                            (* l[0] on an empty list *)
| TypeError                             (* iterating or indexing a scalar *)
| AttributeError (attr : string)        (* o.attr on an object without attr *)
| UnboundLocalError (var : string)      (* a local read before assignment *)
| NoSuchObject.                         (* a reference to no object: not reachable
                                           in Python, where a reference keeps its
                                           object alive *)

Inductive Res (A : Type) : Type :=
| Ok (a : A)
| Raise (e : exn).
Arguments Ok {A} a.
Arguments Raise {A} e.

Definition res_bind {A B} (r : Res A) (k : A -> Res B) : Res B :=
  match r with
  | Ok a => k a
  | Raise e => Raise e
  end.

(** ** Strings *)

(** [needle in s] *)
Fixpoint is_substring (needle s : string) : bool :=
  String.prefix needle s ||
  match s with
  | EmptyString => false
  | String _ s' => is_substring needle s'
  end.

(** [s.split('.')]: never empty, [parts] holds the segments already closed
    (most recent first) and [cur] the segment being read, reversed. *)
Fixpoint split_dot_aux (s cur : string) (parts : list string) : list string :=
  match s with
  | EmptyString => rev (String.rev cur :: parts)
  | String c s' =>
      if Ascii.eqb c "."%char
      then split_dot_aux s' EmptyString (String.rev cur :: parts)
      else split_dot_aux s' (String c cur) parts
  end.

Definition split_dot (s : string) : list string := split_dot_aux s EmptyString [].

(** [s.split('.')[-1]] *)
Definition last_part (s : string) : string := List.last (split_dot s) EmptyString.

(** [x in l] for a list of strings *)
Definition str_in (x : string) (l : list string) : bool := bool_decide (x ∈ l).

(** [l.remove(x)]: removes the first occurrence, raises [ValueError] when
    there is none. *)
Fixpoint list_remove (x : string) (l : list string) : Res (list string) :=
  match l with
  | [] => Raise (ValueError x)
  | y :: l' =>
      if String.eqb y x then Ok l'
      else res_bind (list_remove x l') (fun r => Ok (y :: r))
  end.

(** ** jinja_static.py: macro calls of a template, found without rendering it *)

Module JinjaStatic.

(** The classes of [jinja2.nodes] that the extractor inspects.  A [Const]
    carries a string literal (the literals a dispatch call is written with),
    a [Keyword] is a pair of [kwargs].  [Name], [Filter] and [Test] are the
    classes with a [name] attribute that the parser puts in the place of an
    expression ([(x|upper)()] is a [Call] of a [Filter]); [Getattr] is the
    one with [attr], [Const] the one with [value], [List] the one with
    [items]; [Getattr], [Call], [Filter] and [Test] have [node], which is
    [None] for the [Filter] of a filter block. *)
Inductive expr : Type :=
| Name (name : string)
| Const (value : string)
| List (items : list expr)
| Getattr (node : expr) (attr : string)
| Call (node : expr) (args : list expr) (kwargs : list (string * expr))
       (dyn_args dyn_kwargs : option expr)
| Add (left right : expr)
| Filter (node : option expr) (name : string) (args : list expr)
         (kwargs : list (string * expr)) (dyn_args dyn_kwargs : option expr)
| Test (node : expr) (name : string) (args : list expr)
       (kwargs : list (string * expr)) (dyn_args dyn_kwargs : option expr).

(** [node.name] where [hasattr(node, 'name')] *)
Definition node_name (e : expr) : option string :=
  match e with
  | Name name | Filter _ name _ _ _ _ | Test _ name _ _ _ _ => Some name
  | _ => None
  end.

(** The [Call] nodes of [e], [e] included, in the order of
    [Node.find_all]: a node before its children, the children in the order
    of the fields. *)
Fixpoint calls_in (e : expr) : list expr :=
  match e with
  | Name _ | Const _ => []
  | List items => flat_map calls_in items
  | Getattr node _ => calls_in node
  | Call node args kwargs dyn_args dyn_kwargs =>
      e :: calls_in node
        ++ flat_map calls_in args
        ++ flat_map (fun kw => match kw with (_, v) => calls_in v end) kwargs
        ++ match dyn_args with Some d => calls_in d | None => [] end
        ++ match dyn_kwargs with Some d => calls_in d | None => [] end
  | Add lhs rhs => calls_in lhs ++ calls_in rhs
  | Filter node _ args kwargs dyn_args dyn_kwargs =>
      match node with Some n => calls_in n | None => [] end
        ++ flat_map calls_in args
        ++ flat_map (fun kw => match kw with (_, v) => calls_in v end) kwargs
        ++ match dyn_args with Some d => calls_in d | None => [] end
        ++ match dyn_kwargs with Some d => calls_in d | None => [] end
  | Test node _ args kwargs dyn_args dyn_kwargs =>
      calls_in node
        ++ flat_map calls_in args
        ++ flat_map (fun kw => match kw with (_, v) => calls_in v end) kwargs
        ++ match dyn_args with Some d => calls_in d | None => [] end
        ++ match dyn_kwargs with Some d => calls_in d | None => [] end
  end.

(** [e.find_all(jinja2.nodes.Call)]: the [Call] nodes below [e]. *)
Definition find_all_Call (e : expr) : list expr :=
  match e with
  | Call _ _ _ _ _ => List.tl (calls_in e)
  | _ => calls_in e
  end.

(** What [env.parse(string)] returns: the expressions of the template in
    the order of the document.  [parsed.find_all(jinja2.nodes.Call)] is
    then every [Call] node of every expression. *)
Definition Template : Type := list expr.

Definition template_calls (parsed : Template) : list expr := flat_map calls_in parsed.

(** An entry of the rendering context [ctx]: a callable such as [var],
    which given a name returns a list or raises ([None]), or any other
    value, of which only the truth value is read. *)
Inductive ctx_entry : Type :=
| CtxCallable (f : string -> option (list string))
| CtxValue (truthy : bool).

Definition ctx_truthy (c : ctx_entry) : bool :=
  match c with
  | CtxCallable _ => true
  | CtxValue b => b
  end.

(** [db_wrapper.dispatch(func_name, packages).macro], as the pair
    [(macro.package_name, macro.name)]. *)
Definition DbWrapper : Type :=
  option string -> option (list string) -> Res (string * string).

(** [str(x)] for [x] a string or [None] *)
Definition str_of (x : option string) : string :=
  match x with
  | Some s => s
  | None => "None"
  end.

(** truth value of a string or [None] *)
Definition truthy_str (x : option string) : bool :=
  match x with
  | Some EmptyString | None => false
  | Some _ => true
  end.

Definition get_dispatch_list (ctx : gmap string ctx_entry) (var_name : string)
    (default_packages : list string) : list string :=
  let namespace_list :=
    match ctx !! "var" with
    | Some (CtxCallable var) =>
        match var var_name with
        | Some l => Some (l ++ default_packages)
        | None => None                      (* except Exception: pass *)
        end
    | _ => None                             (* KeyError or TypeError, caught *)
    end in
  match namespace_list with
  | Some (x :: l) => x :: l
  | _ => default_packages
  end.

(** [item.value] for every item of a literal list *)
Fixpoint item_values (items : list expr) : Res (list string) :=
  match items with
  | [] => Ok []
  | Const value :: rest => res_bind (item_values rest) (fun vs => Ok (value :: vs))
  | _ :: _ => Raise (AttributeError "value")
  end.

Definition unsupported_packages_msg (macro_name : string) : string :=
  "As of v0.19.2, custom macros, such as '" +:+ macro_name +:+
  "', are no longer supported in the 'packages' argument of 'adapter.dispatch()'." +:+
  String "010"%char
    "See https://docs.getdbt.com/reference/dbt-jinja-functions/dispatch for details.".

(** The loop over [func_call.kwargs]: the state is
    [(func_name, possible_macro_calls, packages_arg)]. *)
Fixpoint dispatch_kwargs (kwargs : list (string * expr))
    (func_name : option string) (possible_macro_calls : list string)
    (packages_arg : option expr)
    : Res (option string * list string * option expr) :=
  match kwargs with
  | [] => Ok (func_name, possible_macro_calls, packages_arg)
  | (key, value) :: rest =>
      if String.eqb key "packages" then
        dispatch_kwargs rest func_name possible_macro_calls (Some value)
      else if String.eqb key "macro_name" then
        match value with
        | Const v =>
            dispatch_kwargs rest (Some v) (possible_macro_calls ++ [v]) packages_arg
        | _ => Raise (AttributeError "value")   (* kwarg.value.value in the message *)
        end
      else dispatch_kwargs rest func_name possible_macro_calls packages_arg
  end.

(** The loop over [packages_arg.find_all(jinja2.nodes.Call)] of the [Add]
    branch. *)
Fixpoint dispatch_var_calls (var_calls : list expr) (namespace_var : option string)
    : Res (option string) :=
  match var_calls with
  | [] => Ok namespace_var
  | Call callee args _ _ _ :: rest =>
      match node_name callee with
      | Some name =>
          if String.eqb name "var" then
            match args with
            | [] => Raise IndexError
            | Const value :: _ => dispatch_var_calls rest (Some value)
            | _ :: _ => Raise (AttributeError "value")
            end
          else dispatch_var_calls rest namespace_var
      | None => Raise (AttributeError "name")   (* var_call.node.name *)
      end
  | _ :: _ => Raise (AttributeError "name")     (* var_call.node.name *)
  end.

(** The branch on [packages_arg_type]; returns [packages]. *)
Definition dispatch_packages (ctx : gmap string ctx_entry) (packages_arg : expr)
    : Res (list string) :=
  match packages_arg with
  | List items => item_values items
  | Call (Getattr callee macro_name) _ _ _ _ =>
      match node_name callee with
      | Some package_name =>
          if String.prefix "_get" macro_name && is_substring "namespaces" macro_name then
            let var_name := package_name +:+ "_dispatch_list" in
            Ok (get_dispatch_list ctx var_name [package_name])
          else Raise (CompilationException (unsupported_packages_msg macro_name))
      | None => Ok []
      end
  | Call _ _ _ _ _ => Ok []
  | Add _ rhs =>
      res_bind (dispatch_var_calls (find_all_Call packages_arg) None) (fun namespace_var =>
      res_bind (match rhs with
                | List items => item_values items
                | _ => Raise (AttributeError "items")
                end) (fun default_namespaces =>
      if truthy_str namespace_var
      then Ok (get_dispatch_list ctx (str_of namespace_var) default_namespaces)
      else Ok []))
  | _ => Ok []
  end.

Definition statically_parse_adapter_dispatch (func_call : expr)
    (ctx : gmap string ctx_entry) (db_wrapper : option DbWrapper)
    : Res (list string) :=
  match func_call with
  | Call _ args kwargs _ _ =>
      (* macro_name positional argument *)
      res_bind (match args with
                | [] => Ok None
                | Const value :: _ => Ok (Some value)
                | _ :: _ => Raise (AttributeError "value")
                end) (fun func_name =>
      let possible_macro_calls :=
        if truthy_str func_name then [str_of func_name] else [] in
      (* packages positional argument *)
      let packages_arg := match args with _ :: a :: _ => Some a | _ => None end in
      (* keyword arguments *)
      res_bind (dispatch_kwargs kwargs func_name possible_macro_calls packages_arg)
        (fun '(func_name, possible_macro_calls, packages_arg) =>
      res_bind (match packages_arg with
                | Some a => dispatch_packages ctx a
                | None => Ok []
                end) (fun packages =>
      match db_wrapper with
      | Some dispatch =>
          let packages := match packages with [] => None | _ => Some packages end in
          res_bind (dispatch func_name packages) (fun '(package_name, name) =>
          Ok (possible_macro_calls ++ [package_name +:+ "." +:+ name]))
      | None =>   (* this should only be tests *)
          Ok (possible_macro_calls ++
              map (fun package_name => package_name +:+ "." +:+ str_of func_name) packages)
      end)))
  | _ => Raise (AttributeError "args")
  end.

Definition standard_calls : list string := ["source"; "ref"; "config"].

(** The end of the loop body of [statically_extract_macro_calls], from
    [if not func_name] on. *)
Definition record_call (ctx : gmap string ctx_entry) (func_name : option string)
    (possible_macro_calls : list string) : list string :=
  if negb (truthy_str func_name) then possible_macro_calls
  else if str_in (str_of func_name) standard_calls then possible_macro_calls
  else if match ctx !! str_of func_name with
          | Some c => ctx_truthy c
          | None => false
          end then possible_macro_calls
  else if str_in (str_of func_name) possible_macro_calls then possible_macro_calls
  else possible_macro_calls ++ [str_of func_name].

(** The loop over [parsed.find_all(jinja2.nodes.Call)]. *)
Fixpoint extract_calls (calls : list expr) (ctx : gmap string ctx_entry)
    (db_wrapper : option DbWrapper) (possible_macro_calls : list string)
    : Res (list string) :=
  match calls with
  | [] => Ok possible_macro_calls
  | func_call :: rest =>
      match func_call with
      | Call callee _ _ _ _ =>
          match node_name callee with
          | Some name =>
              (* hasattr(func_call.node, 'name') *)
              extract_calls rest ctx db_wrapper
                (record_call ctx (Some name) possible_macro_calls)
          | None =>
              match callee with
              | Getattr (Name package_name) macro_name =>
                  if String.eqb package_name "adapter" then
                    if String.eqb macro_name "dispatch" then
                      res_bind (statically_parse_adapter_dispatch func_call ctx db_wrapper)
                        (fun ad_macro_calls =>
                           extract_calls rest ctx db_wrapper
                             (record_call ctx None (possible_macro_calls ++ ad_macro_calls)))
                    else
                      (* This skips calls such as adapter.parse_index *)
                      extract_calls rest ctx db_wrapper possible_macro_calls
                  else
                    extract_calls rest ctx db_wrapper
                      (record_call ctx (Some (package_name +:+ "." +:+ macro_name))
                         possible_macro_calls)
              | _ => extract_calls rest ctx db_wrapper possible_macro_calls
              end
          end
      | _ => extract_calls rest ctx db_wrapper possible_macro_calls
      end
  end.

Definition statically_extract_macro_calls (parsed : Template)
    (ctx : gmap string ctx_entry) (db_wrapper : option DbWrapper) : Res (list string) :=
  extract_calls (template_calls parsed) ctx db_wrapper [].

(** *** The templates of the two scenarios of the design document *)

(** [adapter.dispatch('current_timestamp', packages=['dbt_utils'])] *)
Definition dispatch_current_timestamp : expr :=
  Call (Getattr (Name "adapter") "dispatch")
       [Const "current_timestamp"]
       [("packages", List [Const "dbt_utils"])] None None.

(** A resolver that maps [('current_timestamp', ['dbt_utils'])] to
    [dbt_utils.default__current_timestamp] and fails on anything else. *)
Definition utils_resolver : DbWrapper :=
  fun func_name packages =>
    match func_name, packages with
    | Some "current_timestamp", Some ["dbt_utils"] =>
        Ok ("dbt_utils", "default__current_timestamp")
    | _, _ => Raise (CompilationException "no macro found")
    end.

(** [adapter.dispatch('foo', packages=some_custom_macro())] *)
Definition dispatch_custom_macro : expr :=
  Call (Getattr (Name "adapter") "dispatch")
       [Const "foo"]
       [("packages", Call (Name "some_custom_macro") [] [] None None)] None None.

(** [adapter.dispatch('foo', packages=ns.attr(...))] *)
Definition dispatch_packages_call (ns attr : string) (args : list expr)
    (kwargs : list (string * expr)) (dyn_args dyn_kwargs : option expr) : expr :=
  Call (Getattr (Name "adapter") "dispatch")
       [Const "foo"]
       [("packages", Call (Getattr (Name ns) attr) args kwargs dyn_args dyn_kwargs)]
       None None.

End JinjaStatic.

(** ** partial.py: the diff of the saved manifest against the files read *)

Module Partial.

(** Modelled from the spec: [ParseFileType] of [dbt.contracts.files], which
    is not part of the sources: the file kinds of the data model. *)
Inductive ParseFileType : Type :=
| Model | Seed | Snapshot | Analysis | Test | Macro | Documentation | Schema.

#[global] Instance ParseFileType_eq_dec : EqDecision ParseFileType.
Proof. solve_decision. Defined.

Definition mssat_files : list ParseFileType := [Model; Seed; Snapshot; Analysis; Test].

Definition key_to_prefix : gmap string string :=
  <["models" := "model"]> (<["seeds" := "seed"]> (<["snapshots" := "snapshot"]>
  (<["analyses" := "analysis"]> ∅))).

Definition parse_file_type_to_key (t : ParseFileType) : option string :=
  match t with
  | Model => Some "models"
  | Seed => Some "seeds"
  | Snapshot => Some "snapshots"
  | Analysis => Some "analyses"
  | _ => None
  end.

(** A file object is reached through a reference: the same object can be
    the value of [new_files] and of [saved_manifest.files]. *)
Abbreviation ref := nat (only parsing).

Section PartialParsing.

(** The values of a YAML document other than strings, compared with [==]. *)
Context {V : Type} `{EqDecision V}.

(** [parse_file_type_to_parser] of [dbt.contracts.files], which is not part
    of the sources; [None] where the table has no entry. *)
Variable parse_file_type_to_parser : ParseFileType -> option string.

(** A value inside an element of a section. *)
Inductive yaml_value : Type :=
| YStr (s : string)
| YOther (v : V).

#[global] Instance yaml_value_eq_dec : EqDecision yaml_value.
Proof. solve_decision. Defined.

(** An element of a section: a dictionary with a [name]. *)
Abbreviation element := (gmap string yaml_value) (only parsing).

(** A value of the dictionary read from a schema file: the list of the
    elements of a section, or a scalar such as the version. *)
Inductive yaml_entry : Type :=
| YElems (l : list element)
| YScalar (v : yaml_value).

Abbreviation yaml_dict := (gmap string yaml_entry) (only parsing).

(** [SourceFile] and [SchemaSourceFile] of [dbt.contracts.files], in one
    record: the attributes [partial.py] reads and writes. *)
Record SourceFile : Type := {
  file_id : string;
  project_name : string;
  parse_file_type : ParseFileType;
  checksum : string;
  contents : string;
  is_SchemaSourceFile : bool;        (* type(sf).__name__ == 'SchemaSourceFile' *)
  sf_nodes : list string;            (* nodes *)
  sf_macros : list string;           (* macros *)
  sf_docs : list string;             (* docs *)
  dict_from_yaml : yaml_dict;        (* dict_from_yaml, the property of dfy *)
  pp_dict : option yaml_dict;
  node_patches : list string;
  macro_patches : list string;
  tests : list string;
  sf_sources : list string;          (* sources *)
  sf_exposures : list string;        (* exposures *)
  pp_test_index : option (gmap string (list string))
}.

(** A node of the manifest: [file_id] is the result of [node.file_id()]. *)
Record ParsedNode : Type := {
  node_name : string;
  node_file_id : string;
  patch_path : option string;
  depends_on_nodes : list string;
  depends_on_macros : list string
}.

Record ParsedMacro : Type := {
  macro_file_id : string;
  macro_depends_on_macros : list string
}.

Record ParsedDocumentation : Type := { doc_name : string }.

(** [source.name] is the name of the table. *)
Record ParsedSourceDefinition : Type := { source_name : string; table_name : string }.

Record ParsedExposure : Type := { exposure_name : string }.

(** The values of [manifest.sources] and [manifest.exposures]:
    [delete_schema_source] stores what it pops from one into the other. *)
Inductive SourceOrExposure : Type :=
| ASource (s : ParsedSourceDefinition)
| AnExposure (e : ParsedExposure).

Record Manifest : Type := {
  nodes : gmap string ParsedNode;
  macros : gmap string ParsedMacro;
  docs : gmap string ParsedDocumentation;
  sources : gmap string SourceOrExposure;
  exposures : gmap string SourceOrExposure;
  files : gmap string ref
}.

(** [Manifest()] *)
Definition empty_manifest : Manifest :=
  {| nodes := ∅; macros := ∅; docs := ∅; sources := ∅; exposures := ∅; files := ∅ |}.

(** [file_diff], the dictionary built by [build_file_diff]; [added] is a set. *)
Record FileDiff : Type := {
  deleted : list string;
  deleted_schema_files : list string;
  added : gset string;
  changed : list string;
  changed_schema_files : list string;
  unchanged : list string
}.

(** The state of a [PartialParsing] object, and of the file objects it
    reaches.  [saved_files] is [saved_manifest.files], the same dictionary. *)
Record PartialParsing : Type := {
  saved_manifest : Manifest;
  new_files : gmap string ref;
  project_parser_files : gmap string (gmap string (list string));
  deleted_manifest : Manifest;
  file_diff : FileDiff;
  heap : gmap ref SourceFile
}.

Definition saved_files (st : PartialParsing) : gmap string ref := files (saved_manifest st).

(** *** Updates of one field *)

Definition set_nodes (f : gmap string ParsedNode -> gmap string ParsedNode) (m : Manifest) :=
  {| nodes := f (nodes m); macros := macros m; docs := docs m; sources := sources m;
     exposures := exposures m; files := files m |}.
Definition set_macros (f : gmap string ParsedMacro -> gmap string ParsedMacro) (m : Manifest) :=
  {| nodes := nodes m; macros := f (macros m); docs := docs m; sources := sources m;
     exposures := exposures m; files := files m |}.
Definition set_docs (f : gmap string ParsedDocumentation -> gmap string ParsedDocumentation)
    (m : Manifest) :=
  {| nodes := nodes m; macros := macros m; docs := f (docs m); sources := sources m;
     exposures := exposures m; files := files m |}.
Definition set_sources (f : gmap string SourceOrExposure -> gmap string SourceOrExposure)
    (m : Manifest) :=
  {| nodes := nodes m; macros := macros m; docs := docs m; sources := f (sources m);
     exposures := exposures m; files := files m |}.
Definition set_exposures (f : gmap string SourceOrExposure -> gmap string SourceOrExposure)
    (m : Manifest) :=
  {| nodes := nodes m; macros := macros m; docs := docs m; sources := sources m;
     exposures := f (exposures m); files := files m |}.
Definition set_files (f : gmap string ref -> gmap string ref) (m : Manifest) :=
  {| nodes := nodes m; macros := macros m; docs := docs m; sources := sources m;
     exposures := exposures m; files := f (files m) |}.

Definition set_saved (f : Manifest -> Manifest) (st : PartialParsing) :=
  {| saved_manifest := f (saved_manifest st); new_files := new_files st;
     project_parser_files := project_parser_files st;
     deleted_manifest := deleted_manifest st; file_diff := file_diff st; heap := heap st |}.
Definition set_deleted (f : Manifest -> Manifest) (st : PartialParsing) :=
  {| saved_manifest := saved_manifest st; new_files := new_files st;
     project_parser_files := project_parser_files st;
     deleted_manifest := f (deleted_manifest st); file_diff := file_diff st; heap := heap st |}.
Definition set_project_parser_files
    (f : gmap string (gmap string (list string)) -> gmap string (gmap string (list string)))
    (st : PartialParsing) :=
  {| saved_manifest := saved_manifest st; new_files := new_files st;
     project_parser_files := f (project_parser_files st);
     deleted_manifest := deleted_manifest st; file_diff := file_diff st; heap := heap st |}.
Definition set_file_diff (d : FileDiff) (st : PartialParsing) :=
  {| saved_manifest := saved_manifest st; new_files := new_files st;
     project_parser_files := project_parser_files st;
     deleted_manifest := deleted_manifest st; file_diff := d; heap := heap st |}.
Definition set_heap (f : gmap ref SourceFile -> gmap ref SourceFile) (st : PartialParsing) :=
  {| saved_manifest := saved_manifest st; new_files := new_files st;
     project_parser_files := project_parser_files st;
     deleted_manifest := deleted_manifest st; file_diff := file_diff st; heap := f (heap st) |}.

Definition set_pp_dict (d : option yaml_dict) (sf : SourceFile) : SourceFile :=
  {| file_id := file_id sf; project_name := project_name sf;
     parse_file_type := parse_file_type sf; checksum := checksum sf; contents := contents sf;
     is_SchemaSourceFile := is_SchemaSourceFile sf; sf_nodes := sf_nodes sf;
     sf_macros := sf_macros sf; sf_docs := sf_docs sf; dict_from_yaml := dict_from_yaml sf;
     pp_dict := d; node_patches := node_patches sf; macro_patches := macro_patches sf;
     tests := tests sf; sf_sources := sf_sources sf; sf_exposures := sf_exposures sf;
     pp_test_index := pp_test_index sf |}.
Definition set_node_patches (l : list string) (sf : SourceFile) : SourceFile :=
  {| file_id := file_id sf; project_name := project_name sf;
     parse_file_type := parse_file_type sf; checksum := checksum sf; contents := contents sf;
     is_SchemaSourceFile := is_SchemaSourceFile sf; sf_nodes := sf_nodes sf;
     sf_macros := sf_macros sf; sf_docs := sf_docs sf; dict_from_yaml := dict_from_yaml sf;
     pp_dict := pp_dict sf; node_patches := l; macro_patches := macro_patches sf;
     tests := tests sf; sf_sources := sf_sources sf; sf_exposures := sf_exposures sf;
     pp_test_index := pp_test_index sf |}.
Definition set_macro_patches (l : list string) (sf : SourceFile) : SourceFile :=
  {| file_id := file_id sf; project_name := project_name sf;
     parse_file_type := parse_file_type sf; checksum := checksum sf; contents := contents sf;
     is_SchemaSourceFile := is_SchemaSourceFile sf; sf_nodes := sf_nodes sf;
     sf_macros := sf_macros sf; sf_docs := sf_docs sf; dict_from_yaml := dict_from_yaml sf;
     pp_dict := pp_dict sf; node_patches := node_patches sf; macro_patches := l;
     tests := tests sf; sf_sources := sf_sources sf; sf_exposures := sf_exposures sf;
     pp_test_index := pp_test_index sf |}.
Definition set_tests (l : list string) (sf : SourceFile) : SourceFile :=
  {| file_id := file_id sf; project_name := project_name sf;
     parse_file_type := parse_file_type sf; checksum := checksum sf; contents := contents sf;
     is_SchemaSourceFile := is_SchemaSourceFile sf; sf_nodes := sf_nodes sf;
     sf_macros := sf_macros sf; sf_docs := sf_docs sf; dict_from_yaml := dict_from_yaml sf;
     pp_dict := pp_dict sf; node_patches := node_patches sf; macro_patches := macro_patches sf;
     tests := l; sf_sources := sf_sources sf; sf_exposures := sf_exposures sf;
     pp_test_index := pp_test_index sf |}.
Definition set_pp_test_index (i : option (gmap string (list string))) (sf : SourceFile)
    : SourceFile :=
  {| file_id := file_id sf; project_name := project_name sf;
     parse_file_type := parse_file_type sf; checksum := checksum sf; contents := contents sf;
     is_SchemaSourceFile := is_SchemaSourceFile sf; sf_nodes := sf_nodes sf;
     sf_macros := sf_macros sf; sf_docs := sf_docs sf; dict_from_yaml := dict_from_yaml sf;
     pp_dict := pp_dict sf; node_patches := node_patches sf; macro_patches := macro_patches sf;
     tests := tests sf; sf_sources := sf_sources sf; sf_exposures := sf_exposures sf;
     pp_test_index := i |}.
(** [contents], [checksum] and [dfy] copied from the file read *)
Definition copy_contents (new : SourceFile) (sf : SourceFile) : SourceFile :=
  {| file_id := file_id sf; project_name := project_name sf;
     parse_file_type := parse_file_type sf; checksum := checksum new; contents := contents new;
     is_SchemaSourceFile := is_SchemaSourceFile sf; sf_nodes := sf_nodes sf;
     sf_macros := sf_macros sf; sf_docs := sf_docs sf; dict_from_yaml := dict_from_yaml new;
     pp_dict := pp_dict sf; node_patches := node_patches sf; macro_patches := macro_patches sf;
     tests := tests sf; sf_sources := sf_sources sf; sf_exposures := sf_exposures sf;
     pp_test_index := pp_test_index sf |}.

(** *** The monad of the methods: a result and the state reached *)

Definition M (A : Type) : Type := PartialParsing -> Res A * PartialParsing.

Definition ret {A} (a : A) : M A := fun st => (Ok a, st).
Definition raise {A} (e : exn) : M A := fun st => (Raise e, st).
Definition bind {A B} (m : M A) (k : A -> M B) : M B :=
  fun st =>
    match m st with
    | (Ok a, st') => k a st'
    | (Raise e, st') => (Raise e, st')
    end.
Definition get : M PartialParsing := fun st => (Ok st, st).
Definition modify (f : PartialParsing -> PartialParsing) : M unit := fun st => (Ok tt, f st).
Definition lift {A} (r : Res A) : M A := fun st => (r, st).

Declare Scope pp_scope.
Delimit Scope pp_scope with pp.
Notation "x <- m ;; k" := (bind m (fun x => k))
  (at level 100, m at next level, right associativity) : pp_scope.
Notation "m ;; k" := (bind m (fun _ => k))
  (at level 100, right associativity) : pp_scope.
Open Scope pp_scope.

(** [for x in l: body(x)] *)
Fixpoint for_each {A} (l : list A) (body : A -> M unit) : M unit :=
  match l with
  | [] => ret tt
  | x :: l' => body x ;; for_each l' body
  end.

(** [d[key]] *)
Definition dict_get {A} (d : gmap string A) (key : string) : M A :=
  match d !! key with
  | Some a => ret a
  | None => raise (KeyError key)
  end.

(** The object a reference points to. *)
Definition read_file (r : ref) : M SourceFile :=
  st <- get ;;
  match heap st !! r with
  | Some sf => ret sf
  | None => raise NoSuchObject
  end.

(** An assignment to attributes of the object [r]. *)
Definition write_file (r : ref) (f : SourceFile -> SourceFile) : M unit :=
  modify (set_heap (fun h => match h !! r with
                             | Some sf => <[r := f sf]> h
                             | None => h
                             end)).

(** [elem['name']] *)
Definition elem_name (elem : element) : M yaml_value := dict_get elem "name".

(** A value used as the key of a dictionary or the member of a set: a
    value that is not a string is taken to be unhashable, as a list or a
    dictionary is.  A number, a boolean or null as a name, which Python
    hashes, has no counterpart here: the properties below are about
    names that are strings. *)
Definition as_key (v : yaml_value) : Res string :=
  match v with
  | YStr s => Ok s
  | YOther _ => Raise TypeError
  end.

(** [s == v] for a string [s] *)
Definition str_eq_yaml (s : string) (v : yaml_value) : bool := bool_decide (YStr s = v).

(** *** skip_parsing, build_file_diff *)

Definition is_nil {A} (l : list A) : bool := match l with [] => true | _ => false end.

Definition skip_parsing (st : PartialParsing) : bool :=
  is_nil (deleted (file_diff st)) &&
  bool_decide (added (file_diff st) = ∅) &&
  is_nil (changed (file_diff st)) &&
  is_nil (changed_schema_files (file_diff st)) &&
  is_nil (deleted_schema_files (file_diff st)).

(** The loop over [deleted_all_files]: the state is
    [(deleted_schema_files, deleted)]. *)
Fixpoint split_deleted (ids : list string) (acc : list string * list string)
    : M (list string * list string) :=
  match ids with
  | [] => ret acc
  | file_id :: rest =>
      st <- get ;;
      r <- dict_get (saved_files st) file_id ;;
      sf <- read_file r ;;
      if decide (parse_file_type sf = Schema)
      then split_deleted rest (fst acc ++ [file_id], snd acc)
      else split_deleted rest (fst acc, snd acc ++ [file_id])
  end.

(** The loop over [common]: the state is
    [(changed, changed_schema_files, unchanged)]. *)
Fixpoint split_common (ids : list string) (acc : list string * list string * list string)
    : M (list string * list string * list string) :=
  match ids with
  | [] => ret acc
  | file_id :: rest =>
      let '(changed, changed_schema_files, unchanged) := acc in
      st <- get ;;
      rs <- dict_get (saved_files st) file_id ;;
      sf <- read_file rs ;;
      rn <- dict_get (new_files st) file_id ;;
      nf <- read_file rn ;;
      if String.eqb (checksum sf) (checksum nf)
      then split_common rest (changed, changed_schema_files, unchanged ++ [file_id])
      else if decide (parse_file_type sf = Schema) then
        if is_SchemaSourceFile sf
        then split_common rest (changed, changed_schema_files ++ [file_id], unchanged)
        else raise (Exception ("Serialization failure for " +:+ file_id))
      else split_common rest (changed ++ [file_id], changed_schema_files, unchanged)
  end.

(** The sets are walked in the order of [elements]; Python fixes none. *)
Definition build_file_diff : M unit :=
  st <- get ;;
  let saved_file_ids : gset string := dom (saved_files st) in
  let new_file_ids : gset string := dom (new_files st) in
  let deleted_all_files := saved_file_ids ∖ new_file_ids in
  let added := new_file_ids ∖ saved_file_ids in
  let common := saved_file_ids ∩ new_file_ids in
  d <- split_deleted (elements deleted_all_files) ([], []) ;;
  c <- split_common (elements common) ([], [], []) ;;
  let '(changed, changed_schema_files, unchanged) := c in
  modify (set_file_diff
    {| deleted := snd d; deleted_schema_files := fst d; added := added;
       changed := changed; changed_schema_files := changed_schema_files;
       unchanged := unchanged |}).

(** [PartialParsing(saved_manifest, new_files)], given the file objects. *)
Definition init (saved_manifest : Manifest) (new_files : gmap string ref)
    (heap : gmap ref SourceFile) : Res unit * PartialParsing :=
  build_file_diff
    {| saved_manifest := saved_manifest; new_files := new_files;
       project_parser_files := ∅; deleted_manifest := empty_manifest;
       file_diff := {| deleted := []; deleted_schema_files := []; added := ∅;
                       changed := []; changed_schema_files := []; unchanged := [] |};
       heap := heap |}.

(** *** add_to_pp_files, merge_patch *)

(** The three writes of [add_to_pp_files] into [project_parser_files]. *)
Definition schedule_add (project_name parser_name file_id : string)
    (deleted : list string) (ppf : gmap string (gmap string (list string)))
    : gmap string (gmap string (list string)) :=
  let by_parser := default ∅ (ppf !! project_name) in
  let ids := default [] (by_parser !! parser_name) in
  let ids' := if negb (str_in file_id ids) && negb (str_in file_id deleted)
              then ids ++ [file_id] else ids in
  <[project_name := <[parser_name := ids']> by_parser]> ppf.

Definition missing_parser_msg (file_id : string) : string :=
  "Did not find parse_file_type or project_name in SourceFile for " +:+ file_id.

Definition add_to_pp_files (source_file : ref) : M unit :=
  sf <- read_file source_file ;;
  match parse_file_type_to_parser (parse_file_type sf) with
  | None => raise (KeyError "parse_file_type")
  | Some parser_name =>
      if String.eqb parser_name "" || String.eqb (project_name sf) ""
      then raise (Exception (missing_parser_msg (file_id sf)))
      else
        st <- get ;;
        modify (set_project_parser_files
          (schedule_add (project_name sf) parser_name (file_id sf) (deleted (file_diff st))))
  end.

(** The loop of [merge_patch] over [pp_dict[key]]: [found]. *)
Fixpoint patch_found (elems : list element) (patch : element) (found : bool) : M bool :=
  match elems with
  | [] => ret found
  | elem :: rest =>
      n <- elem_name elem ;;
      p <- elem_name patch ;;
      patch_found rest patch (if decide (n = p) then true else found)
  end.

(** [schema_file.pp_dict = {"version": schema_file.dict_from_yaml['version']}] *)
Definition seed_pp_dict (schema_file : ref) (sf : SourceFile) : M yaml_dict :=
  v <- dict_get (dict_from_yaml sf) "version" ;;
  write_file schema_file (set_pp_dict (Some {["version" := v]})) ;;
  ret {["version" := v]}.

(** The first lines of [merge_patch]: [schema_file.pp_dict], set to the
    version of the file alone when it is [None] or empty. *)
Definition pending_patches (schema_file : ref) : M yaml_dict :=
  sf <- read_file schema_file ;;
  match pp_dict sf with
  | Some d => if decide (d = ∅) then seed_pp_dict schema_file sf else ret d
  | None => seed_pp_dict schema_file sf
  end.

Definition merge_patch (schema_file : ref) (key : string) (patch : element) : M unit :=
  pp <- pending_patches schema_file ;;
  match pp !! key with
  | None => write_file schema_file (set_pp_dict (Some (<[key := YElems [patch]]> pp)))
  | Some (YElems elems) =>
      (* check that this patch hasn't already been saved *)
      found <- patch_found elems patch false ;;
      if found then ret tt
      else write_file schema_file (set_pp_dict (Some (<[key := YElems (elems ++ [patch])]> pp)))
  | Some (YScalar _) => raise TypeError
  end.

(** *** Moves from the saved manifest to the removed one *)

(** [deleted_manifest.nodes[unique_id] = saved_manifest.nodes.pop(unique_id)] *)
Definition move_node (unique_id : string) : M ParsedNode :=
  st <- get ;;
  node <- dict_get (nodes (saved_manifest st)) unique_id ;;
  modify (set_saved (set_nodes (delete unique_id))) ;;
  modify (set_deleted (set_nodes (insert unique_id node))) ;;
  ret node.

Definition move_macro (unique_id : string) : M ParsedMacro :=
  st <- get ;;
  macro <- dict_get (macros (saved_manifest st)) unique_id ;;
  modify (set_saved (set_macros (delete unique_id))) ;;
  modify (set_deleted (set_macros (insert unique_id macro))) ;;
  ret macro.

Definition move_doc (unique_id : string) : M unit :=
  st <- get ;;
  doc <- dict_get (docs (saved_manifest st)) unique_id ;;
  modify (set_saved (set_docs (delete unique_id))) ;;
  modify (set_deleted (set_docs (insert unique_id doc))).

(** [deleted_manifest.files[file_id] = saved_manifest.files.pop(file_id)] *)
Definition move_file (file_id : string) : M unit :=
  st <- get ;;
  r <- dict_get (saved_files st) file_id ;;
  modify (set_saved (set_files (delete file_id))) ;;
  modify (set_deleted (set_files (insert file_id r))).

(** *** get_tests_for, delete_schema_mssa_links *)

(** The loop of [get_tests_for] that builds [pp_test_index]. *)
Fixpoint build_test_index (test_ids : list string) (pp_test_index : gmap string (list string))
    : M (gmap string (list string)) :=
  match test_ids with
  | [] => ret pp_test_index
  | test_unique_id :: rest =>
      st <- get ;;
      test_node <- dict_get (nodes (saved_manifest st)) test_unique_id ;;
      match depends_on_nodes test_node with
      | [] => raise IndexError
      | tested_node_id :: _ =>
          let elem_name := last_part tested_node_id in
          build_test_index rest
            (match pp_test_index !! elem_name with
             | Some l => <[elem_name := l ++ [test_unique_id]]> pp_test_index
             | None => <[elem_name := [test_unique_id]]> pp_test_index
             end)
      end
  end.

Definition get_tests_for (schema_file : ref) (node_name : yaml_value) : M (list string) :=
  sf <- read_file schema_file ;;
  index <- match pp_test_index sf with
           | Some i =>
               if decide (i = ∅) then
                 i' <- build_test_index (tests sf) ∅ ;;
                 write_file schema_file (set_pp_test_index (Some i')) ;;
                 ret i'
               else ret i
           | None =>
               i' <- build_test_index (tests sf) ∅ ;;
               write_file schema_file (set_pp_test_index (Some i')) ;;
               ret i'
           end ;;
  key <- lift (as_key node_name) ;;
  match index !! key with
  | Some l => ret l
  | None => ret []
  end.

(** The loop of [delete_schema_mssa_links] over [node_patches], left with
    [break] at the first match: [elem_unique_id], [''] when there is none. *)
Fixpoint find_node_patch (prefix : string) (ids : list string) (elem : element) : M string :=
  match ids with
  | [] => ret ""
  | unique_id :: rest =>
      if negb (String.prefix prefix unique_id) then find_node_patch prefix rest elem
      else
        n <- elem_name elem ;;
        if str_eq_yaml (last_part unique_id) n then ret unique_id
        else find_node_patch prefix rest elem
  end.

(** [schema_file.node_patches.remove(unique_id)] and the like *)
Definition remove_from (r : ref) (get_list : SourceFile -> list string)
    (set_list : list string -> SourceFile -> SourceFile) (unique_id : string) : M unit :=
  sf <- read_file r ;;
  l <- lift (list_remove unique_id (get_list sf)) ;;
  write_file r (set_list l).

Definition delete_schema_mssa_links (schema_file : ref) (dict_key : string) (elem : element)
    : M unit :=
  (* find elem node unique_id in node_patches *)
  prefix <- dict_get key_to_prefix dict_key ;;
  sf <- read_file schema_file ;;
  elem_unique_id <- find_node_patch prefix (node_patches sf) elem ;;
  (* remove elem node and remove unique_id from node_patches *)
  (if negb (String.eqb elem_unique_id "") then
     st <- get ;;
     (* might have been already removed *)
     (if bool_decide (elem_unique_id ∈ dom (nodes (saved_manifest st))) then
        node <- move_node elem_unique_id ;;
        (* need to add the node source_file to pp_files *)
        let file_id := node_file_id node in
        (* need to copy new file to saved files in order to get content;
           a file object is true, so that the two [if]s only look the
           file up *)
        st <- get ;;
        new_file <- dict_get (new_files st) file_id ;;
        modify (set_saved (set_files (insert file_id new_file))) ;;
        st <- get ;;
        source_file <- dict_get (saved_files st) file_id ;;
        add_to_pp_files source_file
      else ret tt) ;;
     (* remove from patches *)
     remove_from schema_file node_patches set_node_patches elem_unique_id
   else ret tt) ;;
  (* for models, seeds, snapshots (not analyses) *)
  if str_in dict_key ["models"; "seeds"; "snapshots"] then
    (* find related tests and remove them *)
    n <- elem_name elem ;;
    tests_for <- get_tests_for schema_file n ;;
    for_each tests_for (fun test_unique_id =>
      move_node test_unique_id ;;
      remove_from schema_file tests set_tests test_unique_id)
  else ret tt.

(** *** delete_node_in_saved and the changes of SQL, macro and doc files *)

(** The loop of [delete_node_in_saved] over the section: [elem_patch], the
    last element with the name of the node, unbound ([None]) when there is
    none. *)
Fixpoint find_elem_patch (elems : list element) (name : string) (elem_patch : option element)
    : M (option element) :=
  match elems with
  | [] => ret elem_patch
  | elem :: rest =>
      n <- elem_name elem ;;
      find_elem_patch rest name (if str_eq_yaml name n then Some elem else elem_patch)
  end.

(** [d[key]], then iterated as a list *)
Definition section_get (d : yaml_dict) (key : string) : M (list element) :=
  e <- dict_get d key ;;
  match e with
  | YElems l => ret l
  | YScalar _ => raise TypeError
  end.

Definition delete_node_in_saved (source_file : ref) (unique_id : string) : M unit :=
  (* delete node in saved *)
  node <- move_node unique_id ;;
  (* look at patch_path in model node to see if we need
     to reapply a patch from a schema_file. *)
  match patch_path node with
  | None | Some EmptyString => ret tt
  | Some file_id =>
      st <- get ;;
      if negb (str_in file_id (deleted (file_diff st))) then
        (* schema_files should already be updated *)
        schema_file <- dict_get (saved_files st) file_id ;;
        src <- read_file source_file ;;
        dict_key <- match parse_file_type_to_key (parse_file_type src) with
                    | Some k => ret k
                    | None => raise (KeyError "parse_file_type")
                    end ;;
        (* look for a matching list dictionary *)
        sf <- read_file schema_file ;;
        elems <- section_get (dict_from_yaml sf) dict_key ;;
        found <- find_elem_patch elems (node_name node) None ;;
        match found with
        | None => raise (UnboundLocalError "elem_patch")
        | Some elem_patch =>
            if decide (elem_patch = ∅) then ret tt
            else
              delete_schema_mssa_links schema_file dict_key elem_patch ;;
              merge_patch schema_file dict_key elem_patch ;;
              add_to_pp_files schema_file ;;
              sf <- read_file schema_file ;;
              if str_in unique_id (node_patches sf)
              then remove_from schema_file node_patches set_node_patches unique_id
              else ret tt
        end
      else ret tt
  end.

(** [update_mssat_in_saved]: the files are given by their references. *)
Definition update_mssat_in_saved (new_source_file old_source_file : ref) : M unit :=
  old <- read_file old_source_file ;;
  (* These files only have one node. *)
  match sf_nodes old with
  | [] => raise IndexError
  | unique_id :: _ =>
      (* replace source_file in saved and add to parsing list *)
      new <- read_file new_source_file ;;
      let file_id := file_id new in
      modify (set_deleted (set_files (insert file_id old_source_file))) ;;
      modify (set_saved (set_files (insert file_id new_source_file))) ;;
      add_to_pp_files new_source_file ;;
      delete_node_in_saved new_source_file unique_id
  end.

(** The two inner loops of [handle_macro_file_links], over the macros
    that a macro or a node depends on. *)
Definition schedule_dependent (unique_id dep_file_id : string) (depends_on : list string)
    : M unit :=
  for_each depends_on (fun macro_unique_id =>
    st <- get ;;
    if String.eqb macro_unique_id unique_id &&
       bool_decide (macro_unique_id ∈ dom (macros (saved_manifest st)))
    then
      (* schedule file for parsing *)
      if bool_decide (dep_file_id ∈ dom (saved_files st)) then
        source_file <- dict_get (saved_files st) dep_file_id ;;
        add_to_pp_files source_file
      else ret tt
    else ret tt).

(** The dictionaries are walked in the order of [map_to_list]; Python walks
    them in the order of insertion. *)
Definition handle_macro_file_links (source_file : ref) : M unit :=
  sf <- read_file source_file ;;
  (* remove the macros in the 'macros' dictionary *)
  for_each (sf_macros sf) (fun unique_id =>
    move_macro unique_id ;;
    (* loop through all macros, finding references to this macro *)
    st <- get ;;
    for_each (map_to_list (macros (saved_manifest st))) (fun '(_, macro) =>
      schedule_dependent unique_id (macro_file_id macro) (macro_depends_on_macros macro)) ;;
    (* loop through all nodes, finding references to this macro *)
    st <- get ;;
    for_each (map_to_list (nodes (saved_manifest st))) (fun '(_, node) =>
      schedule_dependent unique_id (node_file_id node) (depends_on_macros node))).

Definition update_macro_in_saved (new_source_file old_source_file : ref) : M unit :=
  handle_macro_file_links old_source_file ;;
  new <- read_file new_source_file ;;
  modify (set_saved (set_files (insert (file_id new) new_source_file))) ;;
  add_to_pp_files new_source_file.

Definition update_doc_in_saved (new_source_file old_source_file : ref) : M unit :=
  new <- read_file new_source_file ;;
  modify (set_saved (set_files (insert (file_id new) new_source_file))) ;;
  add_to_pp_files new_source_file.

(** [schedule_nodes_for_parsing] is not a method of the class. *)
Definition delete_mssat_file (source_file : ref) : M unit :=
  sf <- read_file source_file ;;
  if is_nil (sf_nodes sf)
  then raise (Exception ("No nodes found for source file " +:+ file_id sf))
  else
    for_each (sf_nodes sf) (fun unique_id =>
      delete_node_in_saved source_file unique_id ;;
      raise (AttributeError "schedule_nodes_for_parsing")).

Definition delete_macro_file (source_file : ref) : M unit :=
  handle_macro_file_links source_file ;;
  sf <- read_file source_file ;;
  move_file (file_id sf).

Definition delete_doc_file (source_file : ref) : M unit :=
  sf <- read_file source_file ;;
  (* remove the nodes in the 'docs' dictionary *)
  for_each (sf_docs sf) move_doc ;;
  (* remove the file from the saved_files *)
  move_file (file_id sf).

(** This handles all non-schema files *)
Definition delete_from_saved (file_id : string) : M unit :=
  st <- get ;;
  saved_source_file <- dict_get (saved_files st) file_id ;;
  sf <- read_file saved_source_file ;;
  (if bool_decide (parse_file_type sf ∈ mssat_files)
   then delete_mssat_file saved_source_file else ret tt) ;;
  (if decide (parse_file_type sf = Macro)
   then delete_macro_file saved_source_file else ret tt) ;;
  (if decide (parse_file_type sf = Documentation)
   then delete_doc_file saved_source_file else ret tt) ;;
  move_file file_id.

Definition update_in_saved (file_id : string) : M unit :=
  st <- get ;;
  new_source_file <- dict_get (new_files st) file_id ;;
  old_source_file <- dict_get (saved_files st) file_id ;;
  new <- read_file new_source_file ;;
  if bool_decide (parse_file_type new ∈ mssat_files)
  then update_mssat_in_saved new_source_file old_source_file
  else if decide (parse_file_type new = Macro)
  then update_macro_in_saved new_source_file old_source_file
  else if decide (parse_file_type new = Documentation)
  then update_doc_in_saved new_source_file old_source_file
  else raise (Exception ("Invalid parse_file_type in source_file " +:+ file_id)).

(** *** get_diff_for *)

(** [deleted], [added] and [changed] of the dictionary [get_diff_for] returns *)
Record SectionDiff : Type := {
  diff_deleted : list element;
  diff_added : list element;
  diff_changed : list element
}.

(** [for element in elements: by_name[element['name']] = element] *)
Fixpoint elements_by_name (elems : list element) (by_name : gmap string element)
    : Res (gmap string element) :=
  match elems with
  | [] => Ok by_name
  | elem :: rest =>
      match elem !! "name" with
      | None => Raise (KeyError "name")
      | Some n =>
          res_bind (as_key n) (fun k => elements_by_name rest (<[k := elem]> by_name))
      end
  end.

(** [d[key] if key in d else []], then iterated as a list *)
Definition section_or_empty (d : yaml_dict) (key : string) : Res (list element) :=
  match d !! key with
  | None => Ok []
  | Some (YElems l) => Ok l
  | Some (YScalar _) => Raise TypeError
  end.

(** The sets of names are walked in the order of [elements]; Python fixes
    none. *)
Definition get_diff_for (key : string) (saved_yaml_dict new_yaml_dict : yaml_dict)
    : Res SectionDiff :=
  if bool_decide (key ∈ dom saved_yaml_dict) || bool_decide (key ∈ dom new_yaml_dict) then
    (* for each set of keys, need to create a dictionary of names pointing to entry *)
    res_bind (section_or_empty saved_yaml_dict key) (fun saved_elements =>
    res_bind (elements_by_name saved_elements ∅) (fun saved_elements_by_name =>
    res_bind (section_or_empty new_yaml_dict key) (fun new_elements =>
    res_bind (elements_by_name new_elements ∅) (fun new_elements_by_name =>
    (* now determine which elements, by name, are added, deleted or changed *)
    let saved_element_names : gset string := dom saved_elements_by_name in
    let new_element_names : gset string := dom new_elements_by_name in
    let deleted := saved_element_names ∖ new_element_names in
    let added := new_element_names ∖ saved_element_names in
    let common := saved_element_names ∩ new_element_names in
    let changed :=
      filter (fun element_name =>
                saved_elements_by_name !! element_name ≠ new_elements_by_name !! element_name)
             (elements common) in
    (* make lists of yaml elements to return as diffs *)
    Ok {| diff_deleted := omap (fun name => saved_elements_by_name !! name) (elements deleted);
          diff_added := omap (fun name => new_elements_by_name !! name) (elements added);
          diff_changed := omap (fun name => new_elements_by_name !! name) changed |}))))
  else Ok {| diff_deleted := []; diff_added := []; diff_changed := [] |}.

(** *** Sources, macro patches and exposures of a schema file *)

Definition delete_schema_source (schema_file : ref) (source_dict : element) : M unit :=
  (* both patches, tests, and source nodes *)
  source_name_of_dict <- elem_name source_dict ;;
  sf <- read_file schema_file ;;
  for_each (sf_sources sf) (fun unique_id =>
    st <- get ;;
    match sources (saved_manifest st) !! unique_id with
    | None => ret tt
    | Some source =>
        name <- match source with
                | ASource s => ret (source_name s)
                | AnExposure _ => raise (AttributeError "source_name")
                end ;;
        if str_eq_yaml name source_name_of_dict then
          st <- get ;;
          popped <- dict_get (exposures (saved_manifest st)) unique_id ;;
          modify (set_saved (set_exposures (delete unique_id))) ;;
          modify (set_deleted (set_sources (insert unique_id popped)))
        else ret tt
    end).

(** The loop of [delete_schema_macro_patch] over [macro_patches], left
    with [break] at the first match: [macro_unique_id], unbound ([None])
    when there is none. *)
Fixpoint find_macro_patch (ids : list string) (macro : element) : M (option string) :=
  match ids with
  | [] => ret None
  | unique_id :: rest =>
      n <- elem_name macro ;;
      if str_eq_yaml (last_part unique_id) n then ret (Some unique_id)
      else find_macro_patch rest macro
  end.

Definition delete_schema_macro_patch (schema_file : ref) (macro : element) : M unit :=
  (* This is just macro patches that need to be reapplied *)
  sf <- read_file schema_file ;;
  found <- find_macro_patch (macro_patches sf) macro ;;
  match found with
  | None => raise (UnboundLocalError "macro_unique_id")
  | Some macro_unique_id =>
      st <- get ;;
      (if negb (String.eqb macro_unique_id "") &&
          bool_decide (macro_unique_id ∈ dom (macros (saved_manifest st)))
       then
         macro <- move_macro macro_unique_id ;;
         st <- get ;;
         source_file <- dict_get (saved_files st) (macro_file_id macro) ;;
         add_to_pp_files source_file
       else ret tt) ;;
      sf <- read_file schema_file ;;
      if str_in macro_unique_id (macro_patches sf)
      then remove_from schema_file macro_patches set_macro_patches macro_unique_id
      else ret tt
  end.

(** [entry.name] *)
Definition entry_name (e : SourceOrExposure) : string :=
  match e with
  | ASource s => table_name s
  | AnExposure x => exposure_name x
  end.

Definition delete_schema_exposure (schema_file : ref) (exposure_dict : element) : M unit :=
  exposure_name_of_dict <- elem_name exposure_dict ;;
  sf <- read_file schema_file ;;
  for_each (sf_exposures sf) (fun unique_id =>
    st <- get ;;
    exposure <- dict_get (exposures (saved_manifest st)) unique_id ;;
    if str_eq_yaml (entry_name exposure) exposure_name_of_dict then
      modify (set_saved (set_exposures (delete unique_id))) ;;
      modify (set_deleted (set_exposures (insert unique_id exposure)))
    else ret tt).

(** *** handle_schema_file_changes *)

(** The variable of a [for] loop after the loop: the last item, or what it
    was bound to before when the list is empty. *)
Definition loop_var {A} (l : list A) (before : option A) : option A :=
  match List.last (map Some l) None with
  | Some x => Some x
  | None => before
  end.

(** One round of the loop over ['models', 'seeds', 'snapshots', 'analyses'];
    [elem] is the local variable of that name, which the macros section
    reads later.  The [if] on ['enabled'] has no body and no effect. *)
Definition handle_mssa_section (schema_file : ref) (saved_yaml_dict new_yaml_dict : yaml_dict)
    (dict_key : string) (elem : option element) : M (option element) :=
  key_diff <- lift (get_diff_for dict_key saved_yaml_dict new_yaml_dict) ;;
  for_each (diff_changed key_diff) (fun elem =>
    delete_schema_mssa_links schema_file dict_key elem ;;
    merge_patch schema_file dict_key elem) ;;
  for_each (diff_deleted key_diff) (fun elem =>
    delete_schema_mssa_links schema_file dict_key elem) ;;
    (* patches will go away when new is copied to saved *)
  for_each (diff_added key_diff) (fun elem =>
    merge_patch schema_file dict_key elem) ;;
  ret (loop_var (diff_added key_diff)
        (loop_var (diff_deleted key_diff) (loop_var (diff_changed key_diff) elem))).

Fixpoint handle_mssa_sections (schema_file : ref) (saved_yaml_dict new_yaml_dict : yaml_dict)
    (dict_keys : list string) (elem : option element) : M (option element) :=
  match dict_keys with
  | [] => ret elem
  | dict_key :: rest =>
      elem' <- handle_mssa_section schema_file saved_yaml_dict new_yaml_dict dict_key elem ;;
      handle_mssa_sections schema_file saved_yaml_dict new_yaml_dict rest elem'
  end.

Definition source_override_msg (what file_id : string) : string :=
  "Partial parsing does not handle " +:+ what +:+ " source overrides: " +:+ file_id.

(** [if 'override' in source: raise Exception(...)] *)
Definition reject_override (what : string) (schema_file : ref) (source : element) : M unit :=
  if bool_decide ("override" ∈ dom source) then
    sf <- read_file schema_file ;;
    raise (Exception (source_override_msg what (file_id sf)))
  else ret tt.

(** The bodies of the three loops over the sources. *)
Definition changed_source (schema_file : ref) (source : element) : M unit :=
  reject_override "changed" schema_file source ;;
  delete_schema_source schema_file source ;;
  merge_patch schema_file "sources" source.

Definition deleted_source (schema_file : ref) (source : element) : M unit :=
  reject_override "deleted" schema_file source ;;
  delete_schema_source schema_file source.

Definition added_source (schema_file : ref) (source : element) : M unit :=
  reject_override "new" schema_file source ;;
  merge_patch schema_file "sources" source.

Definition handle_sources (schema_file : ref) (saved_yaml_dict new_yaml_dict : yaml_dict)
    : M unit :=
  source_diff <- lift (get_diff_for "sources" saved_yaml_dict new_yaml_dict) ;;
  for_each (diff_changed source_diff) (changed_source schema_file) ;;
  for_each (diff_deleted source_diff) (deleted_source schema_file) ;;
  for_each (diff_added source_diff) (added_source schema_file).

(** The changed macros are merged as [elem], the variable of the loops
    over the sections before. *)
Definition handle_macros (schema_file : ref) (saved_yaml_dict new_yaml_dict : yaml_dict)
    (elem : option element) : M unit :=
  macro_diff <- lift (get_diff_for "macros" saved_yaml_dict new_yaml_dict) ;;
  for_each (diff_changed macro_diff) (fun macro =>
    delete_schema_macro_patch schema_file macro ;;
    match elem with
    | Some e => merge_patch schema_file "macros" e
    | None => raise (UnboundLocalError "elem")
    end) ;;
  for_each (diff_deleted macro_diff) (fun macro =>
    delete_schema_macro_patch schema_file macro) ;;
  for_each (diff_added macro_diff) (fun elem =>
    merge_patch schema_file "macros" elem).

Definition handle_exposures (schema_file : ref) (saved_yaml_dict new_yaml_dict : yaml_dict)
    : M unit :=
  exposure_diff <- lift (get_diff_for "exposures" saved_yaml_dict new_yaml_dict) ;;
  for_each (diff_changed exposure_diff) (fun exposure =>
    delete_schema_exposure schema_file exposure ;;
    merge_patch schema_file "exposures" exposure) ;;
  for_each (diff_deleted exposure_diff) (fun exposure =>
    delete_schema_exposure schema_file exposure) ;;
  for_each (diff_added exposure_diff) (fun exposure =>
    merge_patch schema_file "exposures" exposure).

Definition handle_schema_file_changes (schema_file : ref)
    (saved_yaml_dict new_yaml_dict : yaml_dict) : M unit :=
  (* models, seeds, snapshots, analyses *)
  elem <- handle_mssa_sections schema_file saved_yaml_dict new_yaml_dict
            ["models"; "seeds"; "snapshots"; "analyses"] None ;;
  handle_sources schema_file saved_yaml_dict new_yaml_dict ;;
  handle_macros schema_file saved_yaml_dict new_yaml_dict elem ;;
  handle_exposures schema_file saved_yaml_dict new_yaml_dict.

(** *** The files of the diff, one kind after the other *)

Definition change_schema_file (file_id : string) : M unit :=
  st <- get ;;
  saved_schema_file <- dict_get (saved_files st) file_id ;;
  new_schema_file <- dict_get (new_files st) file_id ;;
  saved <- read_file saved_schema_file ;;
  new <- read_file new_schema_file ;;
  let saved_yaml_dict := dict_from_yaml saved in
  let new_yaml_dict := dict_from_yaml new in
  v <- dict_get saved_yaml_dict "version" ;;
  write_file saved_schema_file (set_pp_dict (Some {["version" := v]})) ;;
  handle_schema_file_changes saved_schema_file saved_yaml_dict new_yaml_dict ;;
  (* copy from new schema_file to saved_schema_file to preserve references
     that weren't removed *)
  new <- read_file new_schema_file ;;
  write_file saved_schema_file (copy_contents new) ;;
  (* schedule parsing *)
  add_to_pp_files saved_schema_file.

(** This is a variation on changed schema files *)
Definition delete_schema_file (file_id : string) : M unit :=
  st <- get ;;
  saved_schema_file <- dict_get (saved_files st) file_id ;;
  saved <- read_file saved_schema_file ;;
  handle_schema_file_changes saved_schema_file (dict_from_yaml saved) ∅ ;;
  move_file file_id.

(** new files are easy, just add them to parse list.  The copy of
    [dict_from_yaml] is shallow: in Python the lists of the sections are
    shared with [pp_dict] until [change_schema_file] resets it; here they
    are values. *)
Definition add_to_saved (file_id : string) : M unit :=
  st <- get ;;
  source_file <- dict_get (new_files st) file_id ;;
  sf <- read_file source_file ;;
  (if decide (parse_file_type sf = Schema)
   then write_file source_file (set_pp_dict (Some (dict_from_yaml sf)))
   else ret tt) ;;
  modify (set_saved (set_files (insert file_id source_file))) ;;
  add_to_pp_files source_file.

(** generate the list of files that need parsing *)
Definition get_parsing_files : M (gmap string (gmap string (list string))) :=
  st <- get ;;
  if skip_parsing st then ret ∅
  else
    (* Need to add new files first, because changes in schema files
       might refer to them *)
    for_each (elements (added (file_diff st))) add_to_saved ;;
    (* Need to process schema files next, because the dictionaries
       need to be in place for handling SQL file changes *)
    for_each (changed_schema_files (file_diff st)) change_schema_file ;;
    for_each (deleted_schema_files (file_diff st)) delete_schema_file ;;
    for_each (deleted (file_diff st)) delete_from_saved ;;
    for_each (changed (file_diff st)) update_in_saved ;;
    st <- get ;;
    ret (project_parser_files st).

End PartialParsing.
End Partial.

(** ** Concrete manifests *)

Module Examples.
Import Partial.

(** A table of parsers in the shape of [parse_file_type_to_parser]. *)
Definition parsers (t : ParseFileType) : option string :=
  Some match t with
       | Model => "ModelParser" | Seed => "SeedParser" | Snapshot => "SnapshotParser"
       | Analysis => "AnalysisParser" | Test => "DataTestParser" | Macro => "MacroParser"
       | Documentation => "DocumentationParser" | Schema => "SchemaParser"
       end.

Definition plain_file (file_id : string) (t : ParseFileType) (checksum : string)
    (nodes macros : list string) : @SourceFile unit :=
  {| file_id := file_id; project_name := "test"; parse_file_type := t; checksum := checksum;
     contents := ""; is_SchemaSourceFile := false; sf_nodes := nodes; sf_macros := macros;
     sf_docs := []; dict_from_yaml := ∅; pp_dict := None; node_patches := [];
     macro_patches := []; tests := []; sf_sources := []; sf_exposures := [];
     pp_test_index := None |}.

Definition schema_yml : string := "test://models/schema.yml".
Definition model_three_sql : string := "test://models/model_three.sql".

Definition named (name : string) : gmap string (@yaml_value unit) := {["name" := YStr name]}.

(** [models/schema.yml]: a patch and two tests for [model_three]. *)
Definition schema_file_obj : @SourceFile unit :=
  {| file_id := schema_yml; project_name := "test"; parse_file_type := Schema;
     checksum := "c0"; contents := ""; is_SchemaSourceFile := true; sf_nodes := [];
     sf_macros := []; sf_docs := [];
     dict_from_yaml := <["version" := YScalar (YStr "2")]>
                       (<["models" := YElems [named "model_three"]]> ∅);
     pp_dict := None; node_patches := ["model.test.model_three"]; macro_patches := [];
     tests := ["test.test.unique_model_three_id"; "test.test.not_null_model_three_id"];
     sf_sources := []; sf_exposures := []; pp_test_index := None |}.

Definition node (name file_id : string) (patch_path : option string)
    (depends_on_nodes depends_on_macros : list string) : ParsedNode :=
  {| node_name := name; node_file_id := file_id; patch_path := patch_path;
     depends_on_nodes := depends_on_nodes; depends_on_macros := depends_on_macros |}.

Definition no_diff : FileDiff :=
  {| deleted := []; deleted_schema_files := []; added := ∅; changed := [];
     changed_schema_files := []; unchanged := [schema_yml; model_three_sql] |}.

(** The manifest of a project with [model_three], its patch and its tests;
    the file objects 0 and 1 are the saved ones, 2 and 3 the ones read. *)
Definition model_manifest : Manifest :=
  {| nodes :=
       <["model.test.model_three" := node "model_three" model_three_sql (Some schema_yml) [] []]>
       (<["test.test.unique_model_three_id" :=
            node "unique_model_three_id" schema_yml None ["model.test.model_three"] []]>
       (<["test.test.not_null_model_three_id" :=
            node "not_null_model_three_id" schema_yml None ["model.test.model_three"] []]>
       (<["model.test.model_one" := node "model_one" "test://models/model_one.sql" None [] []]>
        ∅)));
     macros := ∅; docs := ∅; sources := ∅; exposures := ∅;
     files := <[schema_yml := 0]> (<[model_three_sql := 1]> ∅) |}.

Definition model_state (d : FileDiff) : @PartialParsing unit :=
  {| saved_manifest := model_manifest;
     new_files := <[schema_yml := 3]> (<[model_three_sql := 2]> ∅);
     project_parser_files := ∅;
     deleted_manifest := empty_manifest;
     file_diff := d;
     heap := <[0 := schema_file_obj]>
             (<[1 := plain_file model_three_sql Model "c1" ["model.test.model_three"] []]>
             (<[2 := plain_file model_three_sql Model "c2" [] []]>
             (<[3 := schema_file_obj]> ∅))) |}.

(** Nothing changed since the manifest was saved. *)
Definition quiet_state : @PartialParsing unit := model_state no_diff.

(** The schema file changed. *)
Definition schema_changed_state : @PartialParsing unit :=
  model_state {| deleted := []; deleted_schema_files := []; added := ∅; changed := [];
                 changed_schema_files := [schema_yml]; unchanged := [model_three_sql] |}.

End Examples.

(** ** The vocabulary of the properties *)

Module PartialSpec.
Import Partial.

Section Vocabulary.
Context {V : Type} `{EqDecision V}.
Variable parse_file_type_to_parser : ParseFileType -> option string.

(** A method keeps a property of the state, whether it returns or raises. *)
Definition preserves {A} (P : @PartialParsing V -> Prop) (m : @M V A) : Prop :=
  forall st, P st -> P (snd (m st)).

(** The five buckets of changes are empty. *)
Definition no_changes (d : FileDiff) : Prop :=
  deleted d = [] /\ added d = ∅ /\ changed d = [] /\
  changed_schema_files d = [] /\ deleted_schema_files d = [].

(** The invariant of the schedule: under every project and parser, no file
    id twice and no file id of the [deleted] bucket. *)
Definition well_scheduled (deleted : list string)
    (ppf : gmap string (gmap string (list string))) : Prop :=
  forall project by_parser parser ids,
    ppf !! project = Some by_parser ->
    by_parser !! parser = Some ids ->
    NoDup ids /\ forall file_id, file_id ∈ ids -> file_id ∉ deleted.

Definition schedule_ok (st : @PartialParsing V) : Prop :=
  well_scheduled (deleted (file_diff st)) (project_parser_files st).

(** [add_to_pp_files] called for the files of a list one after the other,
    a call that raises being caught: the state reached. *)
Fixpoint schedule_all (source_files : list ref) (st : @PartialParsing V) : @PartialParsing V :=
  match source_files with
  | [] => st
  | r :: rest => schedule_all rest (snd (add_to_pp_files parse_file_type_to_parser r st))
  end.

(** A file id is in the schedule, under some project and some parser. *)
Definition scheduled (file_id : string) (ppf : gmap string (gmap string (list string)))
    : Prop :=
  exists project by_parser parser ids,
    ppf !! project = Some by_parser /\ by_parser !! parser = Some ids /\ file_id ∈ ids.

(** The element has a name and the name is a string. *)
Definition string_named (elem : gmap string (@yaml_value V)) : Prop :=
  exists name, elem !! "name" = Some (YStr name).

(** The last element of a section with the given name. *)
Definition last_named (name : string) (elems : list (gmap string (@yaml_value V)))
    : option (gmap string (@yaml_value V)) :=
  List.find (fun elem => bool_decide (elem !! "name" = Some (YStr name))) (rev elems).

(** The element has the given name. *)
Definition has_name (name : @yaml_value V) (elem : gmap string (@yaml_value V)) : bool :=
  bool_decide (elem !! "name" = Some name).

(** The elements with the given name queued under [key] in the pending
    patches of the file object [r]. *)
Definition queued (r : ref) (key : string) (name : @yaml_value V) (st : @PartialParsing V)
    : list (gmap string (@yaml_value V)) :=
  match heap st !! r with
  | Some sf =>
      match pp_dict sf with
      | Some d =>
          match d !! key with
          | Some (YElems elems) =>
              filter (fun elem => elem !! "name" = Some name) elems
          | _ => []
          end
      | None => []
      end
  | None => []
  end.

(** The first id among the patches of a schema file that starts with the
    prefix of the section and ends with the name of the element. *)
Definition first_patch (prefix name : string) (ids : list string) : option string :=
  List.find (fun unique_id =>
               String.prefix prefix unique_id && String.eqb (last_part unique_id) name) ids.

(** The test [test_unique_id] is a node whose first upstream node ends with
    [name]. *)
Definition tests_node (nodes : gmap string ParsedNode) (name test_unique_id : string) : bool :=
  match nodes !! test_unique_id with
  | Some test_node =>
      match depends_on_nodes test_node with
      | tested_node_id :: _ => String.eqb (last_part tested_node_id) name
      | [] => false
      end
  | None => false
  end.

(** The tests that a schema file owns for the element [name]. *)
Definition tests_of (nodes : gmap string ParsedNode) (name : string) (sf : @SourceFile V)
    : list string :=
  filter (fun t => tests_node nodes name t = true) (tests sf).

(** Every test of the file is a node with an upstream node. *)
Definition tests_resolved (nodes : gmap string ParsedNode) (sf : @SourceFile V) : Prop :=
  forall t, t ∈ tests sf ->
    exists test_node tested_node_id others,
      nodes !! t = Some test_node /\
      depends_on_nodes test_node = tested_node_id :: others.

(** The mappings of a manifest other than the nodes and the files hold
    the same entries. *)
Definition same_entities (m m' : Manifest) : Prop :=
  macros m' = macros m /\ docs m' = docs m /\
  sources m' = sources m /\ exposures m' = exposures m.

(** The nodes of [m'] are the nodes of [m] without the ones of [ids]. *)
Definition nodes_removed (ids : list string) (m m' : gmap string ParsedNode) : Prop :=
  forall k, m' !! k = if bool_decide (k ∈ ids) then None else m !! k.

(** The nodes of [d'] are the nodes of [d] and the nodes of [m] of [ids]. *)
Definition nodes_recorded (ids : list string) (m d d' : gmap string ParsedNode) : Prop :=
  forall k, d' !! k = if bool_decide (k ∈ ids) then m !! k else d !! k.



End Vocabulary.
End PartialSpec.

(** ** More concrete manifests *)

Module MoreExamples.
Import Partial Examples.

Definition m1_sql : string := "test://macros/m1.sql".
Definition m2_sql : string := "test://macros/m2.sql".
Definition a_sql : string := "test://models/a.sql".

(** [macros/m1.sql] owns the macro [m1]; the macro [m2] of [macros/m2.sql]
    and the model [a] of [models/a.sql] call [m1]. *)
Definition macro_state : @PartialParsing unit :=
  {| saved_manifest :=
       {| nodes := {["model.test.a" := node "a" a_sql None [] ["macro.test.m1"]]};
          macros := <["macro.test.m1" := {| macro_file_id := m1_sql;
                                            macro_depends_on_macros := [] |}]>
                    {["macro.test.m2" := {| macro_file_id := m2_sql;
                                            macro_depends_on_macros := ["macro.test.m1"] |}]};
          docs := ∅; sources := ∅; exposures := ∅;
          files := <[m1_sql := 0]> (<[m2_sql := 1]> {[a_sql := 2]}) |};
     new_files := <[m2_sql := 1]> {[a_sql := 2]};
     project_parser_files := ∅;
     deleted_manifest := empty_manifest;
     file_diff := {| deleted := [m1_sql]; deleted_schema_files := []; added := ∅;
                     changed := []; changed_schema_files := [];
                     unchanged := [m2_sql; a_sql] |};
     heap := <[0 := plain_file m1_sql Macro "c0" [] ["macro.test.m1"]]>
             (<[1 := plain_file m2_sql Macro "c1" [] ["macro.test.m2"]]>
             {[2 := plain_file a_sql Model "c2" ["model.test.a"] []]}) |}.

Definition sources_yml : string := "test://models/sources.yml".
Definition raw_customers : string := "source.test.seed_source.raw_customers".

(** [models/sources.yml] declares the source [seed_source] with the table
    [raw_customers], and is removed. *)
Definition sources_file_obj : @SourceFile unit :=
  {| file_id := sources_yml; project_name := "test"; parse_file_type := Schema;
     checksum := "c0"; contents := ""; is_SchemaSourceFile := true; sf_nodes := [];
     sf_macros := []; sf_docs := [];
     dict_from_yaml := <["version" := YScalar (YStr "2")]>
                       {["sources" := YElems [named "seed_source"]]};
     pp_dict := None; node_patches := []; macro_patches := []; tests := [];
     sf_sources := [raw_customers]; sf_exposures := []; pp_test_index := None |}.

Definition source_state : @PartialParsing unit :=
  {| saved_manifest :=
       {| nodes := ∅; macros := ∅; docs := ∅;
          sources := {[raw_customers := ASource {| source_name := "seed_source";
                                                   table_name := "raw_customers" |}]};
          exposures := ∅;
          files := {[sources_yml := 0]} |};
     new_files := ∅;
     project_parser_files := ∅;
     deleted_manifest := empty_manifest;
     file_diff := {| deleted := []; deleted_schema_files := [sources_yml]; added := ∅;
                     changed := []; changed_schema_files := []; unchanged := [] |};
     heap := {[0 := sources_file_obj]} |}.

(** A source that overrides the source of another package. *)
Definition overriding (name : string) : gmap string (@yaml_value unit) :=
  <["override" := YStr "other_package"]> (named name).

(** A section with the name [a] twice. *)
Definition twice_a : list (gmap string (@yaml_value unit)) :=
  [<["description" := YStr "first"]> (named "a");
   <["description" := YStr "second"]> (named "a")].

Definition twice_a_doc : gmap string (@yaml_entry unit) := {["models" := YElems twice_a]}.

End MoreExamples.

(** ** The vocabulary of the properties of the extraction *)

Module JinjaSpec.
Import JinjaStatic.

(** The call is [adapter.dispatch(...)]. *)
Definition is_dispatch_call (e : expr) : bool :=
  match e with
  | Call (Getattr (Name package_name) macro_name) _ _ _ _ =>
      String.eqb package_name "adapter" && String.eqb macro_name "dispatch"
  | _ => false
  end.

(** The name under which a call other than a dispatch is looked at: the
    [name] of the callee when it has one ([f] for [f(...)], the name of the
    filter or of the test for a called filter or test), [ns.attr] for
    [ns.attr(...)] with [ns] a [Name] other than [adapter]; no name for a
    call of a literal, a list, a call, a sum or an attribute of anything
    but a [Name]. *)
Definition call_name (e : expr) : option string :=
  match e with
  | Call (Name name) _ _ _ _
  | Call (Filter _ name _ _ _ _) _ _ _ _
  | Call (Test _ name _ _ _ _) _ _ _ _ => Some name
  | Call (Getattr (Name package_name) macro_name) _ _ _ _ =>
      if String.eqb package_name "adapter" then None
      else Some (package_name +:+ "." +:+ macro_name)
  | _ => None
  end.

(** A name that the extraction records: not empty, not a standard call,
    not bound to a true value in the context. *)
Definition recordable (ctx : gmap string ctx_entry) (x : string) : bool :=
  truthy_str (Some x) && negb (str_in x standard_calls) &&
  negb match ctx !! x with
       | Some c => ctx_truthy c
       | None => false
       end.

(** [adapter.dispatch(args, kwargs)] *)
Definition adapter_dispatch (args : list expr) (kwargs : list (string * expr)) : expr :=
  Call (Getattr (Name "adapter") "dispatch") args kwargs None None.

(** The key is among the keyword arguments. *)
Definition has_kwarg (key : string) (kwargs : list (string * expr)) : bool :=
  existsb (fun kw => String.eqb (fst kw) key) kwargs.

(** The expression is a literal. *)
Definition is_Const (e : expr) : bool :=
  match e with
  | Const _ => true
  | _ => false
  end.

(** [name] when it is not empty: what a dispatch records for the macro
    name it is given. *)
Definition named_call (name : string) : list string :=
  if truthy_str (Some name) then [name] else [].

(** A template without dispatch:
    [{{ ref('a') }} {{ my_macro(dbt_utils.star(source('s', 't'))) }}
     {{ adapter.quote(my_macro()) }} {{ local_var() }} {{ (x|upper)() }}]. *)
Definition plain_template : Template :=
  [Call (Name "ref") [Const "a"] [] None None;
   Call (Name "my_macro")
     [Call (Getattr (Name "dbt_utils") "star")
        [Call (Name "source") [Const "s"; Const "t"] [] None None] [] None None]
     [] None None;
   Call (Getattr (Name "adapter") "quote") [Call (Name "my_macro") [] [] None None]
     [] None None;
   Call (Name "local_var") [] [] None None;
   Call (Filter (Some (Name "x")) "upper" [] [] None None) [] [] None None].

Definition plain_ctx : gmap string ctx_entry := {["local_var" := CtxValue true]}.

End JinjaSpec.

(** ** More vocabulary for the diff *)

Module PartialMore.
Import Partial PartialSpec.

Section Vocabulary.
Context {V : Type} `{EqDecision V}.

(** The file object saved, and the one read, under a file id. *)
Definition saved_file (st : @PartialParsing V) (file_id : string) : option (@SourceFile V) :=
  match saved_files st !! file_id with
  | Some r => heap st !! r
  | None => None
  end.

Definition new_file (st : @PartialParsing V) (file_id : string) : option (@SourceFile V) :=
  match new_files st !! file_id with
  | Some r => heap st !! r
  | None => None
  end.

(** The saved file is of the schema kind. *)
Definition is_schema_file (st : @PartialParsing V) (file_id : string) : bool :=
  match saved_file st file_id with
  | Some sf => bool_decide (parse_file_type sf = Schema)
  | None => false
  end.

(** The saved file and the file read have the same checksum. *)
Definition same_checksum (st : @PartialParsing V) (file_id : string) : bool :=
  match saved_file st file_id, new_file st file_id with
  | Some sf, Some nf => String.eqb (checksum sf) (checksum nf)
  | _, _ => false
  end.

(** A changed file of the schema kind that was not saved as a
    [SchemaSourceFile]. *)
Definition misserialized (st : @PartialParsing V) (file_id : string) : bool :=
  negb (same_checksum st file_id) && is_schema_file st file_id &&
  match saved_file st file_id with
  | Some sf => negb (is_SchemaSourceFile sf)
  | None => false
  end.

(** Every file id of the saved manifest and of the files read leads to a
    file object. *)
Definition files_resolved (st : @PartialParsing V) : Prop :=
  map_Forall (fun _ r => is_Some (heap st !! r)) (saved_files st) /\
  map_Forall (fun _ r => is_Some (heap st !! r)) (new_files st).

(** No file of the diff is misserialized. *)
Definition well_serialized (st : @PartialParsing V) : Prop :=
  Forall (fun file_id => misserialized st file_id = false)
    (elements (dom (saved_files st) ∩ dom (new_files st))).

(** The buckets of [build_file_diff], from the sets it walks. *)
Definition file_diff_of (st : @PartialParsing V) : FileDiff :=
  let saved_file_ids : gset string := dom (saved_files st) in
  let new_file_ids : gset string := dom (new_files st) in
  {| deleted := filter (fun f => is_schema_file st f = false)
                  (elements (saved_file_ids ∖ new_file_ids));
     deleted_schema_files := filter (fun f => is_schema_file st f = true)
                               (elements (saved_file_ids ∖ new_file_ids));
     added := new_file_ids ∖ saved_file_ids;
     changed := filter (fun f => same_checksum st f = false /\ is_schema_file st f = false)
                  (elements (saved_file_ids ∩ new_file_ids));
     changed_schema_files :=
       filter (fun f => same_checksum st f = false /\ is_schema_file st f = true)
         (elements (saved_file_ids ∩ new_file_ids));
     unchanged := filter (fun f => same_checksum st f = true)
                    (elements (saved_file_ids ∩ new_file_ids)) |}.

(** The list under a project and a parser in the schedule, empty when
    there is none. *)
Definition scheduled_ids (project parser : string)
    (ppf : gmap string (gmap string (list string))) : list string :=
  default [] (default ∅ (ppf !! project) !! parser).

(** The schedule [ppf'] holds what [ppf] holds, in the same order, with
    more file ids after them at most. *)
Definition schedule_extends (ppf ppf' : gmap string (gmap string (list string))) : Prop :=
  forall project parser,
    exists more, scheduled_ids project parser ppf'
                 = scheduled_ids project parser ppf ++ more.

(** The names of the sections that [handle_schema_file_changes] diffs. *)
Definition section_keys : list string :=
  ["models"; "seeds"; "snapshots"; "analyses"; "sources"; "macros"; "exposures"].

(** Every section of the document is a list of elements with string names. *)
Definition well_formed_document (d : gmap string (@yaml_entry V)) : Prop :=
  Forall (fun key => exists elems,
            section_or_empty d key = Ok elems /\ Forall string_named elems)
         section_keys.

(** The entries of [m'] are the entries of [m] without the ones of [ids];
    those of [d'] the ones of [d] and the entries of [m] of [ids]. *)
Definition entries_moved {A} (ids : list string) (m m' d d' : gmap string A) : Prop :=
  (forall k, m' !! k = if bool_decide (k ∈ ids) then None else m !! k) /\
  (forall k, d' !! k = if bool_decide (k ∈ ids) then m !! k else d !! k).

(** The state [st'] is the state [st] but for the macros of the two
    manifests. *)
Definition same_but_macros (st st' : @PartialParsing V) : Prop :=
  st' = set_deleted (set_macros (fun _ => macros (deleted_manifest st')))
          (set_saved (set_macros (fun _ => macros (saved_manifest st'))) st).

(** The state [st'] is the state [st] but for the exposures of the two
    manifests. *)
Definition same_but_exposures (st st' : @PartialParsing V) : Prop :=
  st' = set_deleted (set_exposures (fun _ => exposures (deleted_manifest st')))
          (set_saved (set_exposures (fun _ => exposures (saved_manifest st'))) st).

(** The first of the ids whose last part is the name. *)
Definition first_macro_patch (name : @yaml_value V) (ids : list string) : option string :=
  List.find (fun unique_id => str_eq_yaml (last_part unique_id) name) ids.

(** The manifest [m'] has entries of [m] alone among its nodes, macros,
    docs and exposures, and the sources of [m]. *)
Definition manifest_shrinks (m m' : Manifest) : Prop :=
  nodes m' ⊆ nodes m /\ macros m' ⊆ macros m /\ docs m' ⊆ docs m /\
  exposures m' ⊆ exposures m /\ sources m' = sources m.

(** The manifest [m'] has an entry under every key of [m]. *)
Definition manifest_grows (m m' : Manifest) : Prop :=
  dom (nodes m) ⊆ dom (nodes m') /\ dom (macros m) ⊆ dom (macros m') /\
  dom (docs m) ⊆ dom (docs m') /\ dom (sources m) ⊆ dom (sources m') /\
  dom (exposures m) ⊆ dom (exposures m') /\ dom (files m) ⊆ dom (files m').

(** The file object [sf'] is [sf] as to what it is and what it owns: the
    pending patches, the recorded patches and tests, the test index and the
    contents may differ. *)
Definition same_identity (sf sf' : @SourceFile V) : Prop :=
  file_id sf' = file_id sf /\ project_name sf' = project_name sf /\
  parse_file_type sf' = parse_file_type sf /\
  is_SchemaSourceFile sf' = is_SchemaSourceFile sf /\
  sf_nodes sf' = sf_nodes sf /\ sf_macros sf' = sf_macros sf /\
  sf_docs sf' = sf_docs sf /\ sf_sources sf' = sf_sources sf /\
  sf_exposures sf' = sf_exposures sf.

Definition keeps_identity (f : @SourceFile V -> @SourceFile V) : Prop :=
  forall sf, same_identity sf (f sf).

(** The heaps hold objects under the same references, each the same as to
    what it is and what it owns. *)
Definition same_objects (h h' : gmap ref (@SourceFile V)) : Prop :=
  forall r,
    match h !! r, h' !! r with
    | Some sf, Some sf' => same_identity sf sf'
    | None, None => True
    | _, _ => False
    end.

(** The entry of [m] under the id has the given name. *)
Definition is_named (name : @yaml_value V) (m : gmap string SourceOrExposure)
    (unique_id : string) : bool :=
  match m !! unique_id with
  | Some entry => str_eq_yaml (entry_name entry) name
  | None => false
  end.

(** The ids among [ids] of the entries of [m] with the given name. *)
Definition named_entries (name : @yaml_value V) (m : gmap string SourceOrExposure)
    (ids : list string) : list string :=
  filter (fun unique_id => is_named name m unique_id = true) ids.

End Vocabulary.

Section Adding.
Context {V : Type} `{EqDecision V}.
Variable parse_file_type_to_parser : ParseFileType -> option string.

(** The file read under the id can be scheduled: it is there, and has a
    parser and a project. *)
Definition addable (st : @PartialParsing V) (file_id : string) : Prop :=
  exists sf parser_name,
    new_file st file_id = Some sf /\
    parse_file_type_to_parser (parse_file_type sf) = Some parser_name /\
    parser_name <> "" /\ project_name sf <> "".

End Adding.
End PartialMore.

(** ** Concrete diffs of files *)

Module DiffExamples.
Import Partial Examples.

(** The files read again: [models/model_three.sql] changed, the schema
    file did not. *)
Definition model_changed_state : @PartialParsing unit := model_state no_diff.

(** Nothing changed: the files read have the checksums of the saved ones. *)
Definition reread_state : @PartialParsing unit :=
  {| saved_manifest := model_manifest;
     new_files := <[schema_yml := 3]> (<[model_three_sql := 4]> ∅);
     project_parser_files := ∅;
     deleted_manifest := empty_manifest;
     file_diff := no_diff;
     heap := <[0 := schema_file_obj]>
             (<[1 := plain_file model_three_sql Model "c1" ["model.test.model_three"] []]>
             (<[3 := schema_file_obj]>
             (<[4 := plain_file model_three_sql Model "c1" [] []]> ∅))) |}.

(** The schema file changed and was saved as a plain [SourceFile]. *)
Definition misserialized_state : @PartialParsing unit :=
  {| saved_manifest := model_manifest;
     new_files := <[schema_yml := 3]> (<[model_three_sql := 4]> ∅);
     project_parser_files := ∅;
     deleted_manifest := empty_manifest;
     file_diff := no_diff;
     heap := <[0 := plain_file schema_yml Schema "c0" [] []]>
             (<[1 := plain_file model_three_sql Model "c1" ["model.test.model_three"] []]>
             (<[3 := plain_file schema_yml Schema "c9" [] []]>
             (<[4 := plain_file model_three_sql Model "c1" [] []]> ∅))) |}.

(** A document with the models [a] and [b], and one where [b] has a
    description and [c] replaces [a]. *)
Definition doc_ab : gmap string (@yaml_entry unit) :=
  <["version" := YScalar (YStr "2")]> {["models" := YElems [named "a"; named "b"]]}.

Definition doc_bc : gmap string (@yaml_entry unit) :=
  <["version" := YScalar (YStr "2")]>
  {["models" := YElems [<["description" := YStr "B"]> (named "b"); named "c"]]}.

(** The schema file read again with another checksum and the same
    document. *)
Definition reformatted_state : @PartialParsing unit :=
  {| saved_manifest := model_manifest;
     new_files := <[schema_yml := 3]> (<[model_three_sql := 4]> ∅);
     project_parser_files := ∅;
     deleted_manifest := empty_manifest;
     file_diff := {| deleted := []; deleted_schema_files := []; added := ∅; changed := [];
                     changed_schema_files := [schema_yml];
                     unchanged := [model_three_sql] |};
     heap := <[0 := schema_file_obj]>
             (<[1 := plain_file model_three_sql Model "c1" ["model.test.model_three"] []]>
             (<[3 := {| file_id := schema_yml; project_name := "test";
                        parse_file_type := Schema; checksum := "c7";
                        contents := "# a comment"; is_SchemaSourceFile := true;
                        sf_nodes := []; sf_macros := []; sf_docs := [];
                        dict_from_yaml := dict_from_yaml schema_file_obj;
                        pp_dict := None; node_patches := []; macro_patches := [];
                        tests := []; sf_sources := []; sf_exposures := [];
                        pp_test_index := None |}]>
             (<[4 := plain_file model_three_sql Model "c1" [] []]> ∅))) |}.

(** The patch of [model_three] is gone from the document of the schema
    file, and the node still points to the file. *)
Definition stale_schema_obj : @SourceFile unit :=
  {| file_id := schema_yml; project_name := "test"; parse_file_type := Schema;
     checksum := "c0"; contents := ""; is_SchemaSourceFile := true; sf_nodes := [];
     sf_macros := []; sf_docs := [];
     dict_from_yaml := <["version" := YScalar (YStr "2")]>
                       {["models" := YElems [named "model_one"]]};
     pp_dict := None; node_patches := []; macro_patches := []; tests := [];
     sf_sources := []; sf_exposures := []; pp_test_index := None |}.

Definition stale_patch_state : @PartialParsing unit :=
  set_heap (insert 0 stale_schema_obj) (model_state no_diff).

(** A schema file that patches the macro [m1] of [macro_state]. *)
Definition macro_patch_obj : @SourceFile unit :=
  {| file_id := schema_yml; project_name := "test"; parse_file_type := Schema;
     checksum := "c0"; contents := ""; is_SchemaSourceFile := true; sf_nodes := [];
     sf_macros := []; sf_docs := [];
     dict_from_yaml := <["version" := YScalar (YStr "2")]>
                       {["macros" := YElems [named "m1"]]};
     pp_dict := None; node_patches := []; macro_patches := ["macro.test.m1"];
     tests := []; sf_sources := []; sf_exposures := []; pp_test_index := None |}.

Definition macro_patch_state : @PartialParsing unit :=
  set_heap (insert 3 macro_patch_obj) MoreExamples.macro_state.

(** The same, when the schema file changed and the file of the macro
    was not deleted. *)
Definition macro_patch_kept_state : @PartialParsing unit :=
  set_file_diff
    {| deleted := []; deleted_schema_files := []; added := ∅; changed := [];
       changed_schema_files := [schema_yml];
       unchanged := [MoreExamples.m1_sql; MoreExamples.m2_sql; MoreExamples.a_sql] |}
    macro_patch_state.

(** A docs file read again with another checksum. *)
Definition docs_md : string := "test://models/docs.md".

Definition docs_file_obj (checksum : string) : @SourceFile unit :=
  {| file_id := docs_md; project_name := "test"; parse_file_type := Documentation;
     checksum := checksum; contents := ""; is_SchemaSourceFile := false; sf_nodes := [];
     sf_macros := []; sf_docs := ["test.my_doc"]; dict_from_yaml := ∅; pp_dict := None;
     node_patches := []; macro_patches := []; tests := []; sf_sources := [];
     sf_exposures := []; pp_test_index := None |}.

Definition docs_state : @PartialParsing unit :=
  {| saved_manifest :=
       {| nodes := ∅; macros := ∅; docs := {["test.my_doc" := {| doc_name := "my_doc" |}]};
          sources := ∅; exposures := ∅; files := {[docs_md := 0]} |};
     new_files := {[docs_md := 1]};
     project_parser_files := ∅;
     deleted_manifest := empty_manifest;
     file_diff := {| deleted := []; deleted_schema_files := []; added := ∅;
                     changed := [docs_md]; changed_schema_files := []; unchanged := [] |};
     heap := <[0 := docs_file_obj "c0"]> {[1 := docs_file_obj "c1"]} |}.

(** A schema file with the exposures [weekly] and [daily]; [monthly] is
    recorded in the file and gone from the manifest. *)
Definition exposures_file_obj (ids : list string) : @SourceFile unit :=
  {| file_id := schema_yml; project_name := "test"; parse_file_type := Schema;
     checksum := "c0"; contents := ""; is_SchemaSourceFile := true; sf_nodes := [];
     sf_macros := []; sf_docs := [];
     dict_from_yaml := <["version" := YScalar (YStr "2")]>
                       {["exposures" := YElems [named "weekly"; named "daily"]]};
     pp_dict := None; node_patches := []; macro_patches := []; tests := [];
     sf_sources := []; sf_exposures := ids; pp_test_index := None |}.

Definition exposure_state (ids : list string) : @PartialParsing unit :=
  {| saved_manifest :=
       {| nodes := ∅; macros := ∅; docs := ∅; sources := ∅;
          exposures := <["exposure.test.weekly" := AnExposure {| exposure_name := "weekly" |}]>
                       {["exposure.test.daily" := AnExposure {| exposure_name := "daily" |}]};
          files := {[schema_yml := 0]} |};
     new_files := {[schema_yml := 0]};
     project_parser_files := ∅;
     deleted_manifest := empty_manifest;
     file_diff := {| deleted := []; deleted_schema_files := []; added := ∅; changed := [];
                     changed_schema_files := [schema_yml]; unchanged := [] |};
     heap := {[0 := exposures_file_obj ids]} |}.

(** The model [a] of [macro_state] is gone from the saved manifest. *)
Definition node_gone_state : @PartialParsing unit :=
  set_saved (set_nodes (delete "model.test.a")) MoreExamples.macro_state.

(** Two files were added to the project of [model_manifest]. *)
Definition model_four_sql : string := "test://models/model_four.sql".
Definition more_yml : string := "test://models/more.yml".

Definition more_yml_obj : @SourceFile unit :=
  {| file_id := more_yml; project_name := "test"; parse_file_type := Schema;
     checksum := "c5"; contents := ""; is_SchemaSourceFile := true; sf_nodes := [];
     sf_macros := []; sf_docs := [];
     dict_from_yaml := <["version" := YScalar (YStr "2")]>
                       {["models" := YElems [named "model_four"]]};
     pp_dict := None; node_patches := []; macro_patches := []; tests := [];
     sf_sources := []; sf_exposures := []; pp_test_index := None |}.

Definition files_added_state : @PartialParsing unit :=
  {| saved_manifest := model_manifest;
     new_files := <[schema_yml := 0]> (<[model_three_sql := 1]>
                  (<[model_four_sql := 5]> {[more_yml := 6]}));
     project_parser_files := ∅;
     deleted_manifest := empty_manifest;
     file_diff := {| deleted := []; deleted_schema_files := [];
                     added := {[model_four_sql; more_yml]}; changed := [];
                     changed_schema_files := [];
                     unchanged := [schema_yml; model_three_sql] |};
     heap := <[0 := schema_file_obj]>
             (<[1 := plain_file model_three_sql Model "c1" ["model.test.model_three"] []]>
             (<[5 := plain_file model_four_sql Model "c4" [] []]>
             {[6 := more_yml_obj]})) |}.

End DiffExamples.

(** * Properties *)

(** ** The static extraction of macro calls *)

Section JinjaStaticFacts.
Import JinjaStatic.

(** C2, as the code has it: for the template
    [adapter.dispatch('current_timestamp', packages=['dbt_utils'])] and a
    resolver that maps [('current_timestamp', ['dbt_utils'])] to
    [dbt_utils.default__current_timestamp], the extraction returns the name
    of the dispatched macro and then the resolved macro, in that order,
    whatever the context holds. *)
Theorem dispatch_current_timestamp_calls (ctx : gmap string ctx_entry) (resolver : DbWrapper) :
  resolver (Some "current_timestamp") (Some ["dbt_utils"])
    = Ok ("dbt_utils", "default__current_timestamp") ->
  statically_extract_macro_calls [dispatch_current_timestamp] ctx (Some resolver)
    = Ok ["current_timestamp"; "dbt_utils.default__current_timestamp"].
Proof.
  intros Hres.
  unfold statically_extract_macro_calls, dispatch_current_timestamp. simpl.
  rewrite Hres. reflexivity.
Qed.

Lemma dispatch_current_timestamp_calls_witness :
  statically_extract_macro_calls [dispatch_current_timestamp] ∅ (Some utils_resolver)
    = Ok ["current_timestamp"; "dbt_utils.default__current_timestamp"].
Proof.
  apply (dispatch_current_timestamp_calls ∅ utils_resolver). reflexivity.
Defined.

(** C2 as stated fails: the result is not the one resolved macro alone. *)
Lemma dispatch_current_timestamp_not_singleton :
  statically_extract_macro_calls [dispatch_current_timestamp] ∅ (Some utils_resolver)
    <> Ok ["dbt_utils.default__current_timestamp"].
Proof. vm_compute. discriminate. Qed.

(** C5, as the code has it: when the [packages] argument of a dispatch call
    is a call [ns.attr(...)] of an attribute of a name, and [attr] does not
    both start with [_get] and contain [namespaces], the extraction fails
    with a compilation error whose message names [attr]. *)
Theorem dispatch_custom_packages_call_rejected (ns attr : string) (args : list expr)
    (kwargs : list (string * expr)) (dyn_args dyn_kwargs : option expr)
    (ctx : gmap string ctx_entry) (db_wrapper : option DbWrapper) :
  String.prefix "_get" attr && is_substring "namespaces" attr = false ->
  statically_extract_macro_calls
    [dispatch_packages_call ns attr args kwargs dyn_args dyn_kwargs] ctx db_wrapper
    = Raise (CompilationException (unsupported_packages_msg attr))
  /\ exists before after, unsupported_packages_msg attr = before +:+ attr +:+ after.
Proof.
  intros Hpat. split.
  - unfold statically_extract_macro_calls, dispatch_packages_call. simpl.
    rewrite Hpat. reflexivity.
  - unfold unsupported_packages_msg. eexists _, _. reflexivity.
Qed.

Lemma dispatch_custom_packages_call_rejected_witness :
  statically_extract_macro_calls
    [dispatch_packages_call "local_utils" "some_custom_macro" [] [] None None] ∅ None
    = Raise (CompilationException (unsupported_packages_msg "some_custom_macro")).
Proof.
  apply (dispatch_custom_packages_call_rejected
           "local_utils" "some_custom_macro" [] [] None None ∅ None).
  reflexivity.
Defined.

(** C5 as stated fails: [adapter.dispatch('foo', packages=some_custom_macro())],
    where the custom macro is called by its bare name, is accepted, and the
    custom macro is recorded as a macro call of the template. *)
Lemma dispatch_bare_custom_macro_accepted :
  statically_extract_macro_calls [dispatch_custom_macro] ∅ None
    = Ok ["foo"; "some_custom_macro"].
Proof. reflexivity. Qed.

End JinjaStaticFacts.

(** ** More on the static extraction of macro calls *)

Section JinjaStaticMore.
Import JinjaStatic JinjaSpec.

Lemma record_call_recordable ctx x acc :
  record_call ctx (Some x) acc =
  if recordable ctx x then (if str_in x acc then acc else acc ++ [x]) else acc.
Proof.
  unfold record_call, recordable. simpl str_of.
  destruct (truthy_str (Some x)); simpl; [| reflexivity].
  destruct (str_in x standard_calls); simpl; [reflexivity |].
  destruct (match ctx !! x with Some c => ctx_truthy c | None => false end); reflexivity.
Qed.

(** What recording a name does to the names recorded so far. *)
Lemma record_call_members ctx x acc :
  (NoDup acc -> NoDup (record_call ctx (Some x) acc)) /\
  (forall y, y ∈ record_call ctx (Some x) acc <->
             y ∈ acc \/ (y = x /\ recordable ctx x = true)).
Proof.
  rewrite record_call_recordable. unfold str_in.
  destruct (recordable ctx x) eqn:Hrec.
  - destruct (bool_decide (x ∈ acc)) eqn:Hin.
    + apply bool_decide_eq_true in Hin. split; [tauto |].
      intros y. split; [tauto |]. intros [Hy | [-> _]]; assumption.
    + apply bool_decide_eq_false in Hin. split.
      * intros Hnd. apply NoDup_app. split; [exact Hnd |]. split; [| apply NoDup_singleton].
        intros y Hy Hy'. apply list_elem_of_singleton in Hy'. subst y. exact (Hin Hy).
      * intros y. rewrite elem_of_app, list_elem_of_singleton. tauto.
  - split; [tauto |]. intros y. split; [tauto |]. intros [Hy | [_ Hf]]; [exact Hy | discriminate].
Qed.

Lemma extract_calls_without_dispatch calls ctx db_wrapper :
  Forall (fun c => is_dispatch_call c = false) calls ->
  forall acc, exists res,
    extract_calls calls ctx db_wrapper acc = Ok res /\
    (NoDup acc -> NoDup res) /\
    (forall x, x ∈ res <->
       x ∈ acc \/ exists c, c ∈ calls /\ call_name c = Some x /\ recordable ctx x = true).
Proof.
  induction 1 as [|c calls Hc _ IH]; intros acc.
  - exists acc. split; [reflexivity |]. split; [tauto |].
    intros x. split; [tauto |]. intros [Hx | (c & Hin & _)]; [exact Hx | inversion Hin].
  - assert (Hskip : call_name c = None ->
      extract_calls (c :: calls) ctx db_wrapper acc = extract_calls calls ctx db_wrapper acc ->
      exists res, extract_calls (c :: calls) ctx db_wrapper acc = Ok res /\
        (NoDup acc -> NoDup res) /\
        (forall x, x ∈ res <->
           x ∈ acc \/ exists c', c' ∈ c :: calls /\ call_name c' = Some x /\
                                 recordable ctx x = true)).
    { intros Hnone Heq. destruct (IH acc) as (res & Hrun & Hnd & Hmem).
      exists res. rewrite Heq. split; [exact Hrun |]. split; [exact Hnd |].
      intros x. rewrite Hmem. split; intros [Hx | (c' & Hin & Hn & Hr)]; try tauto.
      - right. exists c'. split; [apply elem_of_cons; right; exact Hin | tauto].
      - apply elem_of_cons in Hin as [-> | Hin]; [congruence |].
        right. exists c'. tauto. }
    assert (Hrec : forall x, call_name c = Some x ->
      extract_calls (c :: calls) ctx db_wrapper acc
        = extract_calls calls ctx db_wrapper (record_call ctx (Some x) acc) ->
      exists res, extract_calls (c :: calls) ctx db_wrapper acc = Ok res /\
        (NoDup acc -> NoDup res) /\
        (forall y, y ∈ res <->
           y ∈ acc \/ exists c', c' ∈ c :: calls /\ call_name c' = Some y /\
                                 recordable ctx y = true)).
    { intros x Hx Heq.
      destruct (IH (record_call ctx (Some x) acc)) as (res & Hrun & Hnd & Hmem).
      destruct (record_call_members ctx x acc) as [Hnd' Hmem'].
      exists res. rewrite Heq. split; [exact Hrun |]. split; [tauto |].
      intros y. rewrite Hmem, Hmem'. split.
      - intros [[Hy | [Hyx Hr]] | (c' & Hin & Hn & Hr)].
        + left. exact Hy.
        + subst y. right. exists c. split; [apply elem_of_cons; left; reflexivity | tauto].
        + right. exists c'. split; [apply elem_of_cons; right; exact Hin | tauto].
      - intros [Hy | (c' & Hin & Hn & Hr)]; [tauto |].
        apply elem_of_cons in Hin as [-> | Hin].
        + assert (Hyx : y = x) by congruence. subst y.
          left. right. split; [reflexivity | exact Hr].
        + right. exists c'. tauto. }
    destruct c as [n | v | items | node attr | callee args kwargs da dk | lhs rhs
                   | fnode fname fargs fkwargs fda fdk | tnode tname targs tkwargs tda tdk];
      try (apply Hskip; reflexivity).
    destruct callee as [n | v | items | node attr | node' args' kwargs' da' dk' | lhs rhs
                        | fnode fname fargs fkwargs fda fdk
                        | tnode tname targs tkwargs tda tdk];
      try (apply Hskip; reflexivity).
    + apply (Hrec n); reflexivity.
    + destruct node as [p | v | items | node attr' | node' args' kwargs' da' dk' | lhs rhs
                        | fnode fname fargs fkwargs fda fdk
                        | tnode tname targs tkwargs tda tdk];
        try (apply Hskip; reflexivity).
      destruct (String.eqb p "adapter") eqn:Hp.
      * apply Hskip.
        -- simpl. rewrite Hp. reflexivity.
        -- simpl in Hc. rewrite Hp in Hc. simpl in Hc. simpl. rewrite Hp, Hc. reflexivity.
      * apply (Hrec (p +:+ "." +:+ attr)); simpl; rewrite Hp; reflexivity.
    + apply (Hrec fname); reflexivity.
    + apply (Hrec tname); reflexivity.
Qed.

(** X1: for a template without a call of [adapter.dispatch], the
    extraction returns, without duplicates, exactly the names under which
    its calls are looked at that are not empty, not one of [source], [ref]
    and [config], and not bound to a true value in the context: a call is
    looked at under the [name] of its callee when the callee has one (a
    [Name], or a called [Filter] or [Test]), and under [ns.attr] when the
    callee is an attribute of a [Name] other than [adapter]; a call of an
    attribute of [adapter], of an attribute of anything but a [Name], of a
    literal, a list, a call or a sum leaves no trace. *)
Theorem extract_without_dispatch (parsed : Template) (ctx : gmap string ctx_entry)
    (db_wrapper : option DbWrapper) :
  Forall (fun c => is_dispatch_call c = false) (template_calls parsed) ->
  exists res,
    statically_extract_macro_calls parsed ctx db_wrapper = Ok res /\
    NoDup res /\
    forall x, x ∈ res <->
      exists c, c ∈ template_calls parsed /\ call_name c = Some x /\
                recordable ctx x = true.
Proof.
  intros Hno. unfold statically_extract_macro_calls.
  destruct (extract_calls_without_dispatch _ ctx db_wrapper Hno []) as (res & Hrun & Hnd & Hmem).
  exists res. split; [exact Hrun |]. split; [apply Hnd; constructor |].
  intros x. rewrite Hmem. split; [| tauto].
  intros [Hx | Hx]; [inversion Hx | exact Hx].
Qed.

Lemma extract_without_dispatch_witness :
  exists res,
    statically_extract_macro_calls plain_template plain_ctx None = Ok res /\
    NoDup res /\
    forall x, x ∈ res <->
      exists c, c ∈ template_calls plain_template /\ call_name c = Some x /\
                recordable plain_ctx x = true.
Proof.
  apply (extract_without_dispatch plain_template plain_ctx None).
  repeat constructor.
Defined.

(** The called filter of [plain_template] is recorded under its name. *)
Example extract_called_filter :
  statically_extract_macro_calls plain_template plain_ctx None
  = Ok ["my_macro"; "dbt_utils.star"; "upper"].
Proof. reflexivity. Qed.

Lemma item_values_consts pkgs : item_values (map Const pkgs) = Ok pkgs.
Proof. induction pkgs as [|p pkgs IH]; simpl; [reflexivity |]. rewrite IH. reflexivity. Qed.

(** X2: without a resolver, a dispatch with a literal list of packages
    records the macro name, when it is not empty, and then one candidate
    [package.name] for every package of the list, in the order of the list;
    the list gives the same candidates as second positional argument and
    as keyword argument. *)
Theorem dispatch_static_candidates (node : expr) (name : string) (pkgs : list string)
    (dyn_args dyn_kwargs : option expr) (ctx : gmap string ctx_entry) :
  statically_parse_adapter_dispatch
    (Call node [Const name] [("packages", List (map Const pkgs))] dyn_args dyn_kwargs)
    ctx None
    = Ok (named_call name ++ map (fun p => p +:+ "." +:+ name) pkgs) /\
  statically_parse_adapter_dispatch
    (Call node [Const name; List (map Const pkgs)] [] dyn_args dyn_kwargs) ctx None
    = Ok (named_call name ++ map (fun p => p +:+ "." +:+ name) pkgs).
Proof.
  split; simpl; rewrite item_values_consts; reflexivity.
Qed.

(** X3: with a resolver, a dispatch hands it the macro name and the
    literal list of packages, or [None] when the list is empty or there
    is none, and records the macro name and then the one macro the resolver
    returns; an exception of the resolver is the outcome of the dispatch. *)
Theorem dispatch_resolver_packages (node : expr) (name : string) (pkgs : list string)
    (dyn_args dyn_kwargs : option expr) (ctx : gmap string ctx_entry) (resolver : DbWrapper) :
  let resolved packages :=
    match resolver (Some name) packages with
    | Ok (package_name, macro_name) =>
        Ok (named_call name ++ [package_name +:+ "." +:+ macro_name])
    | Raise e => Raise e
    end in
  statically_parse_adapter_dispatch
    (Call node [Const name] [("packages", List (map Const pkgs))] dyn_args dyn_kwargs)
    ctx (Some resolver)
    = resolved (match pkgs with [] => None | _ => Some pkgs end) /\
  statically_parse_adapter_dispatch
    (Call node [Const name] [] dyn_args dyn_kwargs) ctx (Some resolver)
    = resolved None.
Proof.
  split; simpl.
  - rewrite item_values_consts. simpl.
    destruct pkgs; destruct (resolver _ _) as [[p m]|e]; reflexivity.
  - destruct (resolver _ _) as [[p m]|e]; reflexivity.
Qed.

Lemma dispatch_kwargs_keyword_wins kwargs :
  has_kwarg "packages" kwargs = true ->
  forall func_name calls a a',
    dispatch_kwargs kwargs func_name calls a = dispatch_kwargs kwargs func_name calls a'.
Proof.
  induction kwargs as [|[key value] rest IH]; simpl; [discriminate |].
  intros Hhas func_name calls a a'.
  destruct (String.eqb key "packages") eqn:Hk; [reflexivity |].
  simpl in Hhas.
  destruct (String.eqb key "macro_name"); [| apply IH; exact Hhas].
  destruct value; try reflexivity. apply IH. exact Hhas.
Qed.

(** X4: when the packages are given as keyword argument, what stands in
    the place of the second positional argument plays no part: the keyword
    wins. *)
Theorem dispatch_keyword_packages_win (node : expr) (name : string)
    (others others' : list expr) (kwargs : list (string * expr))
    (dyn_args dyn_kwargs : option expr) (ctx : gmap string ctx_entry)
    (db_wrapper : option DbWrapper) :
  has_kwarg "packages" kwargs = true ->
  statically_parse_adapter_dispatch
    (Call node (Const name :: others) kwargs dyn_args dyn_kwargs) ctx db_wrapper
  = statically_parse_adapter_dispatch
      (Call node (Const name :: others') kwargs dyn_args dyn_kwargs) ctx db_wrapper.
Proof.
  intros Hhas. simpl.
  rewrite (dispatch_kwargs_keyword_wins kwargs Hhas (Some name) _
             (match others with a :: _ => Some a | [] => None end)
             (match others' with a :: _ => Some a | [] => None end)).
  reflexivity.
Qed.

Lemma dispatch_keyword_packages_win_witness :
  statically_parse_adapter_dispatch
    (Call (Getattr (Name "adapter") "dispatch")
       [Const "current_timestamp"; List [Const "other"]]
       [("packages", List [Const "dbt_utils"])] None None) ∅ None
  = statically_parse_adapter_dispatch
      (Call (Getattr (Name "adapter") "dispatch")
         [Const "current_timestamp"]
         [("packages", List [Const "dbt_utils"])] None None) ∅ None.
Proof.
  apply (dispatch_keyword_packages_win (Getattr (Name "adapter") "dispatch")
           "current_timestamp" [List [Const "other"]] []
           [("packages", List [Const "dbt_utils"])] None None ∅ None).
  reflexivity.
Defined.

Lemma dispatch_kwargs_macro_name_raises kwargs value :
  ("macro_name", value) ∈ kwargs -> is_Const value = false ->
  forall func_name calls packages_arg,
    dispatch_kwargs kwargs func_name calls packages_arg = Raise (AttributeError "value").
Proof.
  intros Hin Hv. induction kwargs as [|[key v] rest IH]; [inversion Hin |].
  intros func_name calls packages_arg. simpl.
  apply elem_of_cons in Hin as [Heq | Hin].
  - injection Heq as <- <-. simpl. destruct value; try reflexivity. discriminate.
  - destruct (String.eqb key "packages"); [apply IH; exact Hin |].
    destruct (String.eqb key "macro_name"); [| apply IH; exact Hin].
    destruct v; try reflexivity. apply IH. exact Hin.
Qed.

(** X5: a [macro_name] keyword argument that is not a literal stops the
    dispatch with the [AttributeError] of reading [value] on it, which the
    message of the intended compiler error does, whatever the other
    arguments, the context and the resolver are. *)
Theorem dispatch_macro_name_not_literal (node : expr) (args : list expr)
    (kwargs : list (string * expr)) (value : expr) (dyn_args dyn_kwargs : option expr)
    (ctx : gmap string ctx_entry) (db_wrapper : option DbWrapper) :
  ("macro_name", value) ∈ kwargs ->
  is_Const value = false ->
  statically_parse_adapter_dispatch (Call node args kwargs dyn_args dyn_kwargs) ctx db_wrapper
    = Raise (AttributeError "value").
Proof.
  intros Hin Hv. simpl.
  destruct args as [|[] rest]; try reflexivity; simpl;
    rewrite (dispatch_kwargs_macro_name_raises kwargs value Hin Hv); reflexivity.
Qed.

Lemma dispatch_macro_name_not_literal_witness :
  statically_parse_adapter_dispatch
    (adapter_dispatch [Const "foo"] [("macro_name", Name "which_macro")]) ∅ None
    = Raise (AttributeError "value").
Proof.
  apply (dispatch_macro_name_not_literal (Getattr (Name "adapter") "dispatch") [Const "foo"]
           [("macro_name", Name "which_macro")] (Name "which_macro") None None ∅ None).
  - apply list_elem_of_singleton. reflexivity.
  - reflexivity.
Defined.

(** X6: when the packages of a dispatch are a call [ns.attr(...)] whose
    [attr] starts with [_get] and contains [namespaces], the candidates are
    the list that the variable [ns_dispatch_list] holds followed by [ns]
    itself, and [ns] alone when the context has no callable [var] or the
    lookup of the variable fails. *)
Theorem dispatch_namespace_packages (node : expr) (name ns attr : string)
    (args : list expr) (kwargs : list (string * expr)) (da dk dyn_args dyn_kwargs : option expr)
    (ctx : gmap string ctx_entry) :
  String.prefix "_get" attr && is_substring "namespaces" attr = true ->
  let result :=
    statically_parse_adapter_dispatch
      (Call node [Const name]
         [("packages", Call (Getattr (Name ns) attr) args kwargs da dk)]
         dyn_args dyn_kwargs) ctx None in
  (forall var l, ctx !! "var" = Some (CtxCallable var) ->
     var (ns +:+ "_dispatch_list") = Some l ->
     result = Ok (named_call name ++ map (fun p => p +:+ "." +:+ name) (l ++ [ns]))) /\
  ((forall var, ctx !! "var" = Some (CtxCallable var) ->
      var (ns +:+ "_dispatch_list") = None) ->
   result = Ok (named_call name ++ [ns +:+ "." +:+ name])).
Proof.
  intros Hpat result. subst result. simpl. rewrite Hpat. simpl. unfold get_dispatch_list.
  split.
  - intros var l Hvar Hl. rewrite Hvar, Hl.
    destruct l; reflexivity.
  - intros Hfail. destruct (ctx !! "var") as [[var | b] |] eqn:Hvar; try reflexivity.
    rewrite (Hfail var eq_refl). reflexivity.
Qed.

Lemma dispatch_namespace_packages_witness :
  statically_parse_adapter_dispatch
    (adapter_dispatch [Const "test_pkg_and_dispatch"]
       [("packages",
         Call (Getattr (Name "local_utils") "_get_utils_namespaces") [] [] None None)])
    {["var" := CtxCallable (fun v =>
        if String.eqb v "local_utils_dispatch_list" then Some ["local_utils"] else None)]}
    None
  = Ok ["test_pkg_and_dispatch"; "local_utils.test_pkg_and_dispatch";
        "local_utils.test_pkg_and_dispatch"].
Proof.
  refine (proj1 (dispatch_namespace_packages (Getattr (Name "adapter") "dispatch")
            "test_pkg_and_dispatch" "local_utils" "_get_utils_namespaces" [] [] None None
            None None _ _) _ ["local_utils"] _ _); reflexivity.
Defined.

Lemma calls_in_consts l : flat_map calls_in (map Const l) = [].
Proof. induction l as [|x l IH]; simpl; [reflexivity | exact IH]. Qed.

(** X29: when the packages of a dispatch are the sum [var(v) + [...]] of a
    variable and a literal list, the candidates are the list the variable
    holds followed by the literal list, and the literal list alone when
    the context has no callable [var] or the lookup of the variable fails;
    a sum of two literal lists, which calls no [var], gives no package at
    all. *)
Theorem dispatch_var_packages (node : expr) (name v : string) (defaults others : list string)
    (dyn_args dyn_kwargs : option expr) (ctx : gmap string ctx_entry) :
  truthy_str (Some v) = true ->
  let dispatch packages :=
    statically_parse_adapter_dispatch
      (Call node [Const name] [("packages", packages)] dyn_args dyn_kwargs) ctx None in
  let sum := Add (Call (Name "var") [Const v] [] None None) (List (map Const defaults)) in
  (forall var l, ctx !! "var" = Some (CtxCallable var) ->
     var v = Some l ->
     dispatch sum = Ok (named_call name ++ map (fun p => p +:+ "." +:+ name) (l ++ defaults))) /\
  ((forall var, ctx !! "var" = Some (CtxCallable var) -> var v = None) ->
   dispatch sum = Ok (named_call name ++ map (fun p => p +:+ "." +:+ name) defaults)) /\
  dispatch (Add (List (map Const others)) (List (map Const defaults))) = Ok (named_call name).
Proof.
  intros Hv dispatch sum. subst dispatch sum. cbv beta.
  assert (Hvar : dispatch_var_calls
            (find_all_Call
               (Add (Call (Name "var") [Const v] [] None None) (List (map Const defaults))))
            None = Ok (Some v)).
  { simpl. rewrite calls_in_consts. reflexivity. }
  assert (Hnone : dispatch_var_calls
            (find_all_Call (Add (List (map Const others)) (List (map Const defaults))))
            None = Ok None).
  { simpl. rewrite !calls_in_consts. reflexivity. }
  unfold statically_parse_adapter_dispatch. cbn [res_bind dispatch_kwargs String.eqb Ascii.eqb
    Bool.eqb].
  unfold dispatch_packages. rewrite Hvar, Hnone, item_values_consts. cbn [res_bind].
  rewrite Hv. cbn [str_of truthy_str]. unfold get_dispatch_list, named_call.
  split; [| split].
  - intros var l Hc Hl. rewrite Hc, Hl.
    destruct (l ++ defaults) eqn:Hsum; [| reflexivity].
    apply app_eq_nil in Hsum as [_ ->]. reflexivity.
  - intros Hfail. destruct (ctx !! "var") as [[var | b] |] eqn:Hc; try reflexivity.
    rewrite (Hfail var eq_refl). reflexivity.
  - simpl. rewrite app_nil_r. reflexivity.
Qed.

Lemma dispatch_var_packages_witness :
  statically_parse_adapter_dispatch
    (adapter_dispatch [Const "my_macro"]
       [("packages",
         Add (Call (Name "var") [Const "my_dispatch_list"] [] None None)
             (List [Const "fallback"]))])
    {["var" := CtxCallable (fun v =>
        if String.eqb v "my_dispatch_list" then Some ["first"] else None)]}
    None
  = Ok ["my_macro"; "first.my_macro"; "fallback.my_macro"].
Proof.
  refine (proj1 (dispatch_var_packages (Getattr (Name "adapter") "dispatch")
            "my_macro" "my_dispatch_list" ["fallback"] [] None None _ _) _ ["first"] _ _);
    reflexivity.
Defined.

End JinjaStaticMore.

(** ** The diff of the saved manifest *)

Section PartialFacts.
Import Partial PartialSpec.
Context {V : Type} `{EqDecision V}.
Variable parse_file_type_to_parser : ParseFileType -> option string.

Abbreviation State := (@PartialParsing V) (only parsing).

Lemma is_nil_true {A} (l : list A) : is_nil l = true <-> l = [].
Proof. destruct l; simpl; split; congruence. Qed.

(** C1: [skip_parsing] holds exactly when the five buckets of changes are
    empty, and [get_parsing_files] then returns the empty schedule and
    leaves the whole state, the saved manifest with its six mappings
    included, as it was. *)
Theorem skip_parsing_reuses_manifest (st : State) :
  (skip_parsing st = true <-> no_changes (file_diff st)) /\
  (skip_parsing st = true ->
     get_parsing_files parse_file_type_to_parser st = (Ok ∅, st)).
Proof.
  split.
  - unfold skip_parsing, no_changes.
    rewrite !andb_true_iff, !is_nil_true, bool_decide_eq_true. tauto.
  - intros Hskip. unfold get_parsing_files, bind, get. rewrite Hskip. reflexivity.
Qed.

(** *** Reasoning about the methods *)

Lemma bind_ok {A B} (m : @M V A) (k : A -> @M V B) st a st' :
  m st = (Ok a, st') -> bind m k st = k a st'.
Proof. unfold bind. intros ->. reflexivity. Qed.

Lemma bind_raise {A B} (m : @M V A) (k : A -> @M V B) st e st' :
  m st = (Raise e, st') -> bind m k st = (Raise e, st').
Proof. unfold bind. intros ->. reflexivity. Qed.

Lemma bind_ret {A B} (a : A) (k : A -> @M V B) st : bind (ret a) k st = k a st.
Proof. reflexivity. Qed.

Lemma bind_get {B} (k : State -> @M V B) st : bind get k st = k st st.
Proof. reflexivity. Qed.

Lemma bind_assoc {A B C} (m : @M V A) (k1 : A -> @M V B) (k2 : B -> @M V C) st :
  bind (bind m k1) k2 st = bind m (fun a => bind (k1 a) k2) st.
Proof. unfold bind. destruct (m st) as [[a|e] st1]; reflexivity. Qed.

Lemma for_each_app {A} (l1 l2 : list A) (body : A -> @M V unit) st :
  for_each (l1 ++ l2) body st =
  match for_each l1 body st with
  | (Ok _, st1) => for_each l2 body st1
  | (Raise e, st1) => (Raise e, st1)
  end.
Proof.
  revert st. induction l1 as [|x l1 IH]; intros st; simpl; [reflexivity |].
  unfold bind. destruct (body x st) as [[[]|e] st1]; [apply IH | reflexivity].
Qed.

Create HintDb frame_db.

Section Frame.
(** A property of the state that only [add_to_pp_files] can touch: it
    reads neither the manifests nor the file objects. *)
Variable P : State -> Prop.
Hypothesis P_saved : forall f st, P st -> P (set_saved f st).
Hypothesis P_deleted : forall f st, P st -> P (set_deleted f st).
Hypothesis P_heap : forall f st, P st -> P (set_heap f st).
Hypothesis P_add_to_pp_files :
  forall r, preserves P (add_to_pp_files parse_file_type_to_parser r).

Lemma preserves_ret {A} (a : A) : preserves P (ret a).
Proof. intros st HP. exact HP. Qed.

Lemma preserves_raise {A} e : preserves P (@raise V A e).
Proof. intros st HP. exact HP. Qed.

Lemma preserves_get : preserves P get.
Proof. intros st HP. exact HP. Qed.

Lemma preserves_lift {A} (r : Res A) : preserves P (lift r).
Proof. intros st HP. exact HP. Qed.

Lemma preserves_bind {A B} (m : @M V A) (k : A -> @M V B) :
  preserves P m -> (forall a, preserves P (k a)) -> preserves P (bind m k).
Proof.
  intros Hm Hk st HP. unfold bind. specialize (Hm st HP).
  destruct (m st) as [[a|e] st1]; simpl in *; [apply Hk; exact Hm | exact Hm].
Qed.

Lemma preserves_for_each {A} (l : list A) (body : A -> @M V unit) :
  (forall x, preserves P (body x)) -> preserves P (for_each l body).
Proof.
  intros Hbody. induction l as [|x l IH]; simpl.
  - apply preserves_ret.
  - apply preserves_bind; [apply Hbody | intros _; exact IH].
Qed.

Lemma preserves_dict_get {A} (d : gmap string A) key : preserves P (dict_get d key).
Proof. unfold dict_get. destruct (d !! key); [apply preserves_ret | apply preserves_raise]. Qed.

Lemma preserves_read_file r : preserves P (read_file r).
Proof.
  unfold read_file. apply preserves_bind; [apply preserves_get |].
  intros st. destruct (heap st !! r); [apply preserves_ret | apply preserves_raise].
Qed.

Lemma preserves_write_file r f : preserves P (write_file r f).
Proof. intros st HP. apply P_heap. exact HP. Qed.

Lemma preserves_modify_saved f : preserves P (modify (set_saved f)).
Proof. intros st HP. apply P_saved. exact HP. Qed.

Lemma preserves_modify_deleted f : preserves P (modify (set_deleted f)).
Proof. intros st HP. apply P_deleted. exact HP. Qed.

Ltac frame_step :=
  match goal with
  | |- preserves _ (bind _ _) => apply preserves_bind; [| intros ?]
  | |- preserves _ (ret _) => apply preserves_ret
  | |- preserves _ (raise _) => apply preserves_raise
  | |- preserves _ get => apply preserves_get
  | |- preserves _ (lift _) => apply preserves_lift
  | |- preserves _ (dict_get _ _) => apply preserves_dict_get
  | |- preserves _ (elem_name _) => apply preserves_dict_get
  | |- preserves _ (read_file _) => apply preserves_read_file
  | |- preserves _ (write_file _ _) => apply preserves_write_file
  | |- preserves _ (modify (set_saved _)) => apply preserves_modify_saved
  | |- preserves _ (modify (set_deleted _)) => apply preserves_modify_deleted
  | |- preserves _ (add_to_pp_files _ _) => apply P_add_to_pp_files
  | |- preserves _ (for_each _ _) => apply preserves_for_each; intros ?; cbv beta
  | |- preserves _ (match ?x with _ => _ end) => destruct x
  | |- preserves _ (let (_, _) := ?x in _) => destruct x
  end.
Ltac frame := repeat (frame_step || solve [auto with frame_db]).

Lemma preserves_move_node uid : preserves P (move_node uid).
Proof. unfold move_node. frame. Qed.

Lemma preserves_move_macro uid : preserves P (move_macro uid).
Proof. unfold move_macro. frame. Qed.

Lemma preserves_move_doc uid : preserves P (move_doc uid).
Proof. unfold move_doc. frame. Qed.

Lemma preserves_move_file fid : preserves P (move_file fid).
Proof. unfold move_file. frame. Qed.

Lemma preserves_patch_found elems patch found : preserves P (patch_found elems patch found).
Proof. revert found. induction elems; intros found; simpl; frame. Qed.

Lemma preserves_pending_patches r : preserves P (pending_patches r).
Proof. unfold pending_patches, seed_pp_dict. frame. Qed.

Lemma preserves_merge_patch r key patch : preserves P (merge_patch r key patch).
Proof.
  unfold merge_patch. frame;
    first [apply preserves_pending_patches | apply preserves_patch_found].
Qed.

Lemma preserves_build_test_index ids index : preserves P (build_test_index ids index).
Proof. revert index. induction ids; intros index; simpl; frame. Qed.

Lemma preserves_get_tests_for r name : preserves P (get_tests_for r name).
Proof. unfold get_tests_for. frame; apply preserves_build_test_index. Qed.

Lemma preserves_find_node_patch prefix ids elem : preserves P (find_node_patch prefix ids elem).
Proof. induction ids; simpl; frame. Qed.

Lemma preserves_remove_from r g s uid : preserves P (remove_from r g s uid).
Proof. unfold remove_from. frame. Qed.

Lemma preserves_delete_schema_mssa_links r key elem :
  preserves P (delete_schema_mssa_links parse_file_type_to_parser r key elem).
Proof.
  unfold delete_schema_mssa_links. frame;
    first [ apply preserves_find_node_patch | apply preserves_move_node
          | apply preserves_remove_from | apply preserves_get_tests_for ].
Qed.

#[local] Hint Resolve preserves_move_node preserves_move_macro preserves_move_doc
  preserves_move_file preserves_patch_found preserves_merge_patch
  preserves_build_test_index preserves_get_tests_for preserves_find_node_patch
  preserves_remove_from preserves_delete_schema_mssa_links : frame_db.

Lemma preserves_find_elem_patch elems name found :
  preserves P (find_elem_patch elems name found).
Proof. revert found. induction elems; intros found; simpl; frame. Qed.

Lemma preserves_section_get d key : preserves P (section_get d key).
Proof. unfold section_get. frame. Qed.

#[local] Hint Resolve preserves_find_elem_patch preserves_section_get : frame_db.

Lemma preserves_delete_node_in_saved r uid :
  preserves P (delete_node_in_saved parse_file_type_to_parser r uid).
Proof. unfold delete_node_in_saved. frame. Qed.

#[local] Hint Resolve preserves_delete_node_in_saved : frame_db.

Lemma preserves_update_mssat_in_saved rn ro :
  preserves P (update_mssat_in_saved parse_file_type_to_parser rn ro).
Proof. unfold update_mssat_in_saved. frame. Qed.

Lemma preserves_schedule_dependent uid fid deps :
  preserves P (schedule_dependent parse_file_type_to_parser uid fid deps).
Proof. unfold schedule_dependent. frame. Qed.

#[local] Hint Resolve preserves_update_mssat_in_saved preserves_schedule_dependent : frame_db.

Lemma preserves_handle_macro_file_links r :
  preserves P (handle_macro_file_links parse_file_type_to_parser r).
Proof. unfold handle_macro_file_links. frame. Qed.

#[local] Hint Resolve preserves_handle_macro_file_links : frame_db.

Lemma preserves_update_macro_in_saved rn ro :
  preserves P (update_macro_in_saved parse_file_type_to_parser rn ro).
Proof. unfold update_macro_in_saved. frame. Qed.

Lemma preserves_update_doc_in_saved rn ro :
  preserves P (update_doc_in_saved parse_file_type_to_parser rn ro).
Proof. unfold update_doc_in_saved. frame. Qed.

Lemma preserves_delete_mssat_file r :
  preserves P (delete_mssat_file parse_file_type_to_parser r).
Proof. unfold delete_mssat_file. frame. Qed.

Lemma preserves_delete_macro_file r :
  preserves P (delete_macro_file parse_file_type_to_parser r).
Proof. unfold delete_macro_file. frame. Qed.

Lemma preserves_delete_doc_file r : preserves P (delete_doc_file r).
Proof. unfold delete_doc_file. frame. Qed.

#[local] Hint Resolve preserves_update_macro_in_saved preserves_update_doc_in_saved
  preserves_delete_mssat_file preserves_delete_macro_file preserves_delete_doc_file
  : frame_db.

Lemma preserves_delete_from_saved fid :
  preserves P (delete_from_saved parse_file_type_to_parser fid).
Proof. unfold delete_from_saved. frame. Qed.

Lemma preserves_update_in_saved fid :
  preserves P (update_in_saved parse_file_type_to_parser fid).
Proof. unfold update_in_saved. frame. Qed.

Lemma preserves_delete_schema_source r d : preserves P (delete_schema_source r d).
Proof. unfold delete_schema_source. frame. Qed.

Lemma preserves_find_macro_patch ids macro : preserves P (find_macro_patch ids macro).
Proof. induction ids; simpl; frame. Qed.

#[local] Hint Resolve preserves_delete_from_saved preserves_update_in_saved
  preserves_delete_schema_source preserves_find_macro_patch : frame_db.

Lemma preserves_delete_schema_macro_patch r macro :
  preserves P (delete_schema_macro_patch parse_file_type_to_parser r macro).
Proof. unfold delete_schema_macro_patch. frame. Qed.

Lemma preserves_delete_schema_exposure r d : preserves P (delete_schema_exposure r d).
Proof. unfold delete_schema_exposure. frame. Qed.

#[local] Hint Resolve preserves_delete_schema_macro_patch preserves_delete_schema_exposure
  : frame_db.

Lemma preserves_handle_mssa_section r sd nd key elem :
  preserves P (handle_mssa_section parse_file_type_to_parser r sd nd key elem).
Proof. unfold handle_mssa_section. frame. Qed.

#[local] Hint Resolve preserves_handle_mssa_section : frame_db.

Lemma preserves_handle_mssa_sections r sd nd keys elem :
  preserves P (handle_mssa_sections parse_file_type_to_parser r sd nd keys elem).
Proof. revert elem. induction keys; intros elem; simpl; frame. Qed.

Lemma preserves_reject_override what r source : preserves P (reject_override what r source).
Proof. unfold reject_override. frame. Qed.

#[local] Hint Resolve preserves_handle_mssa_sections preserves_reject_override : frame_db.

Lemma preserves_handle_sources r sd nd : preserves P (handle_sources r sd nd).
Proof. unfold handle_sources, changed_source, deleted_source, added_source. frame. Qed.

Lemma preserves_handle_macros r sd nd elem :
  preserves P (handle_macros parse_file_type_to_parser r sd nd elem).
Proof. unfold handle_macros. frame. Qed.

Lemma preserves_handle_exposures r sd nd : preserves P (handle_exposures r sd nd).
Proof. unfold handle_exposures. frame. Qed.

#[local] Hint Resolve preserves_handle_sources preserves_handle_macros
  preserves_handle_exposures : frame_db.

Lemma preserves_handle_schema_file_changes r sd nd :
  preserves P (handle_schema_file_changes parse_file_type_to_parser r sd nd).
Proof. unfold handle_schema_file_changes. frame. Qed.

#[local] Hint Resolve preserves_handle_schema_file_changes : frame_db.

Lemma preserves_change_schema_file fid :
  preserves P (change_schema_file parse_file_type_to_parser fid).
Proof. unfold change_schema_file. frame. Qed.

Lemma preserves_delete_schema_file fid :
  preserves P (delete_schema_file parse_file_type_to_parser fid).
Proof. unfold delete_schema_file. frame. Qed.

Lemma preserves_add_to_saved fid :
  preserves P (add_to_saved parse_file_type_to_parser fid).
Proof. unfold add_to_saved. frame. Qed.

#[local] Hint Resolve preserves_change_schema_file preserves_delete_schema_file
  preserves_add_to_saved : frame_db.

Lemma preserves_get_parsing_files :
  preserves P (get_parsing_files parse_file_type_to_parser).
Proof. unfold get_parsing_files. frame. Qed.

End Frame.

(** The steps of a method keep a property that the writes of the method
    do not read. *)
Ltac keep_step :=
  match goal with
  | |- preserves _ (bind _ _) => apply preserves_bind; [| intros ?]
  | |- preserves _ (ret _) => apply preserves_ret
  | |- preserves _ (raise _) => apply preserves_raise
  | |- preserves _ get => apply preserves_get
  | |- preserves _ (lift _) => apply preserves_lift
  | |- preserves _ (dict_get _ _) => apply preserves_dict_get
  | |- preserves _ (elem_name _) => apply preserves_dict_get
  | |- preserves _ (read_file _) => apply preserves_read_file
  | |- preserves _ (for_each _ _) => apply preserves_for_each; intros ?; cbv beta
  | |- preserves _ (modify _) => let st := fresh "st" in let HP := fresh "HP" in
                                 intros st HP; exact HP
  | |- preserves _ (match ?x with _ => _ end) => destruct x
  end.
Ltac keep := repeat keep_step.

(** *** Macro files *)

Lemma for_each_skip {A} (l : list A) (body : A -> @M V unit) (st : State) :
  (forall x, body x st = (Ok tt, st)) -> for_each l body st = (Ok tt, st).
Proof.
  intros Hbody. induction l as [|x l IH]; simpl; [reflexivity |].
  rewrite (bind_ok _ _ _ _ _ (Hbody x)). exact IH.
Qed.

(** Once the macro is popped, the test [macro_unique_id in
    self.saved_manifest.macros] fails for it: nothing is scheduled. *)
Lemma schedule_dependent_skips unique_id dep_file_id depends_on (st : State) :
  unique_id ∉ dom (macros (saved_manifest st)) ->
  schedule_dependent parse_file_type_to_parser unique_id dep_file_id depends_on st
    = (Ok tt, st).
Proof.
  intros Hgone. unfold schedule_dependent. apply for_each_skip. intros macro_unique_id.
  rewrite (bind_ok get _ st st st eq_refl).
  destruct (String.eqb macro_unique_id unique_id) eqn:Heq; [| reflexivity].
  apply String.eqb_eq in Heq. subst macro_unique_id.
  rewrite (bool_decide_eq_false_2 _ Hgone). reflexivity.
Qed.

Lemma move_macro_result unique_id (st : State) :
  (exists e, move_macro unique_id st = (Raise e, st)) \/
  (exists macro,
     macros (saved_manifest st) !! unique_id = Some macro /\
     move_macro unique_id st =
       (Ok macro, set_deleted (set_macros (insert unique_id macro))
                    (set_saved (set_macros (delete unique_id)) st))).
Proof.
  unfold move_macro. rewrite (bind_ok get _ st st st eq_refl). unfold dict_get.
  destruct (macros (saved_manifest st) !! unique_id) as [macro|] eqn:Hm.
  - right. exists macro. split; reflexivity.
  - left. eexists. reflexivity.
Qed.

(** [handle_macro_file_links] never writes the schedule. *)
Lemma handle_macro_file_links_schedules_nothing r ppf :
  preserves (fun st : State => project_parser_files st = ppf)
    (handle_macro_file_links parse_file_type_to_parser r).
Proof.
  unfold handle_macro_file_links.
  apply preserves_bind; [apply preserves_read_file | intros sf].
  apply preserves_for_each. intros x st HP.
  destruct (move_macro_result x st) as [[e He] | (macro & Hm & He)].
  - rewrite (bind_raise _ _ _ _ _ He). exact HP.
  - rewrite (bind_ok _ _ _ _ _ He).
    set (st1 := set_deleted _ _).
    assert (Hgone : x ∉ dom (macros (saved_manifest st1))).
    { subst st1. simpl. intros Hin. apply elem_of_dom in Hin as [m' Hm'].
      rewrite lookup_delete_eq in Hm'. discriminate. }
    rewrite (bind_ok get _ st1 st1 st1 eq_refl).
    rewrite (bind_ok _ _ st1 tt st1).
    2:{ apply for_each_skip. intros [k macro']. apply schedule_dependent_skips. exact Hgone. }
    rewrite (bind_ok get _ st1 st1 st1 eq_refl).
    rewrite for_each_skip.
    2:{ intros [k node']. apply schedule_dependent_skips. exact Hgone. }
    exact HP.
Qed.

(** *** Sources of a schema file *)

(** [delete_schema_source] never removes a source from the saved
    manifest: what it pops, it pops from the exposures. *)
Lemma delete_schema_source_keeps_sources r source_dict saved_sources :
  preserves (fun st : State => sources (saved_manifest st) = saved_sources)
    (delete_schema_source r source_dict).
Proof. unfold delete_schema_source. keep. Qed.

(** *** Source overrides *)

Lemma reject_override_raises what r source (st : State) sf :
  "override" ∈ dom source -> heap st !! r = Some sf ->
  reject_override what r source st
    = (Raise (Exception (source_override_msg what (file_id sf))), st).
Proof.
  intros Hov Hsf. unfold reject_override. rewrite (bool_decide_eq_true_2 _ Hov).
  unfold bind, read_file, bind, get. simpl. rewrite Hsf. reflexivity.
Qed.

Lemma reject_override_never_returns what r source (st : State) :
  "override" ∈ dom source ->
  exists e, reject_override what r source st = (Raise e, st).
Proof.
  intros Hov. unfold reject_override. rewrite (bool_decide_eq_true_2 _ Hov).
  unfold bind, read_file, bind, get. simpl.
  destruct (heap st !! r); eexists; reflexivity.
Qed.

Lemma for_each_returns_each {A} (l : list A) (body : A -> @M V unit) (st st' : State) x :
  for_each l body st = (Ok tt, st') -> x ∈ l ->
  exists s s', body x s = (Ok tt, s').
Proof.
  revert st. induction l as [|y l IH]; intros st Hrun Hx; [inversion Hx |].
  simpl in Hrun. unfold bind in Hrun.
  destruct (body y st) as [[[]|e] st1] eqn:Hy; [| discriminate].
  apply elem_of_cons in Hx as [-> | Hx]; [eauto | exact (IH st1 Hrun Hx)].
Qed.

Lemma for_each_stops_at {A} (pre post : list A) (body : A -> @M V unit) x e
    (st0 st : State) :
  for_each pre body st0 = (Ok tt, st) -> body x st = (Raise e, st) ->
  for_each (pre ++ x :: post) body st0 = (Raise e, st).
Proof.
  intros Hpre Hx. rewrite for_each_app, Hpre. simpl.
  rewrite (bind_raise _ _ _ _ _ Hx). reflexivity.
Qed.

(** C6: a source of the diff that carries an [override] key stops the diff
    with the exception for source overrides as soon as its turn comes,
    in the state the sources before it left: nothing is unlinked or merged
    for it.  This holds for the changed, the deleted and the added sources,
    and with such a source among them the diff of the sources never
    completes. *)
Theorem source_override_rejected (r : ref) (sf : @SourceFile V)
    (source : gmap string (@yaml_value V)) (pre post : list (gmap string (@yaml_value V)))
    (st0 st : State) :
  "override" ∈ dom source ->
  heap st !! r = Some sf ->
  (for_each pre (changed_source r) st0 = (Ok tt, st) ->
   for_each (pre ++ source :: post) (changed_source r) st0
     = (Raise (Exception (source_override_msg "changed" (file_id sf))), st)) /\
  (for_each pre (deleted_source r) st0 = (Ok tt, st) ->
   for_each (pre ++ source :: post) (deleted_source r) st0
     = (Raise (Exception (source_override_msg "deleted" (file_id sf))), st)) /\
  (for_each pre (added_source r) st0 = (Ok tt, st) ->
   for_each (pre ++ source :: post) (added_source r) st0
     = (Raise (Exception (source_override_msg "new" (file_id sf))), st)) /\
  (forall saved_yaml_dict new_yaml_dict d s s',
     get_diff_for "sources" saved_yaml_dict new_yaml_dict = Ok d ->
     source ∈ diff_changed d ++ diff_deleted d ++ diff_added d ->
     handle_sources r saved_yaml_dict new_yaml_dict s <> (Ok tt, s')).
Proof.
  intros Hov Hsf. repeat split.
  - intros Hpre. apply for_each_stops_at; [exact Hpre |].
    unfold changed_source. apply bind_raise. apply reject_override_raises; assumption.
  - intros Hpre. apply for_each_stops_at; [exact Hpre |].
    unfold deleted_source. apply bind_raise. apply reject_override_raises; assumption.
  - intros Hpre. apply for_each_stops_at; [exact Hpre |].
    unfold added_source. apply bind_raise. apply reject_override_raises; assumption.
  - intros sd nd d s s' Hd Hin Hrun.
    unfold handle_sources, lift in Hrun. unfold bind at 1 in Hrun. rewrite Hd in Hrun.
    unfold bind at 1 in Hrun.
    destruct (for_each (diff_changed d) (changed_source r) s) as [[[]|e] s1] eqn:H1;
      [| discriminate].
    unfold bind at 1 in Hrun.
    destruct (for_each (diff_deleted d) (deleted_source r) s1) as [[[]|e] s2] eqn:H2;
      [| discriminate].
    apply elem_of_app in Hin as [Hin | Hin]; [| apply elem_of_app in Hin as [Hin | Hin]].
    + destruct (for_each_returns_each _ _ _ _ _ H1 Hin) as (a & a' & Ha).
      destruct (reject_override_never_returns "changed" r source a Hov) as [e He].
      unfold changed_source in Ha. rewrite (bind_raise _ _ _ _ _ He) in Ha. discriminate.
    + destruct (for_each_returns_each _ _ _ _ _ H2 Hin) as (a & a' & Ha).
      destruct (reject_override_never_returns "deleted" r source a Hov) as [e He].
      unfold deleted_source in Ha. rewrite (bind_raise _ _ _ _ _ He) in Ha. discriminate.
    + destruct (for_each_returns_each _ _ _ _ _ Hrun Hin) as (a & a' & Ha).
      destruct (reject_override_never_returns "new" r source a Hov) as [e He].
      unfold added_source in Ha. rewrite (bind_raise _ _ _ _ _ He) in Ha. discriminate.
Qed.

(** *** The diff of a section *)

Abbreviation Element := (gmap string (@yaml_value V)) (only parsing).

Lemma find_app_first {A} (f : A -> bool) (l1 l2 : list A) :
  List.find f (l1 ++ l2) =
  match List.find f l1 with Some x => Some x | None => List.find f l2 end.
Proof. induction l1 as [|a l1 IH]; simpl; [reflexivity |]. destruct (f a); auto. Qed.

Lemma last_named_cons name (elem : Element) rest :
  last_named name (elem :: rest) =
  match last_named name rest with
  | Some e => Some e
  | None => if bool_decide (elem !! "name" = Some (YStr name)) then Some elem else None
  end.
Proof. unfold last_named. simpl. rewrite find_app_first. simpl. reflexivity. Qed.


(** The dictionary of the elements by name holds, under every name, the
    last element of the list with that name. *)
Lemma elements_by_name_last (elems : list Element) by_name :
  Forall string_named elems ->
  exists m, elements_by_name elems by_name = Ok m /\
    forall name, m !! name =
      match last_named name elems with Some e => Some e | None => by_name !! name end.
Proof.
  intros Hnamed. revert by_name.
  induction Hnamed as [|elem rest [k Hk] _ IH]; intros by_name.
  - exists by_name. split; reflexivity.
  - simpl. rewrite Hk. simpl.
    destruct (IH (<[k := elem]> by_name)) as (m & Hm & Hlook).
    exists m. split; [exact Hm |]. intros name.
    rewrite Hlook, last_named_cons.
    destruct (last_named name rest); [reflexivity |].
    rewrite Hk. destruct (decide (k = name)) as [-> | Hne].
    + rewrite lookup_insert_eq, bool_decide_eq_true_2; reflexivity.
    + rewrite lookup_insert_ne by exact Hne.
      rewrite bool_decide_eq_false_2; [reflexivity | congruence].
Qed.

(** C10: the diff of a section reads, under every name, the last element of
    the saved list and the last element of the new list with that name, and
    nothing else.  An element is deleted when it is the last of its name
    in the saved list and the name is not in the new list, added the other
    way round, and changed when it is the last of its name in the new list
    and differs from the last of that name in the saved list. *)
Theorem get_diff_for_last_wins (key : string)
    (saved_yaml_dict new_yaml_dict : gmap string (@yaml_entry V))
    (saved_elements new_elements : list Element) :
  section_or_empty saved_yaml_dict key = Ok saved_elements ->
  section_or_empty new_yaml_dict key = Ok new_elements ->
  Forall string_named saved_elements ->
  Forall string_named new_elements ->
  exists d, get_diff_for key saved_yaml_dict new_yaml_dict = Ok d /\
    (forall e, e ∈ diff_deleted d <->
       exists name, last_named name saved_elements = Some e /\
                    last_named name new_elements = None) /\
    (forall e, e ∈ diff_added d <->
       exists name, last_named name new_elements = Some e /\
                    last_named name saved_elements = None) /\
    (forall e, e ∈ diff_changed d <->
       exists name e0, last_named name new_elements = Some e /\
                       last_named name saved_elements = Some e0 /\ e0 <> e).
Proof.
  intros Hs Hn Hsn Hnn. unfold get_diff_for.
  destruct (bool_decide (key ∈ dom saved_yaml_dict) || bool_decide (key ∈ dom new_yaml_dict))
    eqn:Hkey.
  - rewrite Hs. simpl.
    destruct (elements_by_name_last saved_elements ∅ Hsn) as (sm & -> & Hsm). simpl.
    rewrite Hn. simpl.
    destruct (elements_by_name_last new_elements ∅ Hnn) as (nm & -> & Hnm). simpl.
    assert (Hsm' : forall name, sm !! name = last_named name saved_elements).
    { intros name. rewrite Hsm, lookup_empty. destruct (last_named _ _); reflexivity. }
    assert (Hnm' : forall name, nm !! name = last_named name new_elements).
    { intros name. rewrite Hnm, lookup_empty. destruct (last_named _ _); reflexivity. }
    eexists. split; [reflexivity |]. simpl. repeat split.
    + intros He. apply list_elem_of_omap in He as (name & Hin & He).
      apply elem_of_elements, elem_of_difference in Hin as [_ Hnot].
      exists name. rewrite <- Hsm', <- Hnm'. split; [exact He |].
      apply not_elem_of_dom. exact Hnot.
    + intros (name & He & Hnone). apply list_elem_of_omap. exists name.
      rewrite <- Hsm' in He. rewrite <- Hnm' in Hnone. split; [| exact He].
      apply elem_of_elements, elem_of_difference. split.
      * apply elem_of_dom. eauto.
      * apply not_elem_of_dom. exact Hnone.
    + intros He. apply list_elem_of_omap in He as (name & Hin & He).
      apply elem_of_elements, elem_of_difference in Hin as [_ Hnot].
      exists name. rewrite <- Hsm', <- Hnm'. split; [exact He |].
      apply not_elem_of_dom. exact Hnot.
    + intros (name & He & Hnone). apply list_elem_of_omap. exists name.
      rewrite <- Hnm' in He. rewrite <- Hsm' in Hnone. split; [| exact He].
      apply elem_of_elements, elem_of_difference. split.
      * apply elem_of_dom. eauto.
      * apply not_elem_of_dom. exact Hnone.
    + intros He. apply list_elem_of_omap in He as (name & Hin & He).
      apply list_elem_of_filter in Hin as [Hdiff Hin].
      apply elem_of_elements, elem_of_intersection in Hin as [Hin _].
      apply elem_of_dom in Hin as [e0 He0].
      exists name, e0. rewrite <- Hsm', <- Hnm'. repeat split; [exact He | exact He0 |].
      intros ->. apply Hdiff. rewrite He, He0. reflexivity.
    + intros (name & e0 & He & He0 & Hdiff). apply list_elem_of_omap. exists name.
      rewrite <- Hnm' in He. rewrite <- Hsm' in He0. split; [| exact He].
      apply list_elem_of_filter. split.
      * rewrite He, He0. congruence.
      * apply elem_of_elements, elem_of_intersection. split; apply elem_of_dom; eauto.
  - apply orb_false_iff in Hkey as [Hk1 Hk2].
    apply bool_decide_eq_false, not_elem_of_dom in Hk1.
    apply bool_decide_eq_false, not_elem_of_dom in Hk2.
    unfold section_or_empty in Hs, Hn. rewrite Hk1 in Hs. rewrite Hk2 in Hn.
    injection Hs as <-. injection Hn as <-.
    eexists. split; [reflexivity |]. simpl. unfold last_named. simpl.
    split; [| split]; intros e; (split; intros Hx; [inversion Hx |]).
    + destruct Hx as (? & ? & _). discriminate.
    + destruct Hx as (? & ? & _). discriminate.
    + destruct Hx as (? & ? & ? & _). discriminate.
Qed.

(** *** Pending patches *)

Lemma patch_found_result (elems : list Element) patch name found (st : State) :
  patch !! "name" = Some name ->
  (Forall (fun elem => is_Some (elem !! "name")) elems /\
   patch_found elems patch found st = (Ok (found || existsb (has_name name) elems), st)) \/
  (exists e, patch_found elems patch found st = (Raise e, st)).
Proof.
  intros Hp. revert found. induction elems as [|elem rest IH]; intros found; simpl.
  - left. split; [constructor |]. rewrite orb_false_r. reflexivity.
  - unfold elem_name, dict_get. unfold bind at 1.
    destruct (elem !! "name") as [n|] eqn:Hn; simpl; [| right; eexists; reflexivity].
    unfold bind at 1. rewrite Hp. simpl.
    destruct (IH (if decide (n = name) then true else found)) as [[Hall Hrun] | [e He]].
    + left. split; [constructor; [eauto | exact Hall] |]. rewrite Hrun. f_equal. f_equal.
      assert (Hh : has_name name elem = bool_decide (n = name)).
      { unfold has_name. rewrite Hn. apply bool_decide_ext. split; congruence. }
      rewrite Hh. destruct (decide (n = name)) as [Heq | Hne].
      * rewrite (bool_decide_eq_true_2 _ Heq). simpl. rewrite orb_true_r. reflexivity.
      * rewrite (bool_decide_eq_false_2 _ Hne). reflexivity.
    + right. exists e. exact He.
Qed.

Lemma existsb_has_name_filter name (elems : list Element) :
  existsb (has_name name) elems = false <->
  filter (fun elem : Element => elem !! "name" = Some name) elems = [].
Proof.
  induction elems as [|elem rest IH]; simpl; [tauto |].
  rewrite filter_cons. unfold has_name at 1.
  destruct (decide (elem !! "name" = Some name)) as [He | He].
  - rewrite (bool_decide_eq_true_2 _ He). simpl. split; discriminate.
  - rewrite (bool_decide_eq_false_2 _ He). simpl. exact IH.
Qed.

Lemma patch_found_named (elems : list Element) patch name found (st : State) :
  patch !! "name" = Some name ->
  Forall (fun elem => is_Some (elem !! "name")) elems ->
  patch_found elems patch found st = (Ok (found || existsb (has_name name) elems), st).
Proof.
  intros Hp Hall.
  destruct (patch_found_result elems patch name found st Hp) as [[_ Hrun] | [e He]];
    [exact Hrun |].
  exfalso. revert found e He. induction Hall as [|elem rest [n Hn] _ IH]; intros found e.
  - simpl. discriminate.
  - simpl. unfold elem_name, dict_get. unfold bind at 1. rewrite Hn.
    unfold bind at 1. rewrite Hp. apply IH.
Qed.

Lemma write_file_result r f (st : State) sf :
  heap st !! r = Some sf ->
  write_file r f st = (Ok tt, set_heap (insert r (f sf)) st).
Proof. intros Hsf. unfold write_file, modify, set_heap. rewrite Hsf. reflexivity. Qed.

Lemma read_file_result r (st : State) sf :
  heap st !! r = Some sf -> read_file r st = (Ok sf, st).
Proof. intros Hsf. unfold read_file, bind, get. rewrite Hsf. reflexivity. Qed.

(** The pending patches of a file after the first lines of [merge_patch]:
    the ones it had, or the version of the file alone. *)
Lemma pending_patches_result r (st : State) :
  (exists e st', pending_patches r st = (Raise e, st')) \/
  (exists sf pp st' sf',
     heap st !! r = Some sf /\ pending_patches r st = (Ok pp, st') /\
     heap st' !! r = Some sf' /\ pp_dict sf' = Some pp /\
     ((pp_dict sf = Some pp /\ pp <> ∅ /\ st' = st) \/
      ((pp_dict sf = None \/ pp_dict sf = Some ∅) /\
       exists v, dict_from_yaml sf !! "version" = Some v /\ pp = {["version" := v]}))).
Proof.
  unfold pending_patches.
  destruct (heap st !! r) as [sf|] eqn:Hsf.
  2:{ left. exists NoSuchObject, st. apply bind_raise. unfold read_file, bind, get.
      rewrite Hsf. reflexivity. }
  rewrite (bind_ok _ _ _ _ _ (read_file_result r st sf Hsf)).
  assert (Hseed : pp_dict sf = None \/ pp_dict sf = Some ∅ ->
    (exists e st', seed_pp_dict r sf st = (Raise e, st')) \/
    (exists pp st' sf',
       seed_pp_dict r sf st = (Ok pp, st') /\ heap st' !! r = Some sf' /\
       pp_dict sf' = Some pp /\
       exists v, dict_from_yaml sf !! "version" = Some v /\ pp = {["version" := v]})).
  { intros _. unfold seed_pp_dict, dict_get.
    destruct (dict_from_yaml sf !! "version") as [v|] eqn:Hv.
    - right. rewrite (bind_ok _ _ st v st eq_refl).
      rewrite (bind_ok _ _ _ _ _ (write_file_result r _ st sf Hsf)).
      eexists _, _, _. split; [reflexivity |]. split; [apply lookup_insert_eq |].
      split; [reflexivity |]. exists v. split; reflexivity.
    - left. eexists _, _. apply bind_raise. reflexivity. }
  destruct (pp_dict sf) as [d|] eqn:Hd.
  - destruct (decide (d = ∅)) as [-> | Hne].
    + destruct (Hseed (or_intror eq_refl)) as [Hl | (pp & st' & sf' & Hrun & H1 & H2 & H3)];
        [left; exact Hl |].
      right. exists sf, pp, st', sf'. repeat split; try assumption.
      right. split; [right; exact Hd | exact H3].
    + right. exists sf, d, st, sf. repeat split; try assumption.
      left. repeat split; assumption.
  - destruct (Hseed (or_introl eq_refl)) as [Hl | (pp & st' & sf' & Hrun & H1 & H2 & H3)];
      [left; exact Hl |].
    right. exists sf, pp, st', sf'. repeat split; try assumption.
    right. split; [left; exact Hd | exact H3].
Qed.

(** A call of [merge_patch] on a file whose pending patches hold an
    element of the name of the patch changes nothing. *)
Lemma merge_patch_again r key patch name (st : State) sf pp elems :
  patch !! "name" = Some name ->
  heap st !! r = Some sf -> pp_dict sf = Some pp -> pp !! key = Some (YElems elems) ->
  Forall (fun elem => is_Some (elem !! "name")) elems ->
  existsb (has_name name) elems = true ->
  merge_patch r key patch st = (Ok tt, st).
Proof.
  intros Hp Hsf Hpp Hkey Hall Hex. unfold merge_patch.
  assert (Hpend : pending_patches r st = (Ok pp, st)).
  { unfold pending_patches. rewrite (bind_ok _ _ _ _ _ (read_file_result r st sf Hsf)).
    rewrite Hpp. destruct (decide (pp = ∅)) as [-> | _]; [| reflexivity].
    rewrite lookup_empty in Hkey. discriminate. }
  rewrite (bind_ok _ _ _ _ _ Hpend), Hkey.
  rewrite (bind_ok _ _ _ _ _ (patch_found_named elems patch name false st Hp Hall)).
  rewrite Hex. reflexivity.
Qed.

Lemma queued_lookup r key name (st : State) sf pp elems :
  heap st !! r = Some sf -> pp_dict sf = Some pp -> pp !! key = Some (YElems elems) ->
  queued r key name st = filter (fun elem : Element => elem !! "name" = Some name) elems.
Proof. intros Hsf Hpp Hkey. unfold queued. rewrite Hsf, Hpp, Hkey. reflexivity. Qed.

(** What a call of [merge_patch] that returns leaves: the pending patches
    of the file hold, under the key, a list of named elements with exactly
    the elements of the name of the patch that they had, or the patch when
    they had none. *)
Lemma merge_patch_returns r key patch name (st st1 : State) :
  patch !! "name" = Some name -> key <> "version" ->
  merge_patch r key patch st = (Ok tt, st1) ->
  exists sf1 pp1 elems,
    heap st1 !! r = Some sf1 /\ pp_dict sf1 = Some pp1 /\
    pp1 !! key = Some (YElems elems) /\
    Forall (fun elem => is_Some (elem !! "name")) elems /\
    existsb (has_name name) elems = true /\
    (filter (fun elem : Element => elem !! "name" = Some name) elems = [patch] \/
     (st1 = st /\ queued r key name st <> [])).
Proof.
  intros Hp Hkv Hrun. unfold merge_patch in Hrun.
  destruct (pending_patches_result r st)
    as [(e & st' & He) | (sf & pp & st' & sf' & Hsf & Hpend & Hsf' & Hpp' & Horigin)].
  { rewrite (bind_raise _ _ _ _ _ He) in Hrun. discriminate. }
  rewrite (bind_ok _ _ _ _ _ Hpend) in Hrun.
  assert (Hpatch : has_name name patch = true)
    by (unfold has_name; apply bool_decide_eq_true_2; exact Hp).
  assert (Hfp : filter (fun elem : Element => elem !! "name" = Some name) [patch] = [patch]).
  { rewrite filter_cons, decide_True by exact Hp. reflexivity. }
  destruct (pp !! key) as [[elems | v] |] eqn:Hkey.
  - destruct (patch_found_result elems patch name false st' Hp) as [[Hall Hfound] | [e He]];
      [| rewrite (bind_raise _ _ _ _ _ He) in Hrun; discriminate].
    rewrite (bind_ok _ _ _ _ _ Hfound) in Hrun. simpl in Hrun.
    destruct (existsb (has_name name) elems) eqn:Hex.
    + injection Hrun as <-. exists sf', pp, elems. repeat split; try assumption.
      destruct Horigin as [(Hpp & _ & ->) | (_ & v & _ & ->)].
      * right. split; [reflexivity |].
        rewrite (queued_lookup r key name st sf pp elems Hsf Hpp Hkey).
        intros Hnil. apply existsb_has_name_filter in Hnil. congruence.
      * rewrite lookup_singleton_ne in Hkey by congruence. discriminate.
    + rewrite (write_file_result r _ st' sf' Hsf') in Hrun. injection Hrun as <-.
      eexists _, _, _. split; [apply lookup_insert_eq |]. split; [reflexivity |].
      split; [apply lookup_insert_eq |]. split.
      { apply Forall_app. split; [exact Hall | constructor; [eauto | constructor]]. }
      split.
      { rewrite existsb_app. simpl. rewrite Hpatch. rewrite orb_true_r. reflexivity. }
      left. rewrite filter_app, Hfp.
      apply existsb_has_name_filter in Hex. rewrite Hex. reflexivity.
  - discriminate.
  - rewrite (write_file_result r _ st' sf' Hsf') in Hrun. injection Hrun as <-.
    eexists _, _, _. split; [apply lookup_insert_eq |]. split; [reflexivity |].
    split; [apply lookup_insert_eq |]. split; [constructor; [eauto | constructor] |].
    split; [simpl; rewrite Hpatch; reflexivity |].
    left. exact Hfp.
Qed.

(** C8: a second call of [merge_patch] with the same file, key and
    element changes nothing, and when the pending patches held at most one
    element of that name under the key before, they hold exactly one after;
    on the first use, they are the version of the file and, under the key,
    that element alone. *)
Theorem merge_patch_idempotent (r : ref) (key : string) (patch : Element)
    (name : @yaml_value V) (st : State) :
  patch !! "name" = Some name ->
  key <> "version" ->
  (forall st1, merge_patch r key patch st = (Ok tt, st1) ->
     bind (merge_patch r key patch) (fun _ => merge_patch r key patch) st = (Ok tt, st1) /\
     (List.length (queued r key name st) <= 1 -> List.length (queued r key name st1) = 1)) /\
  (forall sf v, heap st !! r = Some sf ->
     pp_dict sf = None \/ pp_dict sf = Some ∅ ->
     dict_from_yaml sf !! "version" = Some v ->
     exists st1 sf1,
       bind (merge_patch r key patch) (fun _ => merge_patch r key patch) st = (Ok tt, st1) /\
       heap st1 !! r = Some sf1 /\
       pp_dict sf1 = Some (<[key := YElems [patch]]> {["version" := v]}) /\
       queued r key name st1 = [patch]).
Proof.
  intros Hp Hkv. split.
  - intros st1 Hrun.
    destruct (merge_patch_returns r key patch name st st1 Hp Hkv Hrun)
      as (sf1 & pp1 & elems & Hsf1 & Hpp1 & Hkey1 & Hall & Hex & Hq).
    split.
    + rewrite (bind_ok _ _ _ _ _ Hrun).
      exact (merge_patch_again r key patch name st1 sf1 pp1 elems Hp Hsf1 Hpp1 Hkey1 Hall Hex).
    + intros Hle. destruct Hq as [Hq | [-> Hq]].
      * rewrite (queued_lookup r key name st1 sf1 pp1 elems Hsf1 Hpp1 Hkey1), Hq.
        reflexivity.
      * destruct (queued r key name st) as [|e1 [|e2 l]]; simpl in *;
          [congruence | reflexivity | lia].
  - intros sf v Hsf Hfirst Hv.
    assert (Hpend : pending_patches r st =
              (Ok {["version" := v]},
               set_heap (insert r (set_pp_dict (Some {["version" := v]}) sf)) st)).
    { unfold pending_patches. rewrite (bind_ok _ _ _ _ _ (read_file_result r st sf Hsf)).
      assert (Hseed : seed_pp_dict r sf st =
        (Ok {["version" := v]},
         set_heap (insert r (set_pp_dict (Some {["version" := v]}) sf)) st)).
      { unfold seed_pp_dict, dict_get. rewrite Hv. rewrite (bind_ok _ _ st v st eq_refl).
        rewrite (bind_ok _ _ _ _ _ (write_file_result r _ st sf Hsf)). reflexivity. }
      destruct Hfirst as [-> | ->]; [exact Hseed |].
      rewrite decide_True by reflexivity. exact Hseed. }
    assert (Hrun : exists st1,
      merge_patch r key patch st = (Ok tt, st1) /\
      heap st1 !! r = Some (set_pp_dict (Some (<[key := YElems [patch]]> {["version" := v]}))
                              (set_pp_dict (Some {["version" := v]}) sf))).
    { unfold merge_patch. rewrite (bind_ok _ _ _ _ _ Hpend).
      rewrite lookup_singleton_ne by congruence.
      erewrite write_file_result by apply lookup_insert_eq.
      eexists. split; [reflexivity |]. apply lookup_insert_eq. }
    destruct Hrun as (st1 & Hrun & Hsf1).
    destruct (merge_patch_returns r key patch name st st1 Hp Hkv Hrun)
      as (sf1 & pp1 & elems & Hsf1' & Hpp1 & Hkey1 & Hall & Hex & _).
    exists st1, sf1. split; [| split; [exact Hsf1' |]].
    + rewrite (bind_ok _ _ _ _ _ Hrun).
      exact (merge_patch_again r key patch name st1 sf1 pp1 elems Hp Hsf1' Hpp1 Hkey1 Hall Hex).
    + rewrite Hsf1 in Hsf1'. injection Hsf1' as <-. split; [reflexivity |].
      unfold queued. rewrite Hsf1. simpl. rewrite lookup_insert_eq.
      rewrite filter_cons, decide_True by exact Hp. reflexivity.
Qed.

(** *** The schedule *)

Lemma well_scheduled_schedule_add project parser file_id deleted ppf :
  well_scheduled deleted ppf ->
  well_scheduled deleted (schedule_add project parser file_id deleted ppf).
Proof.
  intros Hok project' by_parser' parser' ids'. unfold schedule_add.
  set (by_parser := default ∅ (ppf !! project)).
  set (ids := default [] (by_parser !! parser)).
  assert (Hby : forall pa l, by_parser !! pa = Some l ->
                  NoDup l /\ forall f, f ∈ l -> f ∉ deleted).
  { intros pa l Hl. subst by_parser. destruct (ppf !! project) as [bp|] eqn:Hbp; simpl in Hl.
    - exact (Hok _ _ _ _ Hbp Hl).
    - rewrite lookup_empty in Hl. discriminate. }
  assert (Hids : NoDup ids /\ forall f, f ∈ ids -> f ∉ deleted).
  { subst ids. destruct (by_parser !! parser) as [l|] eqn:Hl; simpl.
    - exact (Hby _ _ Hl).
    - split; [constructor | intros f Hf; inversion Hf]. }
  intros Hp Hpa.
  apply lookup_insert_Some in Hp as [[<- <-] | [Hne Hp]]; [| exact (Hok _ _ _ _ Hp Hpa)].
  apply lookup_insert_Some in Hpa as [[<- <-] | [Hne Hpa]]; [| exact (Hby _ _ Hpa)].
  unfold str_in.
  destruct (bool_decide (file_id ∈ ids)) eqn:Hin; simpl; [exact Hids |].
  destruct (bool_decide (file_id ∈ deleted)) eqn:Hdel; simpl; [exact Hids |].
  apply bool_decide_eq_false in Hin, Hdel. destruct Hids as [Hnd Hnot]. split.
  - apply NoDup_app. split; [exact Hnd |]. split; [| apply NoDup_singleton].
    intros x Hx Hx'. apply list_elem_of_singleton in Hx'. subst x. exact (Hin Hx).
  - intros f Hf. apply elem_of_app in Hf as [Hf | Hf]; [exact (Hnot f Hf) |].
    apply list_elem_of_singleton in Hf. subst f. exact Hdel.
Qed.

Lemma add_to_pp_files_result r (st : State) :
  (exists e, add_to_pp_files parse_file_type_to_parser r st = (Raise e, st)) \/
  (exists (sf : @SourceFile V) parser_name,
     heap st !! r = Some sf /\
     parse_file_type_to_parser (parse_file_type sf) = Some parser_name /\
     parser_name <> "" /\ project_name sf <> "" /\
     add_to_pp_files parse_file_type_to_parser r st =
       (Ok tt, set_project_parser_files
                 (schedule_add (project_name sf) parser_name (file_id sf)
                    (deleted (file_diff st))) st)).
Proof.
  unfold add_to_pp_files, read_file, bind, get. simpl.
  destruct (heap st !! r) as [sf|] eqn:Hsf; simpl; [| left; eexists; reflexivity].
  destruct (parse_file_type_to_parser (parse_file_type sf)) as [pn|] eqn:Hpn;
    [| left; eexists; reflexivity].
  destruct (String.eqb pn "") eqn:E1; simpl; [left; eexists; reflexivity |].
  destruct (String.eqb (project_name sf) "") eqn:E2; simpl; [left; eexists; reflexivity |].
  right. exists sf, pn. apply String.eqb_neq in E1, E2. repeat split; assumption.
Qed.

Lemma add_to_pp_files_schedule_ok r :
  preserves (@schedule_ok V) (add_to_pp_files parse_file_type_to_parser r).
Proof.
  intros st Hok.
  destruct (add_to_pp_files_result r st) as [[e ->] | (sf & pn & _ & _ & _ & _ & ->)];
    [exact Hok |].
  apply well_scheduled_schedule_add. exact Hok.
Qed.

Lemma add_to_pp_files_file_diff r d :
  preserves (fun st : State => file_diff st = d) (add_to_pp_files parse_file_type_to_parser r).
Proof.
  intros st Hd.
  destruct (add_to_pp_files_result r st) as [[e ->] | (sf & pn & _ & _ & _ & _ & ->)];
    exact Hd.
Qed.

Lemma get_parsing_files_schedule_ok :
  preserves (@schedule_ok V) (get_parsing_files parse_file_type_to_parser).
Proof.
  apply preserves_get_parsing_files; try (intros; assumption).
  apply add_to_pp_files_schedule_ok.
Qed.

Lemma get_parsing_files_file_diff d :
  preserves (fun st : State => file_diff st = d) (get_parsing_files parse_file_type_to_parser).
Proof.
  apply preserves_get_parsing_files; try (intros; assumption).
  intros r. apply add_to_pp_files_file_diff.
Qed.

Lemma returns_state_bind {A B} (f : State -> B) (m : @M V A) (k : A -> @M V B) :
  (forall a st v, fst (k a st) = Ok v -> v = f (snd (k a st))) ->
  forall st v, fst (bind m k st) = Ok v -> v = f (snd (bind m k st)).
Proof.
  intros Hk st v. unfold bind. destruct (m st) as [[a|e] st1]; simpl;
    [apply Hk | discriminate].
Qed.

(** What [get_parsing_files] returns when it does not skip is the schedule
    of the state it ends in. *)
Lemma get_parsing_files_returns (st : State) ppf :
  fst (get_parsing_files parse_file_type_to_parser st) = Ok ppf ->
  ppf = ∅ \/ ppf = project_parser_files (snd (get_parsing_files parse_file_type_to_parser st)).
Proof.
  unfold get_parsing_files. rewrite (bind_ok get _ st st st eq_refl).
  destruct (skip_parsing st); [intros [= Heq]; left; symmetry; exact Heq |].
  revert ppf.
  match goal with
  | |- forall ppf, fst (?m st) = Ok ppf -> _ =>
      enough (Hg : forall st0 v, fst (m st0) = Ok v -> v = project_parser_files (snd (m st0)))
        by (intros ppf Hf; right; apply Hg; exact Hf)
  end.
  repeat (apply (returns_state_bind (@project_parser_files V)); intros _).
  intros st' v. unfold bind, get, ret. simpl. intros [= Heq]. symmetry. exact Heq.
Qed.

(** C7: [add_to_pp_files] keeps the invariant of the schedule, under every
    project and parser no file id twice and none of the [deleted] bucket,
    however often and in whatever order it is called; a whole run of
    [get_parsing_files] keeps the invariant and returns a schedule that
    has it; [add_to_pp_files] raises, leaving the schedule as it was, when
    the file has no parser or no project; and it is the only write path:
    what the writes to the manifests and to the file objects keep, and
    [add_to_pp_files] keeps, the whole run keeps. *)
Theorem add_to_pp_files_sole_writer :
  (forall r (st : State), schedule_ok st ->
     schedule_ok (snd (add_to_pp_files parse_file_type_to_parser r st))) /\
  (forall source_files (st : State), schedule_ok st ->
     schedule_ok (schedule_all parse_file_type_to_parser source_files st)) /\
  (forall st : State, schedule_ok st ->
     schedule_ok (snd (get_parsing_files parse_file_type_to_parser st)) /\
     forall ppf, fst (get_parsing_files parse_file_type_to_parser st) = Ok ppf ->
       well_scheduled (deleted (file_diff st)) ppf) /\
  (forall r (st : State) sf, heap st !! r = Some sf ->
     parse_file_type_to_parser (parse_file_type sf) = None \/
     parse_file_type_to_parser (parse_file_type sf) = Some "" \/
     project_name sf = "" ->
     exists e, add_to_pp_files parse_file_type_to_parser r st = (Raise e, st)) /\
  (forall P : State -> Prop,
     (forall f st, P st -> P (set_saved f st)) ->
     (forall f st, P st -> P (set_deleted f st)) ->
     (forall f st, P st -> P (set_heap f st)) ->
     (forall r, preserves P (add_to_pp_files parse_file_type_to_parser r)) ->
     preserves P (get_parsing_files parse_file_type_to_parser)).
Proof.
  split; [| split; [| split; [| split; [| exact preserves_get_parsing_files]]]].
  - intros r st. apply add_to_pp_files_schedule_ok.
  - intros source_files. induction source_files as [|r rest IH]; intros st Hok; simpl.
    + exact Hok.
    + apply IH. apply add_to_pp_files_schedule_ok. exact Hok.
  - intros st Hok. split; [apply get_parsing_files_schedule_ok; exact Hok |].
    intros ppf Hret. destruct (get_parsing_files_returns st ppf Hret) as [-> | ->].
    + intros project by_parser parser ids Hp. rewrite lookup_empty in Hp. discriminate.
    + pose proof (get_parsing_files_schedule_ok st Hok) as Hfin.
      pose proof (get_parsing_files_file_diff (file_diff st) st eq_refl) as Hd.
      simpl in Hd. unfold schedule_ok in Hfin. rewrite Hd in Hfin. exact Hfin.
  - intros r st sf Hsf Hbad.
    destruct (add_to_pp_files_result r st) as [He | (sf' & pn & Hsf' & Hpn & Hne & Hpr & _)];
      [exact He |].
    rewrite Hsf in Hsf'. injection Hsf' as <-.
    destruct Hbad as [Hb | [Hb | Hb]]; congruence.
Qed.

(** *** Unlinking an element of a section *)

Lemma list_remove_in x l : x ∈ l -> exists l', list_remove x l = Ok l'.
Proof.
  induction l as [|a l IH]; intros Hx; [inversion Hx |]. simpl.
  destruct (String.eqb a x) eqn:E; [eauto |].
  apply elem_of_cons in Hx as [-> | Hx].
  - rewrite String.eqb_refl in E. discriminate.
  - destruct (IH Hx) as [l' ->]. simpl. eauto.
Qed.

Lemma list_remove_other x y l l' :
  list_remove x l = Ok l' -> y ∈ l -> y <> x -> y ∈ l'.
Proof.
  revert l'. induction l as [|a l IH]; simpl; intros l' Hr Hy Hne; [inversion Hy |].
  destruct (String.eqb a x) eqn:E.
  - injection Hr as <-. apply String.eqb_eq in E. subst a.
    apply elem_of_cons in Hy as [-> | Hy]; [congruence | exact Hy].
  - destruct (list_remove x l) as [l0|e] eqn:Hl; simpl in Hr; [| discriminate].
    injection Hr as <-. apply elem_of_cons in Hy as [-> | Hy].
    + apply elem_of_cons. left. reflexivity.
    + apply elem_of_cons. right. exact (IH l0 eq_refl Hy Hne).
Qed.

Lemma find_node_patch_first prefix name ids (elem : Element) uid (st : State) :
  elem !! "name" = Some (YStr name) ->
  first_patch prefix name ids = Some uid ->
  find_node_patch prefix ids elem st = (Ok uid, st).
Proof.
  intros Hn. unfold first_patch. induction ids as [|id ids IH]; simpl; [discriminate |].
  destruct (String.prefix prefix id) eqn:Hp; simpl; [| exact IH].
  unfold elem_name, dict_get. rewrite Hn. rewrite bind_ret.
  unfold str_eq_yaml. destruct (String.eqb (last_part id) name) eqn:He.
  - intros [= <-]. apply String.eqb_eq in He.
    rewrite bool_decide_eq_true_2 by congruence. reflexivity.
  - intros Hf. apply String.eqb_neq in He.
    rewrite bool_decide_eq_false_2 by congruence. exact (IH Hf).
Qed.

Lemma first_patch_found prefix name ids uid :
  first_patch prefix name ids = Some uid ->
  uid ∈ ids /\ String.prefix prefix uid = true /\ last_part uid = name.
Proof.
  unfold first_patch. intros Hf. apply find_some in Hf as [Hin Hb].
  apply andb_true_iff in Hb as [Hp He]. apply String.eqb_eq in He.
  split; [apply list_elem_of_In; exact Hin | split; assumption].
Qed.

Lemma move_node_ok unique_id node (st : State) :
  nodes (saved_manifest st) !! unique_id = Some node ->
  move_node unique_id st =
    (Ok node, set_deleted (set_nodes (insert unique_id node))
                (set_saved (set_nodes (delete unique_id)) st)).
Proof.
  intros Hn. unfold move_node. rewrite bind_get.
  unfold dict_get. rewrite Hn. reflexivity.
Qed.

Lemma add_to_pp_files_ok r (st : State) sf parser_name :
  heap st !! r = Some sf ->
  parse_file_type_to_parser (parse_file_type sf) = Some parser_name ->
  parser_name <> "" -> project_name sf <> "" ->
  add_to_pp_files parse_file_type_to_parser r st =
    (Ok tt, set_project_parser_files
              (schedule_add (project_name sf) parser_name (file_id sf)
                 (deleted (file_diff st))) st).
Proof.
  intros Hsf Hpn Hne Hpr.
  destruct (add_to_pp_files_result r st) as [[e He] | (sf' & pn & Hsf' & Hpn' & _ & _ & Hrun)].
  - exfalso. revert He. unfold add_to_pp_files.
    rewrite (bind_ok _ _ _ _ _ (read_file_result r st sf Hsf)), Hpn.
    apply String.eqb_neq in Hne, Hpr. rewrite Hne, Hpr. simpl.
    rewrite bind_get. discriminate.
  - rewrite Hsf in Hsf'. injection Hsf' as <-. rewrite Hpn in Hpn'. injection Hpn' as <-.
    exact Hrun.
Qed.

Lemma remove_from_ok r (g : @SourceFile V -> list string) s unique_id (st : State) sf l :
  heap st !! r = Some sf -> list_remove unique_id (g sf) = Ok l ->
  remove_from r g s unique_id st = (Ok tt, set_heap (insert r (s l sf)) st).
Proof.
  intros Hsf Hl. unfold remove_from.
  rewrite (bind_ok _ _ _ _ _ (read_file_result r st sf Hsf)).
  unfold lift. rewrite Hl. change (@pair (Res (list string)) State (Ok l)) with (@ret V _ l). rewrite bind_ret.
  apply write_file_result. exact Hsf.
Qed.

(** The index of the tests by the name of the node they test. *)
Lemma build_test_index_ok ids index (st : State) :
  (forall t, t ∈ ids ->
     exists test_node tested_node_id others,
       nodes (saved_manifest st) !! t = Some test_node /\
       depends_on_nodes test_node = tested_node_id :: others) ->
  exists index',
    build_test_index ids index st = (Ok index', st) /\
    forall name, default [] (index' !! name) =
      default [] (index !! name) ++
      filter (fun t => tests_node (nodes (saved_manifest st)) name t = true) ids.
Proof.
  revert index. induction ids as [|t rest IH]; intros index Hres.
  - exists index. split; [reflexivity |]. intros name. rewrite app_nil_r. reflexivity.
  - destruct (Hres t) as (tn & d & ds & Ht & Hd); [apply elem_of_cons; left; reflexivity |].
    simpl. rewrite bind_get.
    unfold dict_get. rewrite Ht. rewrite bind_ret. rewrite Hd.
    match goal with
    | |- context [build_test_index rest ?acc st] =>
        destruct (IH acc) as (index' & Hrun & Hlook)
    end.
    { intros t' Ht'. apply Hres. apply elem_of_cons. right. exact Ht'. }
    exists index'. split; [exact Hrun |]. intros name. rewrite Hlook, filter_cons.
    assert (Htn : tests_node (nodes (saved_manifest st)) name t
                  = String.eqb (last_part d) name)
      by (unfold tests_node; rewrite Ht, Hd; reflexivity).
    rewrite Htn.
    destruct (decide (last_part d = name)) as [Heq | Hne].
    + rewrite <- Heq. rewrite String.eqb_refl. rewrite decide_True by reflexivity.
      destruct (index !! last_part d) as [l|] eqn:Hl; rewrite lookup_insert_eq; simpl.
      * rewrite <- app_assoc. reflexivity.
      * reflexivity.
    + apply String.eqb_neq in Hne as Hne'. rewrite Hne'.
      rewrite decide_False by discriminate.
      destruct (index !! last_part d) as [l|] eqn:Hl;
        rewrite lookup_insert_ne by exact Hne; reflexivity.
Qed.

Lemma get_tests_for_ok r name (st : State) sf :
  heap st !! r = Some sf ->
  pp_test_index sf = None \/ pp_test_index sf = Some ∅ ->
  tests_resolved (nodes (saved_manifest st)) sf ->
  exists index,
    get_tests_for r (YStr name) st =
      (Ok (tests_of (nodes (saved_manifest st)) name sf),
       set_heap (insert r (set_pp_test_index (Some index) sf)) st).
Proof.
  intros Hsf Hfirst Hres.
  destruct (build_test_index_ok (tests sf) ∅ st Hres) as (index & Hbuild & Hlook).
  exists index. unfold get_tests_for.
  rewrite (bind_ok _ _ _ _ _ (read_file_result r st sf Hsf)).
  assert (Hindex :
    bind (build_test_index (tests sf) ∅)
      (fun i' => bind (write_file r (set_pp_test_index (Some i'))) (fun _ => ret i')) st
    = (Ok index, set_heap (insert r (set_pp_test_index (Some index) sf)) st)).
  { rewrite (bind_ok _ _ _ _ _ Hbuild).
    rewrite (bind_ok _ _ _ _ _ (write_file_result r _ st sf Hsf)). reflexivity. }
  assert (Hrest : forall st',
    bind (lift (as_key (@YStr V name)))
      (fun key => match index !! key with
                  | Some l => @ret V (list string) l
                  | None => @ret V (list string) []
                  end) st'
    = (Ok (tests_of (nodes (saved_manifest st)) name sf), st')).
  { intros st'. simpl. unfold lift, bind. specialize (Hlook name).
    rewrite lookup_empty in Hlook. simpl in Hlook. unfold tests_of. rewrite <- Hlook.
    destruct (index !! name); reflexivity. }
  destruct Hfirst as [Hnone | Hempty].
  - rewrite Hnone. rewrite (bind_ok _ _ _ _ _ Hindex). apply Hrest.
  - rewrite Hempty. rewrite decide_True by reflexivity.
    rewrite (bind_ok _ _ _ _ _ Hindex). apply Hrest.
Qed.

(** The loop of [delete_schema_mssa_links] over the tests of the element. *)
Lemma remove_tests_loop r ids :
  forall (st : State) sf,
    NoDup ids -> heap st !! r = Some sf ->
    (forall t, t ∈ ids -> t ∈ tests sf) ->
    (forall t, t ∈ ids -> is_Some (nodes (saved_manifest st) !! t)) ->
    exists st',
      for_each ids (fun t => bind (move_node t) (fun _ => remove_from r tests set_tests t)) st
        = (Ok tt, st') /\
      nodes_removed ids (nodes (saved_manifest st)) (nodes (saved_manifest st')) /\
      nodes_recorded ids (nodes (saved_manifest st)) (nodes (deleted_manifest st))
        (nodes (deleted_manifest st')) /\
      same_entities (saved_manifest st) (saved_manifest st') /\
      files (saved_manifest st') = files (saved_manifest st) /\
      project_parser_files st' = project_parser_files st.
Proof.
  induction ids as [|t rest IH]; intros st sf Hnd Hsf Hin Hnodes.
  - exists st. split; [reflexivity |]. repeat split; intros k; reflexivity.
  - apply NoDup_cons in Hnd as [Hnot Hnd].
    destruct (Hnodes t) as [n Hn]; [apply elem_of_cons; left; reflexivity |].
    destruct (list_remove_in t (tests sf)) as [l Hl];
      [apply Hin; apply elem_of_cons; left; reflexivity |].
    set (st1 := set_deleted (set_nodes (insert t n)) (set_saved (set_nodes (delete t)) st)).
    set (st2 := set_heap (insert r (set_tests l sf)) st1).
    destruct (IH st2 (set_tests l sf)) as (st' & Hrun & Hrem & Hrec & Hsame & Hfiles & Hppf).
    + exact Hnd.
    + apply lookup_insert_eq.
    + intros t' Ht'. simpl. apply (list_remove_other t t' (tests sf) l Hl).
      * apply Hin. apply elem_of_cons. right. exact Ht'.
      * intros ->. exact (Hnot Ht').
    + intros t' Ht'. simpl. rewrite lookup_delete_ne by (intros ->; exact (Hnot Ht')).
      apply Hnodes. apply elem_of_cons. right. exact Ht'.
    + exists st'. split.
      { simpl. rewrite (bind_ok _ _ st tt st2); [exact Hrun |].
        rewrite (bind_ok _ _ _ _ _ (move_node_ok t n st Hn)).
        apply (remove_from_ok r tests set_tests t st1 sf l Hsf Hl). }
      split; [| split; [| split; [exact Hsame | split; [exact Hfiles | exact Hppf]]]].
      * intros k. rewrite (Hrem k). simpl.
        destruct (decide (k = t)) as [-> | Hne].
        -- rewrite (bool_decide_eq_true_2 (t ∈ t :: rest)) by (apply elem_of_cons; left; reflexivity).
           rewrite lookup_delete_eq. destruct (bool_decide (t ∈ rest)); reflexivity.
        -- rewrite lookup_delete_ne by congruence.
           rewrite (bool_decide_ext (k ∈ t :: rest) (k ∈ rest)); [reflexivity |].
           rewrite elem_of_cons. tauto.
      * intros k. rewrite (Hrec k). simpl.
        destruct (decide (k = t)) as [-> | Hne].
        -- rewrite (bool_decide_eq_true_2 (t ∈ t :: rest)) by (apply elem_of_cons; left; reflexivity).
           rewrite (bool_decide_eq_false_2 (t ∈ rest)) by exact Hnot.
           rewrite lookup_insert_eq. symmetry. exact Hn.
        -- rewrite lookup_delete_ne by congruence. rewrite lookup_insert_ne by congruence.
           rewrite (bool_decide_ext (k ∈ t :: rest) (k ∈ rest)); [reflexivity |].
           rewrite elem_of_cons. tauto.
Qed.

Lemma size_nodes_removed {A} (ids : list string) (m m' : gmap string A) :
  NoDup ids -> (forall k, k ∈ ids -> is_Some (m !! k)) ->
  (forall k, m' !! k = if bool_decide (k ∈ ids) then None else m !! k) ->
  size m' + List.length ids = size m.
Proof.
  revert m. induction ids as [|k0 rest IH]; intros m Hnd Hin Hlook.
  - simpl. rewrite Nat.add_0_r. f_equal. apply map_eq. intros k. rewrite Hlook.
    rewrite bool_decide_eq_false_2; [reflexivity | intros Hk; inversion Hk].
  - apply NoDup_cons in Hnd as [Hnot Hnd].
    destruct (Hin k0) as [x Hx]; [apply elem_of_cons; left; reflexivity |].
    assert (Hsize : size m = S (size (delete k0 m))).
    { rewrite <- (insert_delete_id m k0 x Hx) at 1.
      apply map_size_insert_None. apply lookup_delete_eq. }
    rewrite Hsize. simpl. rewrite Nat.add_succ_r. f_equal. apply IH.
    + exact Hnd.
    + intros k Hk. rewrite lookup_delete_ne by (intros ->; exact (Hnot Hk)).
      apply Hin. apply elem_of_cons. right. exact Hk.
    + intros k. rewrite Hlook. destruct (decide (k = k0)) as [-> | Hne].
      * rewrite (bool_decide_eq_true_2 (k0 ∈ k0 :: rest)) by (apply elem_of_cons; left; reflexivity).
        rewrite (bool_decide_eq_false_2 (k0 ∈ rest)) by exact Hnot.
        rewrite lookup_delete_eq. reflexivity.
      * rewrite lookup_delete_ne by congruence.
        rewrite (bool_decide_ext (k ∈ k0 :: rest) (k ∈ rest)); [reflexivity |].
        rewrite elem_of_cons. tauto.
Qed.

Lemma scheduled_schedule_add project parser file_id deleted ppf :
  file_id ∉ deleted -> scheduled file_id (schedule_add project parser file_id deleted ppf).
Proof.
  intros Hdel. unfold scheduled, schedule_add.
  eexists project, _, parser, _.
  split; [apply lookup_insert_eq |]. split; [apply lookup_insert_eq |].
  unfold str_in. rewrite (bool_decide_eq_false_2 (file_id ∈ deleted)) by exact Hdel.
  destruct (bool_decide (file_id ∈ default [] (default ∅ (ppf !! project) !! parser))) eqn:Hin;
    simpl.
  - apply bool_decide_eq_true in Hin. exact Hin.
  - apply elem_of_app. right. apply list_elem_of_singleton. reflexivity.
Qed.

(** X30: [delete_schema_mssa_links] for the element of a model that the
    schema file patches and whose node is still in the saved manifest, as
    on a change of the schema file: the model node and exactly the tests
    that the file owns for the model are moved from the saved manifest to
    the removed one, the macros, docs, sources and exposures of the saved
    manifest stay as they are, the file of the model node as read in this
    run takes the place of the saved one and is passed to
    [add_to_pp_files], which schedules it unless it is in the bucket of
    the deleted files.  The tests of the file are nodes with an upstream
    node, each once, the model is none of them, and the test index of the
    file is not built yet. *)
Theorem unlink_model_element (r r' : ref) (elem : Element) (name unique_id : string)
    (sf new_file : @SourceFile V) (node : ParsedNode) (parser_name : string) (st : State) :
  heap st !! r = Some sf ->
  elem !! "name" = Some (YStr name) ->
  first_patch "model" name (node_patches sf) = Some unique_id ->
  nodes (saved_manifest st) !! unique_id = Some node ->
  new_files st !! node_file_id node = Some r' ->
  heap st !! r' = Some new_file ->
  parse_file_type_to_parser (parse_file_type new_file) = Some parser_name ->
  parser_name <> "" -> project_name new_file <> "" ->
  pp_test_index sf = None \/ pp_test_index sf = Some ∅ ->
  tests_resolved (nodes (saved_manifest st)) sf ->
  NoDup (tests sf) -> unique_id ∉ tests sf ->
  let removed := unique_id :: tests_of (nodes (saved_manifest st)) name sf in
  exists st',
    delete_schema_mssa_links parse_file_type_to_parser r "models" elem st = (Ok tt, st') /\
    nodes_removed removed (nodes (saved_manifest st)) (nodes (saved_manifest st')) /\
    nodes_recorded removed (nodes (saved_manifest st)) (nodes (deleted_manifest st))
      (nodes (deleted_manifest st')) /\
    size (nodes (saved_manifest st')) + List.length removed
      = size (nodes (saved_manifest st)) /\
    same_entities (saved_manifest st) (saved_manifest st') /\
    project_parser_files st' =
      schedule_add (project_name new_file) parser_name (file_id new_file)
        (deleted (file_diff st)) (project_parser_files st) /\
    (file_id new_file ∉ deleted (file_diff st) ->
     scheduled (file_id new_file) (project_parser_files st')) /\
    saved_files st' = <[node_file_id node := r']> (saved_files st).
Proof.
  intros Hsf Hname Hfirst Hnode Hnew Hnf Hparser Hpn Hproj Hindex Hres Hnd Hnot removed.
  destruct (first_patch_found _ _ _ _ Hfirst) as (Hin & Hprefix & Hlast).
  assert (Huid : String.eqb unique_id "" = false).
  { destruct unique_id; [discriminate Hprefix | reflexivity]. }
  destruct (list_remove_in unique_id (node_patches sf) Hin) as [patches Hpatches].
  set (T := tests_of (nodes (saved_manifest st)) name sf) in *.
  (* the states the method goes through *)
  set (st_a := set_deleted (set_nodes (insert unique_id node))
                 (set_saved (set_nodes (delete unique_id)) st)).
  set (st_b := set_saved (set_files (insert (node_file_id node) r')) st_a).
  set (st_c := set_project_parser_files
                 (schedule_add (project_name new_file) parser_name (file_id new_file)
                    (deleted (file_diff st))) st_b).
  set (sf_d := set_node_patches patches sf).
  set (st_d := set_heap (insert r sf_d) st_c).
  assert (Hres_d : tests_resolved (nodes (saved_manifest st_d)) sf_d).
  { intros t Ht. destruct (Hres t Ht) as (tn & d & ds & Htn & Hd).
    exists tn, d, ds. split; [| exact Hd]. simpl.
    rewrite lookup_delete_ne by (intros ->; exact (Hnot Ht)). exact Htn. }
  destruct (get_tests_for_ok r name st_d sf_d (lookup_insert_eq _ _ _) Hindex Hres_d)
    as (index & Htests).
  assert (HT : tests_of (nodes (saved_manifest st_d)) name sf_d = T).
  { unfold T, tests_of. simpl.
    assert (Hext : forall l : list string, (forall t, t ∈ l -> t ∈ tests sf) ->
      filter (fun t => tests_node (delete unique_id (nodes (saved_manifest st))) name t = true) l
      = filter (fun t => tests_node (nodes (saved_manifest st)) name t = true) l).
    { induction l as [|t l IH]; intros Hl; [reflexivity |].
      rewrite !filter_cons.
      assert (Ht : tests_node (delete unique_id (nodes (saved_manifest st))) name t
                   = tests_node (nodes (saved_manifest st)) name t).
      { unfold tests_node. rewrite lookup_delete_ne; [reflexivity |].
        intros ->. apply Hnot. apply Hl. apply elem_of_cons. left. reflexivity. }
      rewrite Ht, IH; [reflexivity |].
      intros t' Ht'. apply Hl. apply elem_of_cons. right. exact Ht'. }
    apply Hext. intros t Ht. exact Ht. }
  rewrite HT in Htests.
  set (sf_e := set_pp_test_index (Some index) sf_d) in *.
  set (st_e := set_heap (insert r sf_e) st_d) in *.
  assert (HTin : forall t, t ∈ T -> t ∈ tests sf).
  { intros t Ht. unfold T, tests_of in Ht. apply list_elem_of_filter in Ht as [_ Ht].
    exact Ht. }
  destruct (remove_tests_loop r T st_e sf_e)
    as (st' & Hloop & Hrem & Hrec & Hsame & Hfiles & Hppf).
  { unfold T, tests_of. apply NoDup_filter. exact Hnd. }
  { apply lookup_insert_eq. }
  { exact HTin. }
  { intros t Ht. simpl. rewrite lookup_delete_ne by (intros ->; exact (Hnot (HTin _ Ht))).
    destruct (Hres t (HTin t Ht)) as (tn & _ & _ & Htn & _). eauto. }
  exists st'. split; [| split; [| split; [| split; [| split; [| split; [| split]]]]]].
  - unfold delete_schema_mssa_links.
    assert (Hpre : @dict_get V string key_to_prefix "models" st = (Ok "model", st))
      by reflexivity.
    rewrite (bind_ok _ _ _ _ _ Hpre).
    rewrite (bind_ok _ _ _ _ _ (read_file_result r st sf Hsf)).
    rewrite (bind_ok _ _ _ _ _ (find_node_patch_first "model" name _ elem unique_id st
                                  Hname Hfirst)).
    rewrite Huid. simpl negb. cbv iota.
    rewrite !bind_assoc, bind_get.
    rewrite (bool_decide_eq_true_2 (unique_id ∈ dom (nodes (saved_manifest st))))
      by (apply elem_of_dom; eauto).
    rewrite !bind_assoc.
    rewrite (bind_ok _ _ _ _ _ (move_node_ok unique_id node st Hnode)).
    rewrite !bind_assoc, bind_get. fold st_a. rewrite !bind_assoc.
    rewrite (bind_ok _ _ st_a r' st_a)
      by (unfold dict_get; simpl; rewrite Hnew; reflexivity).
    rewrite !bind_assoc. rewrite (bind_ok _ _ st_a tt st_b) by reflexivity.
    rewrite !bind_assoc, bind_get. rewrite !bind_assoc.
    rewrite (bind_ok _ _ st_b r' st_b)
      by (unfold dict_get, saved_files; simpl; rewrite lookup_insert_eq; reflexivity).
    rewrite (bind_ok _ _ _ _ _
               (add_to_pp_files_ok r' st_b new_file parser_name Hnf Hparser Hpn Hproj)).
    rewrite (bind_ok _ _ _ _ _
               (remove_from_ok r node_patches set_node_patches unique_id st_c sf patches
                  Hsf Hpatches)).
    assert (Hkey : str_in "models" ["models"; "seeds"; "snapshots"] = true) by reflexivity.
    rewrite Hkey.
    rewrite (bind_ok _ _ st_d (YStr name) st_d)
      by (unfold elem_name, dict_get; rewrite Hname; reflexivity).
    rewrite (bind_ok _ _ _ _ _ Htests). exact Hloop.
  - intros k. rewrite (Hrem k). simpl. unfold removed.
    destruct (decide (k = unique_id)) as [-> | Hne].
    + rewrite (bool_decide_eq_true_2 (unique_id ∈ unique_id :: T))
        by (apply elem_of_cons; left; reflexivity).
      rewrite lookup_delete_eq. destruct (bool_decide (unique_id ∈ T)); reflexivity.
    + rewrite lookup_delete_ne by congruence.
      rewrite (bool_decide_ext (k ∈ unique_id :: T) (k ∈ T)); [reflexivity |].
      rewrite elem_of_cons. tauto.
  - intros k. rewrite (Hrec k). simpl. unfold removed.
    destruct (decide (k = unique_id)) as [-> | Hne].
    + rewrite (bool_decide_eq_true_2 (unique_id ∈ unique_id :: T))
        by (apply elem_of_cons; left; reflexivity).
      rewrite (bool_decide_eq_false_2 (unique_id ∈ T)) by (intros Hu; exact (Hnot (HTin _ Hu))).
      rewrite lookup_insert_eq. symmetry. exact Hnode.
    + rewrite lookup_delete_ne by congruence. rewrite lookup_insert_ne by congruence.
      rewrite (bool_decide_ext (k ∈ unique_id :: T) (k ∈ T)); [reflexivity |].
      rewrite elem_of_cons. tauto.
  - apply size_nodes_removed.
    + unfold removed. apply NoDup_cons. split.
      * intros Hu. exact (Hnot (HTin _ Hu)).
      * unfold T, tests_of. apply NoDup_filter. exact Hnd.
    + intros k Hk. unfold removed in Hk. apply elem_of_cons in Hk as [-> | Hk]; [eauto |].
      destruct (Hres k (HTin k Hk)) as (tn & _ & _ & Htn & _). eauto.
    + intros k. rewrite (Hrem k). simpl. unfold removed.
      destruct (decide (k = unique_id)) as [-> | Hne].
      * rewrite (bool_decide_eq_true_2 (unique_id ∈ unique_id :: T))
          by (apply elem_of_cons; left; reflexivity).
        rewrite lookup_delete_eq. destruct (bool_decide (unique_id ∈ T)); reflexivity.
      * rewrite lookup_delete_ne by congruence.
        rewrite (bool_decide_ext (k ∈ unique_id :: T) (k ∈ T)); [reflexivity |].
        rewrite elem_of_cons. tauto.
  - exact Hsame.
  - rewrite Hppf. reflexivity.
  - intros Hdel. rewrite Hppf. simpl. apply scheduled_schedule_add. exact Hdel.
  - unfold saved_files. rewrite Hfiles. reflexivity.
Qed.

(** *** The removal of a node that a schema file patches *)







(** *** The diff of the files *)

Import PartialMore.

Lemma saved_file_lookup (st : State) file_id :
  is_Some (saved_file st file_id) ->
  exists r sf, saved_files st !! file_id = Some r /\ heap st !! r = Some sf /\
               saved_file st file_id = Some sf.
Proof.
  unfold saved_file. intros [sf Hsf].
  destruct (saved_files st !! file_id) as [r|] eqn:Hr; [| discriminate].
  exists r, sf. repeat split; assumption.
Qed.

Lemma new_file_lookup (st : State) file_id :
  is_Some (new_file st file_id) ->
  exists r nf, new_files st !! file_id = Some r /\ heap st !! r = Some nf /\
               new_file st file_id = Some nf.
Proof.
  unfold new_file. intros [nf Hnf].
  destruct (new_files st !! file_id) as [r|] eqn:Hr; [| discriminate].
  exists r, nf. repeat split; assumption.
Qed.

Lemma split_deleted_ok ids acc (st : State) :
  (forall f, f ∈ ids -> is_Some (saved_file st f)) ->
  split_deleted ids acc st =
    (Ok (fst acc ++ filter (fun f => is_schema_file st f = true) ids,
         snd acc ++ filter (fun f => is_schema_file st f = false) ids), st).
Proof.
  revert acc. induction ids as [|f rest IH]; intros acc Hres.
  - simpl. rewrite !app_nil_r. destruct acc. reflexivity.
  - destruct (saved_file_lookup st f) as (r & sf & Hr & Hsf & Hsaved);
      [apply Hres; apply elem_of_cons; left; reflexivity |].
    assert (Hkind : is_schema_file st f = bool_decide (parse_file_type sf = Schema))
      by (unfold is_schema_file; rewrite Hsaved; reflexivity).
    simpl. rewrite bind_get. unfold dict_get. rewrite Hr, bind_ret.
    rewrite (bind_ok _ _ _ _ _ (read_file_result r st sf Hsf)).
    rewrite !filter_cons, Hkind.
    destruct (decide (parse_file_type sf = Schema)) as [Hs | Hs].
    + rewrite (bool_decide_eq_true_2 _ Hs). rewrite IH; simpl.
      * repeat case_decide; try solve [exfalso; intuition discriminate];
        rewrite <- ?app_assoc; reflexivity.
      * intros f' Hf'. apply Hres. apply elem_of_cons. right. exact Hf'.
    + rewrite (bool_decide_eq_false_2 _ Hs). rewrite IH; simpl.
      * repeat case_decide; try solve [exfalso; intuition discriminate];
        rewrite <- ?app_assoc; reflexivity.
      * intros f' Hf'. apply Hres. apply elem_of_cons. right. exact Hf'.
Qed.

(** The loop over the common files: it walks on, or stops at the first
    misserialized file. *)
Lemma split_common_result ids (st : State) :
  (forall f, f ∈ ids -> is_Some (saved_file st f) /\ is_Some (new_file st f)) ->
  forall changed changed_schema unchanged,
    split_common ids (changed, changed_schema, unchanged) st =
      match List.find (misserialized st) ids with
      | Some f => (Raise (Exception ("Serialization failure for " +:+ f)), st)
      | None =>
          (Ok (changed ++ filter (fun f => same_checksum st f = false /\
                                           is_schema_file st f = false) ids,
               changed_schema ++ filter (fun f => same_checksum st f = false /\
                                                  is_schema_file st f = true) ids,
               unchanged ++ filter (fun f => same_checksum st f = true) ids), st)
      end.
Proof.
  induction ids as [|f rest IH]; intros Hres changed changed_schema unchanged.
  - simpl. rewrite !app_nil_r. reflexivity.
  - destruct (Hres f) as [Hs Hn]; [apply elem_of_cons; left; reflexivity |].
    destruct (saved_file_lookup st f Hs) as (rs & sf & Hrs & Hsf & Hsaved).
    destruct (new_file_lookup st f Hn) as (rn & nf & Hrn & Hnf & Hnew).
    assert (Hsame : same_checksum st f = String.eqb (checksum sf) (checksum nf))
      by (unfold same_checksum; rewrite Hsaved, Hnew; reflexivity).
    assert (Hkind : is_schema_file st f = bool_decide (parse_file_type sf = Schema))
      by (unfold is_schema_file; rewrite Hsaved; reflexivity).
    assert (Hbad : misserialized st f =
                   negb (String.eqb (checksum sf) (checksum nf)) &&
                   bool_decide (parse_file_type sf = Schema) &&
                   negb (is_SchemaSourceFile sf))
      by (unfold misserialized; rewrite Hsame, Hkind, Hsaved; reflexivity).
    assert (Hrest : forall f', f' ∈ rest ->
              is_Some (saved_file st f') /\ is_Some (new_file st f'))
      by (intros f' Hf'; apply Hres; apply elem_of_cons; right; exact Hf').
    simpl. rewrite bind_get. unfold dict_get at 1. rewrite Hrs, bind_ret.
    rewrite (bind_ok _ _ _ _ _ (read_file_result rs st sf Hsf)).
    unfold dict_get at 1. rewrite Hrn, bind_ret.
    rewrite (bind_ok _ _ _ _ _ (read_file_result rn st nf Hnf)).
    rewrite Hbad, !filter_cons, Hsame, Hkind.
    destruct (String.eqb (checksum sf) (checksum nf)); simpl.
    + rewrite (IH Hrest). destruct (List.find (misserialized st) rest); [reflexivity |].
      repeat case_decide; try solve [exfalso; intuition discriminate];
        rewrite <- ?app_assoc; reflexivity.
    + destruct (decide (parse_file_type sf = Schema)) as [Hk | Hk].
      * rewrite (bool_decide_eq_true_2 _ Hk). simpl.
        destruct (is_SchemaSourceFile sf); simpl; [| reflexivity].
        rewrite (IH Hrest). destruct (List.find (misserialized st) rest); [reflexivity |].
        repeat case_decide; try solve [exfalso; intuition discriminate];
        rewrite <- ?app_assoc; reflexivity.
      * rewrite (bool_decide_eq_false_2 _ Hk). simpl.
        rewrite (IH Hrest). destruct (List.find (misserialized st) rest); [reflexivity |].
        repeat case_decide; try solve [exfalso; intuition discriminate];
        rewrite <- ?app_assoc; reflexivity.
Qed.

Lemma files_resolved_saved (st : State) f :
  files_resolved st -> f ∈ dom (saved_files st) -> is_Some (saved_file st f).
Proof.
  intros [Hs _] Hf. apply elem_of_dom in Hf as [r Hr].
  unfold saved_file. rewrite Hr. exact (Hs f r Hr).
Qed.

Lemma files_resolved_new (st : State) f :
  files_resolved st -> f ∈ dom (new_files st) -> is_Some (new_file st f).
Proof.
  intros [_ Hn] Hf. apply elem_of_dom in Hf as [r Hr].
  unfold new_file. rewrite Hr. exact (Hn f r Hr).
Qed.

(** What [build_file_diff] does: the buckets, or the first misserialized
    file. *)
Lemma build_file_diff_result (st : State) :
  files_resolved st ->
  build_file_diff st =
    match List.find (misserialized st)
            (elements (dom (saved_files st) ∩ dom (new_files st))) with
    | Some f => (Raise (Exception ("Serialization failure for " +:+ f)), st)
    | None => (Ok tt, set_file_diff (file_diff_of st) st)
    end.
Proof.
  intros Hres. unfold build_file_diff. rewrite bind_get.
  assert (Hd := split_deleted_ok
                  (elements (dom (saved_files st) ∖ dom (new_files st))) ([], []) st).
  assert (Hdres : forall f, f ∈ elements (dom (saved_files st) ∖ dom (new_files st)) ->
                    is_Some (saved_file st f)).
  { intros f Hf. apply elem_of_elements, elem_of_difference in Hf as [Hf _].
    apply files_resolved_saved; assumption. }
  rewrite (bind_ok _ _ _ _ _ (Hd Hdres)).
  assert (Hc := split_common_result
                  (elements (dom (saved_files st) ∩ dom (new_files st))) st).
  unfold bind at 1. rewrite Hc.
  2:{ intros f Hf. apply elem_of_elements, elem_of_intersection in Hf as [Hs Hn].
      split; [apply files_resolved_saved | apply files_resolved_new]; assumption. }
  destruct (List.find _ _); reflexivity.
Qed.

Lemma find_none_Forall {A} (f : A -> bool) (l : list A) :
  Forall (fun x => f x = false) l -> List.find f l = None.
Proof. induction 1 as [|x l Hx _ IH]; simpl; [reflexivity |]. rewrite Hx. exact IH. Qed.

Lemma find_some_Exists {A} (f : A -> bool) (l : list A) :
  Exists (fun x => f x = true) l -> exists y, List.find f l = Some y.
Proof.
  induction 1 as [x l Hx | x l _ IH]; simpl.
  - rewrite Hx. eauto.
  - destruct (f x); eauto.
Qed.

(** X7: when every file id leads to a file object and no changed schema
    file was saved as a plain file, [build_file_diff] writes the buckets and
    nothing else: a saved file that was not read is deleted, as a schema
    file or not; a file read that was not saved is added; a file saved and
    read is unchanged when the checksums agree and changed, as a schema
    file or not, when they do not; and no file is in two buckets or twice in
    one. *)
Theorem build_file_diff_partition (st : State) :
  files_resolved st ->
  well_serialized st ->
  exists d,
    build_file_diff st = (Ok tt, set_file_diff d st) /\
    (forall f, f ∈ deleted d <->
       f ∈ dom (saved_files st) /\ (f ∉ dom (new_files st)) /\ is_schema_file st f = false) /\
    (forall f, f ∈ deleted_schema_files d <->
       f ∈ dom (saved_files st) /\ (f ∉ dom (new_files st)) /\ is_schema_file st f = true) /\
    (forall f, f ∈ added d <-> f ∈ dom (new_files st) /\ f ∉ dom (saved_files st)) /\
    (forall f, f ∈ changed d <->
       f ∈ dom (saved_files st) /\ f ∈ dom (new_files st) /\
       same_checksum st f = false /\ is_schema_file st f = false) /\
    (forall f, f ∈ changed_schema_files d <->
       f ∈ dom (saved_files st) /\ f ∈ dom (new_files st) /\
       same_checksum st f = false /\ is_schema_file st f = true) /\
    (forall f, f ∈ unchanged d <->
       f ∈ dom (saved_files st) /\ f ∈ dom (new_files st) /\ same_checksum st f = true) /\
    NoDup (deleted d ++ deleted_schema_files d ++ changed d ++
           changed_schema_files d ++ unchanged d).
Proof.
  intros Hres Hser. exists (file_diff_of st).
  rewrite (build_file_diff_result st Hres), (find_none_Forall _ _ Hser).
  split; [reflexivity |]. unfold file_diff_of. simpl.
  assert (H1 : forall f, f ∈ filter (fun f => is_schema_file st f = false)
                 (elements (dom (saved_files st) ∖ dom (new_files st))) <->
       f ∈ dom (saved_files st) /\ (f ∉ dom (new_files st)) /\ is_schema_file st f = false).
  { intros f. rewrite list_elem_of_filter, elem_of_elements, elem_of_difference. tauto. }
  assert (H2 : forall f, f ∈ filter (fun f => is_schema_file st f = true)
                 (elements (dom (saved_files st) ∖ dom (new_files st))) <->
       f ∈ dom (saved_files st) /\ (f ∉ dom (new_files st)) /\ is_schema_file st f = true).
  { intros f. rewrite list_elem_of_filter, elem_of_elements, elem_of_difference. tauto. }
  assert (H3 : forall f, f ∈ filter (fun f => same_checksum st f = false /\
                                             is_schema_file st f = false)
                 (elements (dom (saved_files st) ∩ dom (new_files st))) <->
       f ∈ dom (saved_files st) /\ f ∈ dom (new_files st) /\
       same_checksum st f = false /\ is_schema_file st f = false).
  { intros f. rewrite list_elem_of_filter, elem_of_elements, elem_of_intersection. tauto. }
  assert (H4 : forall f, f ∈ filter (fun f => same_checksum st f = false /\
                                             is_schema_file st f = true)
                 (elements (dom (saved_files st) ∩ dom (new_files st))) <->
       f ∈ dom (saved_files st) /\ f ∈ dom (new_files st) /\
       same_checksum st f = false /\ is_schema_file st f = true).
  { intros f. rewrite list_elem_of_filter, elem_of_elements, elem_of_intersection. tauto. }
  assert (H5 : forall f, f ∈ filter (fun f => same_checksum st f = true)
                 (elements (dom (saved_files st) ∩ dom (new_files st))) <->
       f ∈ dom (saved_files st) /\ f ∈ dom (new_files st) /\ same_checksum st f = true).
  { intros f. rewrite list_elem_of_filter, elem_of_elements, elem_of_intersection. tauto. }
  split; [exact H1 |]. split; [exact H2 |].
  split; [intros f; rewrite elem_of_difference; tauto |].
  split; [exact H3 |]. split; [exact H4 |]. split; [exact H5 |].
  repeat (apply NoDup_app; split; [apply NoDup_filter, NoDup_elements | split]);
    try (apply NoDup_filter, NoDup_elements);
    intros f Hf Hf'; repeat (apply elem_of_app in Hf' as [Hf' | Hf']);
    first [apply H1 in Hf | apply H2 in Hf | apply H3 in Hf | apply H4 in Hf];
    first [apply H2 in Hf' | apply H3 in Hf' | apply H4 in Hf' | apply H5 in Hf'];
    intuition congruence.
Qed.

(** X8: when a file saved and read changed its checksum, is of the schema
    kind and was not saved as a [SchemaSourceFile], [build_file_diff] stops
    with the serialization failure of such a file and writes no bucket. *)
Theorem build_file_diff_serialization_failure (st : State) :
  files_resolved st ->
  Exists (fun f => misserialized st f = true)
    (elements (dom (saved_files st) ∩ dom (new_files st))) ->
  exists f,
    build_file_diff st = (Raise (Exception ("Serialization failure for " +:+ f)), st) /\
    misserialized st f = true.
Proof.
  intros Hres Hbad. destruct (find_some_Exists _ _ Hbad) as [f Hf].
  exists f. rewrite (build_file_diff_result st Hres), Hf. split; [reflexivity |].
  apply find_some in Hf as [_ Hf]. exact Hf.
Qed.

Lemma filter_none {A} (P : A -> Prop) `{!forall x, Decision (P x)} (l : list A) :
  (forall x, x ∈ l -> ~ P x) -> filter P l = [].
Proof.
  induction l as [|x l IH]; intros Hno; [reflexivity |].
  rewrite filter_cons, decide_False by (apply Hno; apply elem_of_cons; left; reflexivity).
  apply IH. intros y Hy. apply Hno. apply elem_of_cons. right. exact Hy.
Qed.

(** X9: when the files read are the files saved, under the same ids and
    with the same checksums, [build_file_diff] leaves the five buckets of
    changes empty: [skip_parsing] holds and [get_parsing_files] returns the
    empty schedule without a write. *)
Theorem unchanged_files_skip_parsing (st : State) :
  files_resolved st ->
  dom (saved_files st) = dom (new_files st) ->
  Forall (fun f => same_checksum st f = true) (elements (dom (saved_files st))) ->
  exists d,
    build_file_diff st = (Ok tt, set_file_diff d st) /\
    skip_parsing (set_file_diff d st) = true /\
    get_parsing_files parse_file_type_to_parser (set_file_diff d st)
      = (Ok ∅, set_file_diff d st).
Proof.
  intros Hres Hdom Hsame. exists (file_diff_of st).
  assert (Hall : forall f, f ∈ dom (saved_files st) -> same_checksum st f = true).
  { intros f Hf. rewrite Forall_forall in Hsame. apply Hsame.
    apply elem_of_elements. exact Hf. }
  assert (Hskip : skip_parsing (set_file_diff (file_diff_of st) st) = true).
  { unfold skip_parsing, file_diff_of. simpl. rewrite <- Hdom.
    rewrite difference_diag_L, elements_empty. simpl.
    rewrite bool_decide_eq_true_2 by reflexivity.
    rewrite !filter_none; [reflexivity | |]; intros f Hf [Hc _];
      apply elem_of_elements, elem_of_intersection in Hf as [Hf _];
      rewrite (Hall f Hf) in Hc; discriminate. }
  rewrite (build_file_diff_result st Hres), find_none_Forall.
  - split; [reflexivity |]. split; [exact Hskip |].
    unfold get_parsing_files. rewrite bind_get, Hskip. reflexivity.
  - apply Forall_forall. intros f Hf. unfold misserialized.
    apply elem_of_elements, elem_of_intersection in Hf as [Hf _].
    rewrite (Hall f Hf). reflexivity.
Qed.

(** *** More on the schedule *)

Lemma schedule_add_again project parser file_id deleted ppf :
  schedule_add project parser file_id deleted
    (schedule_add project parser file_id deleted ppf)
  = schedule_add project parser file_id deleted ppf.
Proof.
  unfold schedule_add. rewrite lookup_insert_eq. simpl. rewrite lookup_insert_eq. simpl.
  set (ids := default [] (default ∅ (ppf !! project) !! parser)).
  assert (Hnow : str_in file_id (ids ++ [file_id]) = true).
  { apply bool_decide_eq_true_2, elem_of_app. right.
    apply list_elem_of_singleton. reflexivity. }
  destruct (str_in file_id ids) eqn:Hin; destruct (str_in file_id deleted) eqn:Hdel; simpl;
    rewrite ?Hin, ?Hnow; simpl; rewrite !insert_insert_eq; reflexivity.
Qed.

(** X10: scheduling a file a second time changes nothing: the second call
    of [add_to_pp_files] returns or raises as the first did and leaves the
    state that the first left. *)
Theorem add_to_pp_files_idempotent (r : ref) (st : State) :
  add_to_pp_files parse_file_type_to_parser r
    (snd (add_to_pp_files parse_file_type_to_parser r st))
  = add_to_pp_files parse_file_type_to_parser r st.
Proof.
  destruct (add_to_pp_files_result r st)
    as [[e He] | (sf & pn & Hsf & Hpn & Hne & Hpr & Hrun)].
  - rewrite He. cbn [snd]. exact He.
  - rewrite Hrun. cbn [snd].
    match goal with
    | |- add_to_pp_files _ r ?s = _ => rewrite (add_to_pp_files_ok r s sf pn Hsf Hpn Hne Hpr)
    end.
    unfold set_project_parser_files. simpl. rewrite schedule_add_again. reflexivity.
Qed.

Lemma schedule_extends_refl ppf : schedule_extends ppf ppf.
Proof. intros project parser. exists []. rewrite app_nil_r. reflexivity. Qed.

Lemma schedule_extends_trans ppf1 ppf2 ppf3 :
  schedule_extends ppf1 ppf2 -> schedule_extends ppf2 ppf3 -> schedule_extends ppf1 ppf3.
Proof.
  intros H12 H23 project parser.
  destruct (H12 project parser) as [m1 H1]. destruct (H23 project parser) as [m2 H2].
  exists (m1 ++ m2). rewrite H2, H1, app_assoc. reflexivity.
Qed.

Lemma schedule_extends_add project parser file_id deleted ppf :
  schedule_extends ppf (schedule_add project parser file_id deleted ppf).
Proof.
  intros project' parser'. unfold scheduled_ids, schedule_add.
  destruct (decide (project = project')) as [<- | Hp].
  - rewrite lookup_insert_eq. simpl.
    destruct (decide (parser = parser')) as [<- | Hpa].
    + rewrite lookup_insert_eq. simpl.
      destruct (negb _ && negb _); [eexists; reflexivity |].
      exists []. rewrite app_nil_r. reflexivity.
    + rewrite lookup_insert_ne by exact Hpa. exists []. rewrite app_nil_r. reflexivity.
  - rewrite lookup_insert_ne by exact Hp. exists []. rewrite app_nil_r. reflexivity.
Qed.

(** X11: a run of [get_parsing_files] only appends to the schedule it
    starts with, whether it returns or raises: under every project and
    parser, the file ids scheduled before are still there, in the same
    order, before the ones the run adds. *)
Theorem get_parsing_files_extends_schedule (st : State) :
  schedule_extends (project_parser_files st)
    (project_parser_files (snd (get_parsing_files parse_file_type_to_parser st))).
Proof.
  apply (preserves_get_parsing_files
           (fun st' : State => schedule_extends (project_parser_files st)
                                 (project_parser_files st'))).
  - intros f st' HP. exact HP.
  - intros f st' HP. exact HP.
  - intros f st' HP. exact HP.
  - intros r st' HP.
    destruct (add_to_pp_files_result r st') as [[e ->] | (sf & pn & _ & _ & _ & _ & ->)];
      [exact HP |].
    simpl. eapply schedule_extends_trans; [exact HP |]. apply schedule_extends_add.
  - apply schedule_extends_refl.
Qed.

(** *** Files added *)

(** X12: a file that was read and not saved is put under its id among the
    saved files and scheduled, the other saved files and the entries of
    both manifests staying as they are; when it is a schema file, its
    pending patches start as its whole document. *)
Theorem add_to_saved_registers (file_id_ : string) (r : ref) (sf : @SourceFile V)
    (parser_name : string) (st : State) :
  new_files st !! file_id_ = Some r ->
  heap st !! r = Some sf ->
  parse_file_type_to_parser (parse_file_type sf) = Some parser_name ->
  parser_name <> "" -> project_name sf <> "" ->
  exists st',
    add_to_saved parse_file_type_to_parser file_id_ st = (Ok tt, st') /\
    saved_files st' = <[file_id_ := r]> (saved_files st) /\
    nodes (saved_manifest st') = nodes (saved_manifest st) /\
    same_entities (saved_manifest st) (saved_manifest st') /\
    deleted_manifest st' = deleted_manifest st /\
    project_parser_files st' =
      schedule_add (project_name sf) parser_name (file_id sf) (deleted (file_diff st))
        (project_parser_files st) /\
    heap st' = (if decide (parse_file_type sf = Schema)
                then <[r := set_pp_dict (Some (dict_from_yaml sf)) sf]> (heap st)
                else heap st).
Proof.
  intros Hnew Hsf Hpn Hne Hpr. unfold add_to_saved.
  rewrite bind_get. unfold dict_get. rewrite Hnew, bind_ret.
  rewrite (bind_ok _ _ _ _ _ (read_file_result r st sf Hsf)).
  destruct (decide (parse_file_type sf = Schema)) as [Hk | Hk].
  - rewrite (bind_ok _ _ _ _ _ (write_file_result r _ st sf Hsf)).
    set (st1 := set_heap _ st).
    rewrite (bind_ok _ _ st1 tt (set_saved (set_files (insert file_id_ r)) st1)) by reflexivity.
    erewrite add_to_pp_files_ok;
      [| apply lookup_insert_eq | exact Hpn | exact Hne | exact Hpr].
    eexists. split; [reflexivity |]. repeat split.
  - rewrite bind_ret.
    rewrite (bind_ok _ _ st tt (set_saved (set_files (insert file_id_ r)) st)) by reflexivity.
    erewrite add_to_pp_files_ok; [| exact Hsf | exact Hpn | exact Hne | exact Hpr].
    eexists. split; [reflexivity |]. repeat split.
Qed.

(** *** More on the diff of a section *)

Lemma empty_minus (X : gset string) : ∅ ∖ X = ∅.
Proof.
  apply set_eq. intros x. rewrite elem_of_difference. split; [intros [Hx _]; exact Hx |].
  intros Hx. exfalso. exact (not_elem_of_empty x Hx).
Qed.

Lemma empty_inter (X : gset string) : ∅ ∩ X = ∅.
Proof.
  apply set_eq. intros x. rewrite elem_of_intersection. split; [intros [Hx _]; exact Hx |].
  intros Hx. exfalso. exact (not_elem_of_empty x Hx).
Qed.

Lemma get_diff_for_self key (d : gmap string (@yaml_entry V)) (elems : list Element) :
  section_or_empty d key = Ok elems -> Forall string_named elems ->
  get_diff_for key d d = Ok {| diff_deleted := []; diff_added := []; diff_changed := [] |}.
Proof.
  intros Hs Hnamed. unfold get_diff_for.
  destruct (bool_decide (key ∈ dom d) || bool_decide (key ∈ dom d)); [| reflexivity].
  rewrite Hs. simpl.
  destruct (elements_by_name_last elems ∅ Hnamed) as (m & -> & _). simpl.
  rewrite difference_diag_L, elements_empty. simpl.
  rewrite filter_none; [reflexivity |]. intros name _ Hne. apply Hne. reflexivity.
Qed.

(** X13: the diff of a section of a document against the same document is
    empty; against a document without the section, nothing is added or
    changed; from a document without the section, nothing is deleted or
    changed. *)
Theorem get_diff_for_degenerate (key : string) (d none : gmap string (@yaml_entry V))
    (elems : list Element) :
  section_or_empty d key = Ok elems ->
  Forall string_named elems ->
  none !! key = None ->
  get_diff_for key d d = Ok {| diff_deleted := []; diff_added := []; diff_changed := [] |} /\
  (exists gone, get_diff_for key d none
                = Ok {| diff_deleted := gone; diff_added := []; diff_changed := [] |}) /\
  (exists new, get_diff_for key none d
               = Ok {| diff_deleted := []; diff_added := new; diff_changed := [] |}).
Proof.
  intros Hs Hnamed Hnone. split; [exact (get_diff_for_self key d elems Hs Hnamed) |].
  assert (Hsn : section_or_empty none key = Ok [])
    by (unfold section_or_empty; rewrite Hnone; reflexivity).
  destruct (elements_by_name_last elems ∅ Hnamed) as (m & Hm & _).
  split; unfold get_diff_for.
  - destruct (_ || _); [| eexists; reflexivity].
    rewrite Hs. simpl. rewrite Hm. simpl. rewrite Hsn. simpl.
    rewrite dom_empty_L, difference_empty_L, intersection_empty_r_L.
    rewrite empty_minus.
    rewrite elements_empty. simpl. eexists. reflexivity.
  - destruct (_ || _); [| eexists; reflexivity].
    rewrite Hsn. simpl. rewrite Hs. simpl. rewrite Hm. simpl.
    rewrite dom_empty_L, difference_empty_L, empty_inter, empty_minus.
    rewrite elements_empty. simpl. eexists. reflexivity.
Qed.

Lemma omap_length_all {A B} (f : A -> option B) (l : list A) :
  (forall x, x ∈ l -> is_Some (f x)) -> List.length (omap f l) = List.length l.
Proof.
  induction l as [|x l IH]; intros Hall; [reflexivity |]. simpl.
  destruct (Hall x) as [y Hy]; [apply elem_of_cons; left; reflexivity |].
  rewrite Hy. simpl. f_equal. apply IH. intros z Hz. apply Hall.
  apply elem_of_cons. right. exact Hz.
Qed.

(** X14: diffing two documents the other way round swaps what is added
    and what is deleted, and changes as many elements. *)
Theorem get_diff_for_swap (key : string) (a b : gmap string (@yaml_entry V))
    (d : SectionDiff) :
  get_diff_for key a b = Ok d ->
  exists d',
    get_diff_for key b a = Ok d' /\
    diff_added d' = diff_deleted d /\
    diff_deleted d' = diff_added d /\
    List.length (diff_changed d') = List.length (diff_changed d).
Proof.
  unfold get_diff_for. rewrite (orb_comm (bool_decide (key ∈ dom b))).
  destruct (_ || _).
  2:{ intros [= <-]. eexists. split; [reflexivity |]. repeat split. }
  destruct (section_or_empty a key) as [la|e] eqn:Hla; simpl; [| discriminate].
  destruct (elements_by_name la ∅) as [am|e] eqn:Ham; simpl; [| discriminate].
  destruct (section_or_empty b key) as [lb|e] eqn:Hlb; simpl; [| discriminate].
  destruct (elements_by_name lb ∅) as [bm|e] eqn:Hbm; simpl; [| discriminate].
  intros [= <-]. eexists. split; [reflexivity |]. simpl. repeat split.
  rewrite (intersection_comm_L (dom bm) (dom am)).
  rewrite (list_filter_iff (fun n => bm !! n <> am !! n) (fun n => am !! n <> bm !! n))
    by (intros n; split; intros Hne Heq; apply Hne; symmetry; exact Heq).
  rewrite !omap_length_all; [reflexivity | |];
    intros n Hn; apply list_elem_of_filter in Hn as [_ Hn];
    apply elem_of_elements, elem_of_intersection in Hn as [Ha Hb];
    apply elem_of_dom; assumption.
Qed.

(** *** A schema file whose document did not change *)

Lemma well_formed_section (d : gmap string (@yaml_entry V)) key :
  well_formed_document d -> key ∈ section_keys ->
  get_diff_for key d d = Ok {| diff_deleted := []; diff_added := []; diff_changed := [] |}.
Proof.
  intros Hwf Hkey. unfold well_formed_document in Hwf. rewrite Forall_forall in Hwf.
  destruct (Hwf key Hkey) as (elems & Hs & Hnamed).
  exact (get_diff_for_self key d elems Hs Hnamed).
Qed.

Lemma handle_schema_file_changes_same_document r (d : gmap string (@yaml_entry V))
    (st : State) :
  well_formed_document d ->
  handle_schema_file_changes parse_file_type_to_parser r d d st = (Ok tt, st).
Proof.
  intros Hwf.
  assert (Hkey : forall key, key ∈ section_keys ->
            @lift V _ (get_diff_for key d d) st
            = (Ok {| diff_deleted := []; diff_added := []; diff_changed := [] |}, st)).
  { intros key Hk. unfold lift. rewrite (well_formed_section d key Hwf Hk). reflexivity. }
  assert (Hmssa : forall key elem, key ∈ section_keys ->
            handle_mssa_section parse_file_type_to_parser r d d key elem st
            = (Ok elem, st)).
  { intros key elem Hk. unfold handle_mssa_section.
    rewrite (bind_ok _ _ _ _ _ (Hkey key Hk)). reflexivity. }
  assert (Hsecs : forall keys elem, Forall (fun key => key ∈ section_keys) keys ->
            handle_mssa_sections parse_file_type_to_parser r d d keys elem st
            = (Ok elem, st)).
  { induction keys as [|key keys IH]; intros elem Hall; [reflexivity |].
    inversion Hall; subst. simpl.
    rewrite (bind_ok _ _ _ _ _ (Hmssa key elem ltac:(assumption))). apply IH. assumption. }
  assert (Hin : forall key, In key section_keys -> key ∈ section_keys)
    by (intros key Hk; apply list_elem_of_In; exact Hk).
  unfold handle_schema_file_changes.
  assert (Hfour : Forall (fun key => key ∈ section_keys)
                    ["models"; "seeds"; "snapshots"; "analyses"])
    by (repeat constructor; apply Hin; simpl; tauto).
  rewrite (bind_ok _ _ _ _ _ (Hsecs _ None Hfour)).
  assert (Hsrc : handle_sources r d d st = (Ok tt, st)).
  { unfold handle_sources.
    rewrite (bind_ok _ _ _ _ _ (Hkey "sources" ltac:(apply Hin; simpl; tauto))).
    reflexivity. }
  rewrite (bind_ok _ _ _ _ _ Hsrc).
  assert (Hmac : handle_macros parse_file_type_to_parser r d d None st = (Ok tt, st)).
  { unfold handle_macros.
    rewrite (bind_ok _ _ _ _ _ (Hkey "macros" ltac:(apply Hin; simpl; tauto))).
    reflexivity. }
  rewrite (bind_ok _ _ _ _ _ Hmac).
  unfold handle_exposures.
  rewrite (bind_ok _ _ _ _ _ (Hkey "exposures" ltac:(apply Hin; simpl; tauto))).
  reflexivity.
Qed.

(** X15: for a changed schema file whose document is the one saved (the
    checksum alone differs), [change_schema_file] removes nothing: both
    manifests stay as they are, the saved file object takes the contents and
    the checksum of the file read, its pending patches are its version
    alone, and it is scheduled. *)
Theorem change_schema_file_same_document (file_id_ : string) (rs rn : ref)
    (saved new : @SourceFile V) (v : @yaml_entry V) (parser_name : string) (st : State) :
  saved_files st !! file_id_ = Some rs ->
  new_files st !! file_id_ = Some rn ->
  rs <> rn ->
  heap st !! rs = Some saved ->
  heap st !! rn = Some new ->
  dict_from_yaml new = dict_from_yaml saved ->
  dict_from_yaml saved !! "version" = Some v ->
  well_formed_document (dict_from_yaml saved) ->
  parse_file_type_to_parser (parse_file_type saved) = Some parser_name ->
  parser_name <> "" -> project_name saved <> "" ->
  exists st',
    change_schema_file parse_file_type_to_parser file_id_ st = (Ok tt, st') /\
    saved_manifest st' = saved_manifest st /\
    deleted_manifest st' = deleted_manifest st /\
    heap st' = <[rs := copy_contents new (set_pp_dict (Some {["version" := v]}) saved)]>
                 (heap st) /\
    project_parser_files st' =
      schedule_add (project_name saved) parser_name (file_id saved)
        (deleted (file_diff st)) (project_parser_files st).
Proof.
  intros Hrs Hrn Hne Hs Hn Hdoc Hv Hwf Hpn Hpne Hpr. unfold change_schema_file.
  rewrite bind_get. unfold dict_get at 1. rewrite Hrs, bind_ret.
  unfold dict_get at 1. rewrite Hrn, bind_ret.
  rewrite (bind_ok _ _ _ _ _ (read_file_result rs st saved Hs)).
  rewrite (bind_ok _ _ _ _ _ (read_file_result rn st new Hn)).
  unfold dict_get. rewrite Hv, bind_ret.
  rewrite (bind_ok _ _ _ _ _ (write_file_result rs _ st saved Hs)).
  rewrite Hdoc.
  rewrite (bind_ok _ _ _ _ _ (handle_schema_file_changes_same_document rs _ _ Hwf)).
  set (st1 := set_heap _ st).
  assert (Hn1 : heap st1 !! rn = Some new).
  { subst st1. simpl. rewrite lookup_insert_ne by exact Hne. exact Hn. }
  rewrite (bind_ok _ _ _ _ _ (read_file_result rn st1 new Hn1)).
  erewrite (bind_ok _ _ st1 tt) by (apply write_file_result; apply lookup_insert_eq).
  erewrite add_to_pp_files_ok;
    [| apply lookup_insert_eq | exact Hpn | exact Hpne | exact Hpr].
  eexists. split; [reflexivity |]. simpl. repeat split.
  apply insert_insert_eq.
Qed.

(** *** Files deleted and files changed *)

Lemma bind_modify {B} (f : State -> State) (k : unit -> @M V B) st :
  bind (modify f) k st = k tt (f st).
Proof. reflexivity. Qed.

Lemma read_file_missing r (st : State) :
  heap st !! r = None -> read_file r st = (Raise NoSuchObject, st).
Proof. intros Hr. unfold read_file. rewrite bind_get, Hr. reflexivity. Qed.

(** The call of the method that the class does not have ends every run
    of [delete_mssat_file]. *)
Lemma delete_mssat_file_raises r (st : State) :
  exists e st', delete_mssat_file parse_file_type_to_parser r st = (Raise e, st').
Proof.
  unfold delete_mssat_file.
  destruct (heap st !! r) as [sf|] eqn:Hsf.
  2:{ eexists _, _. apply bind_raise. apply read_file_missing. exact Hsf. }
  rewrite (bind_ok _ _ _ _ _ (read_file_result r st sf Hsf)).
  destruct (sf_nodes sf) as [|uid rest]; simpl; [eexists _, _; reflexivity |].
  unfold bind.
  destruct (delete_node_in_saved parse_file_type_to_parser r uid st) as [[[]|e] st1];
    eexists _, _; reflexivity.
Qed.

(** [handle_macro_file_links] writes the macros of the two manifests and
    nothing else. *)
Lemma handle_macro_file_links_frame (Q : State -> Prop) r :
  (forall f g st, Q st -> Q (set_deleted (set_macros f) (set_saved (set_macros g) st))) ->
  preserves Q (handle_macro_file_links parse_file_type_to_parser r).
Proof.
  intros HQ. unfold handle_macro_file_links.
  apply preserves_bind; [apply preserves_read_file | intros sf].
  apply preserves_for_each. intros x st HP.
  destruct (move_macro_result x st) as [[e He] | (macro & Hm & He)].
  - rewrite (bind_raise _ _ _ _ _ He). exact HP.
  - rewrite (bind_ok _ _ _ _ _ He).
    set (st1 := set_deleted _ _).
    assert (Hgone : x ∉ dom (macros (saved_manifest st1))).
    { subst st1. simpl. intros Hin. apply elem_of_dom in Hin as [m' Hm'].
      rewrite lookup_delete_eq in Hm'. discriminate. }
    rewrite (bind_ok get _ st1 st1 st1 eq_refl).
    rewrite (bind_ok _ _ st1 tt st1).
    2:{ apply for_each_skip. intros [k macro']. apply schedule_dependent_skips. exact Hgone. }
    rewrite (bind_ok get _ st1 st1 st1 eq_refl).
    rewrite for_each_skip.
    2:{ intros [k node']. apply schedule_dependent_skips. exact Hgone. }
    apply HQ. exact HP.
Qed.

Lemma move_file_ok file_id_ r (st : State) :
  saved_files st !! file_id_ = Some r ->
  move_file file_id_ st
  = (Ok tt, set_deleted (set_files (insert file_id_ r))
              (set_saved (set_files (delete file_id_)) st)).
Proof.
  intros Hr. unfold move_file. rewrite bind_get. unfold dict_get. rewrite Hr. reflexivity.
Qed.

Lemma move_file_missing file_id_ (st : State) :
  saved_files st !! file_id_ = None -> move_file file_id_ st = (Raise (KeyError file_id_), st).
Proof.
  intros Hr. unfold move_file. rewrite bind_get. unfold dict_get. rewrite Hr. reflexivity.
Qed.

(** X16: [delete_from_saved] never returns for a SQL file, a macro file or
    a docs file that is saved under its own id: it raises, after the
    removals it made. *)
Theorem delete_from_saved_never_returns (file_id_ : string) (r : ref) (sf : @SourceFile V)
    (st : State) :
  saved_files st !! file_id_ = Some r ->
  heap st !! r = Some sf ->
  file_id sf = file_id_ ->
  parse_file_type sf ∈ mssat_files \/ parse_file_type sf = Macro \/
    parse_file_type sf = Documentation ->
  exists e st', delete_from_saved parse_file_type_to_parser file_id_ st = (Raise e, st').
Proof.
  intros Hr Hsf Hid Hkind. unfold delete_from_saved.
  rewrite bind_get. unfold dict_get at 1. rewrite Hr, bind_ret.
  rewrite (bind_ok _ _ _ _ _ (read_file_result r st sf Hsf)).
  assert (Hlast : forall st1 : State, heap st1 = heap st -> saved_files st1 = saved_files st ->
            exists st2, move_file (file_id sf) st1 = (Ok tt, st2) /\
                        move_file file_id_ st2 = (Raise (KeyError file_id_), st2)).
  { intros st1 Hh Hf. eexists. split.
    - apply move_file_ok. rewrite Hf, Hid. exact Hr.
    - apply move_file_missing. rewrite Hid. simpl. apply lookup_delete_eq. }
  destruct Hkind as [Hk | [Hk | Hk]].
  - rewrite (bool_decide_eq_true_2 _ Hk).
    destruct (delete_mssat_file_raises r st) as (e & st' & He).
    exists e, st'. apply bind_raise. exact He.
  - rewrite Hk.
    rewrite bool_decide_eq_false_2
      by (intros Hin; apply list_elem_of_In in Hin; simpl in Hin; intuition discriminate).
    rewrite bind_ret. destruct (decide (Macro = Macro)) as [_ | Hne]; [| congruence].
    destruct (decide (Macro = Documentation)) as [Heq | _]; [discriminate |].
    assert (Hframe := handle_macro_file_links_frame
              (fun s : State => heap s = heap st /\ saved_files s = saved_files st) r
              ltac:(intros f g s Hs; exact Hs) st (conj eq_refl eq_refl)).
    unfold delete_macro_file.
    destruct (handle_macro_file_links parse_file_type_to_parser r st) as [[[]|e] st1] eqn:Hh.
    + simpl in Hframe. destruct Hframe as [Hh1 Hf1].
      destruct (Hlast st1 Hh1 Hf1) as (st2 & Hmove & Hfail).
      assert (Hsf1 : heap st1 !! r = Some sf) by (rewrite Hh1; exact Hsf).
      exists (KeyError file_id_), st2.
      rewrite bind_assoc, (bind_ok _ _ _ _ _ Hh).
      rewrite bind_assoc, (bind_ok _ _ _ _ _ (read_file_result r st1 sf Hsf1)).
      rewrite (bind_ok _ _ _ _ _ Hmove), bind_ret. exact Hfail.
    + exists e, st1. apply bind_raise. apply bind_raise. exact Hh.
  - rewrite Hk.
    rewrite bool_decide_eq_false_2
      by (intros Hin; apply list_elem_of_In in Hin; simpl in Hin; intuition discriminate).
    rewrite bind_ret. destruct (decide (Documentation = Macro)) as [Heq | _]; [discriminate |].
    rewrite bind_ret.
    destruct (decide (Documentation = Documentation)) as [_ | Hne]; [| congruence].
    unfold delete_doc_file.
    rewrite bind_assoc, (bind_ok _ _ _ _ _ (read_file_result r st sf Hsf)).
    assert (Hframe : preserves (fun s : State => heap s = heap st /\
                                                saved_files s = saved_files st)
                       (for_each (sf_docs sf) move_doc))
      by (apply preserves_for_each; intros x; unfold move_doc; keep).
    specialize (Hframe st (conj eq_refl eq_refl)).
    destruct (for_each (sf_docs sf) move_doc st) as [[[]|e] st1] eqn:Hloop.
    + simpl in Hframe. destruct Hframe as [Hh1 Hf1].
      destruct (Hlast st1 Hh1 Hf1) as (st2 & Hmove & Hfail).
      exists (KeyError file_id_), st2.
      rewrite bind_assoc, (bind_ok _ _ _ _ _ Hloop).
      rewrite (bind_ok _ _ _ _ _ Hmove). exact Hfail.
    + exists e, st1. apply bind_raise. apply bind_raise. exact Hloop.
Qed.

(** X17: for a changed SQL file whose first node has no patch,
    [update_in_saved] puts the file read in the place of the saved one,
    records the saved one among the removed files, schedules the file read
    and moves that first node, and no other node of the file, to the
    removed manifest; the file objects stay as they are. *)
Theorem update_in_saved_unpatched_node (file_id_ : string) (rn ro : ref)
    (new old : @SourceFile V) (unique_id : string) (others : list string)
    (node : ParsedNode) (parser_name : string) (st : State) :
  new_files st !! file_id_ = Some rn ->
  saved_files st !! file_id_ = Some ro ->
  heap st !! rn = Some new ->
  heap st !! ro = Some old ->
  parse_file_type new ∈ mssat_files ->
  sf_nodes old = unique_id :: others ->
  nodes (saved_manifest st) !! unique_id = Some node ->
  patch_path node = None ->
  parse_file_type_to_parser (parse_file_type new) = Some parser_name ->
  parser_name <> "" -> project_name new <> "" ->
  exists st',
    update_in_saved parse_file_type_to_parser file_id_ st = (Ok tt, st') /\
    saved_files st' = <[file_id new := rn]> (saved_files st) /\
    files (deleted_manifest st') = <[file_id new := ro]> (files (deleted_manifest st)) /\
    nodes (saved_manifest st') = delete unique_id (nodes (saved_manifest st)) /\
    nodes (deleted_manifest st') = <[unique_id := node]> (nodes (deleted_manifest st)) /\
    same_entities (saved_manifest st) (saved_manifest st') /\
    same_entities (deleted_manifest st) (deleted_manifest st') /\
    project_parser_files st' =
      schedule_add (project_name new) parser_name (file_id new) (deleted (file_diff st))
        (project_parser_files st) /\
    heap st' = heap st.
Proof.
  intros Hnew Hold Hn Ho Hk Hnodes Hnode Hpatch Hpn Hne Hpr.
  unfold update_in_saved. rewrite bind_get.
  unfold dict_get at 1. rewrite Hnew, bind_ret.
  unfold dict_get at 1. rewrite Hold, bind_ret.
  rewrite (bind_ok _ _ _ _ _ (read_file_result rn st new Hn)).
  rewrite (bool_decide_eq_true_2 _ Hk).
  unfold update_mssat_in_saved.
  rewrite (bind_ok _ _ _ _ _ (read_file_result ro st old Ho)), Hnodes.
  rewrite (bind_ok _ _ _ _ _ (read_file_result rn st new Hn)).
  rewrite !bind_modify.
  set (st1 := set_saved _ _).
  rewrite (bind_ok _ _ _ _ _ (add_to_pp_files_ok rn st1 new parser_name Hn Hpn Hne Hpr)).
  set (st2 := set_project_parser_files _ _).
  unfold delete_node_in_saved.
  rewrite (bind_ok _ _ _ _ _ (move_node_ok unique_id node st2 Hnode)), Hpatch.
  eexists. split; [reflexivity |]. simpl. repeat split.
Qed.

Lemma find_elem_patch_none (elems : list Element) name found (st : State) :
  Forall (fun elem : Element => exists n, elem !! "name" = Some n /\ n <> YStr name) elems ->
  find_elem_patch elems name found st = (Ok found, st).
Proof.
  revert found. induction elems as [|elem elems IH]; intros found Hall; [reflexivity |].
  inversion Hall as [|? ? (n & Hn & Hne) Hall']; subst. simpl.
  unfold elem_name, dict_get. rewrite Hn, bind_ret.
  unfold str_eq_yaml. rewrite bool_decide_eq_false_2 by congruence.
  apply IH. exact Hall'.
Qed.

(** X18: when the node points to a schema file that is not deleted and
    whose section for the kind of the file has no element of the name of
    the node, [delete_node_in_saved] raises on the read of [elem_patch],
    which no round of the loop bound, and the node stays moved to the
    removed manifest. *)
Theorem delete_node_in_saved_unbound_patch (r rs : ref) (unique_id schema_id key : string)
    (node : ParsedNode) (src schema : @SourceFile V) (elems : list Element) (st : State) :
  nodes (saved_manifest st) !! unique_id = Some node ->
  patch_path node = Some schema_id ->
  schema_id <> "" ->
  str_in schema_id (deleted (file_diff st)) = false ->
  saved_files st !! schema_id = Some rs ->
  heap st !! r = Some src ->
  parse_file_type_to_key (parse_file_type src) = Some key ->
  heap st !! rs = Some schema ->
  dict_from_yaml schema !! key = Some (YElems elems) ->
  Forall (fun elem : Element => exists n, elem !! "name" = Some n /\ n <> YStr (node_name node))
    elems ->
  delete_node_in_saved parse_file_type_to_parser r unique_id st
  = (Raise (UnboundLocalError "elem_patch"),
     set_deleted (set_nodes (insert unique_id node))
       (set_saved (set_nodes (delete unique_id)) st)).
Proof.
  intros Hnode Hpatch Hne Hdel Hrs Hsrc Hkey Hschema Hsec Hall.
  unfold delete_node_in_saved.
  rewrite (bind_ok _ _ _ _ _ (move_node_ok unique_id node st Hnode)), Hpatch.
  destruct schema_id as [|c schema_id]; [congruence |].
  set (st1 := set_deleted _ _).
  rewrite bind_get.
  change (deleted (file_diff st1)) with (deleted (file_diff st)). rewrite Hdel. cbn [negb].
  unfold dict_get at 1. change (saved_files st1) with (saved_files st). rewrite Hrs, bind_ret.
  rewrite (bind_ok _ _ _ _ _ (read_file_result r st1 src Hsrc)), Hkey.
  cbv beta iota. rewrite bind_ret.
  rewrite (bind_ok _ _ _ _ _ (read_file_result rs st1 schema Hschema)).
  unfold section_get, dict_get. rewrite Hsec, bind_assoc, bind_ret. cbv beta iota.
  rewrite bind_ret.
  rewrite (bind_ok _ _ _ _ _ (find_elem_patch_none elems (node_name node) None st1 Hall)).
  reflexivity.
Qed.

(** X19: for a changed docs file, [update_in_saved] puts the file read in
    the place of the saved one and schedules it, and that is all: the docs
    of the saved manifest, the removed manifest and the file objects stay
    as they are. *)
Theorem update_in_saved_doc_file (file_id_ : string) (rn ro : ref) (new : @SourceFile V)
    (parser_name : string) (st : State) :
  new_files st !! file_id_ = Some rn ->
  saved_files st !! file_id_ = Some ro ->
  heap st !! rn = Some new ->
  parse_file_type new = Documentation ->
  parse_file_type_to_parser Documentation = Some parser_name ->
  parser_name <> "" -> project_name new <> "" ->
  update_in_saved parse_file_type_to_parser file_id_ st
  = (Ok tt,
     set_project_parser_files
       (schedule_add (project_name new) parser_name (file_id new) (deleted (file_diff st)))
       (set_saved (set_files (insert (file_id new) rn)) st)).
Proof.
  intros Hnew Hold Hn Hk Hpn Hne Hpr.
  unfold update_in_saved. rewrite bind_get.
  unfold dict_get at 1. rewrite Hnew, bind_ret.
  unfold dict_get at 1. rewrite Hold, bind_ret.
  rewrite (bind_ok _ _ _ _ _ (read_file_result rn st new Hn)).
  rewrite <- Hk in Hpn. rewrite Hk.
  rewrite bool_decide_eq_false_2
    by (intros Hin; apply list_elem_of_In in Hin; simpl in Hin; intuition discriminate).
  destruct (decide (Documentation = Macro)) as [Heq | _]; [discriminate |].
  destruct (decide (Documentation = Documentation)) as [_ | Hne']; [| congruence].
  unfold update_doc_in_saved.
  rewrite (bind_ok _ _ _ _ _ (read_file_result rn st new Hn)).
  rewrite bind_modify.
  exact (add_to_pp_files_ok rn (set_saved (set_files (insert (file_id new) rn)) st) new
           parser_name Hn Hpn Hne Hpr).
Qed.

(** *** Macro files *)

Lemma handle_macro_file_links_ok r sf (st : State) :
  heap st !! r = Some sf ->
  NoDup (sf_macros sf) ->
  Forall (fun unique_id => is_Some (macros (saved_manifest st) !! unique_id)) (sf_macros sf) ->
  exists st',
    handle_macro_file_links parse_file_type_to_parser r st = (Ok tt, st') /\
    entries_moved (sf_macros sf) (macros (saved_manifest st)) (macros (saved_manifest st'))
      (macros (deleted_manifest st)) (macros (deleted_manifest st')) /\
    same_but_macros st st'.
Proof.
  intros Hsf. unfold handle_macro_file_links.
  rewrite (bind_ok _ _ _ _ _ (read_file_result r st sf Hsf)).
  clear Hsf. generalize (sf_macros sf) as ids. intros ids.
  match goal with |- context [for_each ids ?b] => set (body := b) end.
  revert st. induction ids as [|uid ids IH]; intros st Hnd Hall.
  - exists st. split; [reflexivity |]. split.
    + split; intros k; rewrite bool_decide_eq_false_2; try reflexivity;
        intros Hin; inversion Hin.
    + unfold same_but_macros. destruct st as [[] ? ? [] ? ?]. reflexivity.
  - inversion Hnd as [|? ? Hnotin Hnd']; subst.
    inversion Hall as [|? ? [macro Hm] Hall']; subst.
    destruct (move_macro_result uid st) as [[e He] | (macro' & Hm' & He)].
    { exfalso. unfold move_macro in He. rewrite bind_get in He.
      unfold dict_get in He. rewrite Hm in He. discriminate. }
    rewrite Hm in Hm'. injection Hm' as <-.
    set (st1 := set_deleted _ _) in He.
    assert (Hgone : uid ∉ dom (macros (saved_manifest st1))).
    { subst st1. simpl. intros Hin. apply elem_of_dom in Hin as [m' Hm'].
      rewrite lookup_delete_eq in Hm'. discriminate. }
    assert (Hbody : body uid st = (Ok tt, st1)).
    { subst body. cbv beta. rewrite (bind_ok _ _ _ _ _ He).
      rewrite (bind_ok get _ st1 st1 st1 eq_refl).
      rewrite (bind_ok _ _ st1 tt st1).
      2:{ apply for_each_skip. intros [k macro']. apply schedule_dependent_skips. exact Hgone. }
      rewrite (bind_ok get _ st1 st1 st1 eq_refl).
      apply for_each_skip. intros [k node']. apply schedule_dependent_skips. exact Hgone. }
    cbn [for_each]. rewrite (bind_ok _ _ _ _ _ Hbody).
    destruct (IH st1) as (st' & Hrun & [Hs Hd] & Hsame).
    { exact Hnd'. }
    { rewrite Forall_forall in Hall' |- *. intros x Hx. subst st1. simpl.
      rewrite lookup_delete_ne by (intros ->; exact (Hnotin Hx)). exact (Hall' x Hx). }
    exists st'. split; [exact Hrun |]. split; [split |].
    + intros k. rewrite Hs. subst st1. simpl.
      destruct (decide (k = uid)) as [-> | Hne].
      * rewrite lookup_delete_eq.
        rewrite (bool_decide_eq_true_2 (uid ∈ uid :: ids)) by (apply elem_of_cons; left; reflexivity).
        destruct (bool_decide (uid ∈ ids)); reflexivity.
      * rewrite lookup_delete_ne by congruence.
        destruct (decide (k ∈ ids)) as [Hin | Hout].
        -- rewrite !bool_decide_eq_true_2;
             [reflexivity | apply elem_of_cons; right; exact Hin | exact Hin].
        -- rewrite !bool_decide_eq_false_2; [reflexivity | | exact Hout].
           intros Hin. apply elem_of_cons in Hin as [Heq | Hin]; [congruence | exact (Hout Hin)].
    + intros k. rewrite Hd. subst st1. simpl.
      destruct (decide (k = uid)) as [-> | Hne].
      * rewrite (bool_decide_eq_false_2 _ Hnotin).
        rewrite (bool_decide_eq_true_2 (uid ∈ uid :: ids)) by (apply elem_of_cons; left; reflexivity).
        rewrite lookup_insert_eq. symmetry. exact Hm.
      * destruct (decide (k ∈ ids)) as [Hin | Hout].
        -- rewrite !bool_decide_eq_true_2;
             [apply lookup_delete_ne; congruence | apply elem_of_cons; right; exact Hin
             | exact Hin].
        -- rewrite !bool_decide_eq_false_2; [apply lookup_insert_ne; congruence | | exact Hout].
           intros Hin. apply elem_of_cons in Hin as [Heq | Hin]; [congruence | exact (Hout Hin)].
    + unfold same_but_macros in *.
      remember (macros (deleted_manifest st')) as X eqn:HX.
      remember (macros (saved_manifest st')) as Y eqn:HY. clear HX HY.
      rewrite Hsame. subst st1. destruct st as [[] ? ? [] ? ?]. reflexivity.
Qed.

(** X20: for a changed macro file whose macros are in the saved manifest,
    each once, [update_in_saved] moves exactly these macros to the removed
    manifest, puts the file read in the place of the saved one and
    schedules that file and no other; the nodes and the file objects stay as
    they are. *)
Theorem update_in_saved_macro_file (file_id_ : string) (rn ro : ref)
    (new old : @SourceFile V) (parser_name : string) (st : State) :
  new_files st !! file_id_ = Some rn ->
  saved_files st !! file_id_ = Some ro ->
  heap st !! rn = Some new ->
  heap st !! ro = Some old ->
  parse_file_type new = Macro ->
  NoDup (sf_macros old) ->
  Forall (fun unique_id => is_Some (macros (saved_manifest st) !! unique_id)) (sf_macros old) ->
  parse_file_type_to_parser Macro = Some parser_name ->
  parser_name <> "" -> project_name new <> "" ->
  exists st',
    update_in_saved parse_file_type_to_parser file_id_ st = (Ok tt, st') /\
    entries_moved (sf_macros old) (macros (saved_manifest st)) (macros (saved_manifest st'))
      (macros (deleted_manifest st)) (macros (deleted_manifest st')) /\
    saved_files st' = <[file_id new := rn]> (saved_files st) /\
    files (deleted_manifest st') = files (deleted_manifest st) /\
    nodes (saved_manifest st') = nodes (saved_manifest st) /\
    nodes (deleted_manifest st') = nodes (deleted_manifest st) /\
    project_parser_files st' =
      schedule_add (project_name new) parser_name (file_id new) (deleted (file_diff st))
        (project_parser_files st) /\
    heap st' = heap st.
Proof.
  intros Hnew Hold Hn Ho Hk Hnd Hall Hpn Hne Hpr.
  unfold update_in_saved. rewrite bind_get.
  unfold dict_get at 1. rewrite Hnew, bind_ret.
  unfold dict_get at 1. rewrite Hold, bind_ret.
  rewrite (bind_ok _ _ _ _ _ (read_file_result rn st new Hn)).
  rewrite <- Hk in Hpn. rewrite Hk.
  rewrite bool_decide_eq_false_2
    by (intros Hin; apply list_elem_of_In in Hin; simpl in Hin; intuition discriminate).
  destruct (decide (Macro = Macro)) as [_ | Hne']; [| congruence].
  destruct (handle_macro_file_links_ok ro old st Ho Hnd Hall) as (st1 & Hrun & Hmoved & Hsame).
  unfold update_macro_in_saved. rewrite (bind_ok _ _ _ _ _ Hrun).
  assert (Hn1 : heap st1 !! rn = Some new) by (rewrite Hsame; exact Hn).
  rewrite (bind_ok _ _ _ _ _ (read_file_result rn st1 new Hn1)).
  rewrite bind_modify.
  erewrite add_to_pp_files_ok; [| exact Hn1 | exact Hpn | exact Hne | exact Hpr].
  eexists. split; [reflexivity |]. simpl.
  split; [exact Hmoved |]. rewrite Hsame. simpl. repeat split.
Qed.

(** *** Macro patches and exposures of a schema file *)

(** A file of the deleted bucket adds no id to the schedule. *)
Lemma scheduled_schedule_add_deleted project parser file_id_ deleted x ppf :
  file_id_ ∈ deleted ->
  scheduled x (schedule_add project parser file_id_ deleted ppf) -> scheduled x ppf.
Proof.
  intros Hdel (project' & bp & parser' & ids & Hp & Hb & Hin).
  unfold schedule_add in Hp. unfold str_in in Hp.
  rewrite (bool_decide_eq_true_2 (file_id_ ∈ deleted) Hdel) in Hp.
  rewrite andb_false_r in Hp.
  destruct (decide (project = project')) as [<- | Hpne].
  - rewrite lookup_insert_eq in Hp. injection Hp as <-.
    destruct (decide (parser = parser')) as [<- | Hpane].
    + rewrite lookup_insert_eq in Hb. injection Hb as <-.
      destruct (ppf !! project) as [bp0|] eqn:Hp0; simpl in Hin.
      * destruct (bp0 !! parser) as [ids0|] eqn:Hb0; simpl in Hin; [| inversion Hin].
        exists project, bp0, parser, ids0. repeat split; assumption.
      * rewrite lookup_empty in Hin. inversion Hin.
    + rewrite lookup_insert_ne in Hb by exact Hpane.
      destruct (ppf !! project) as [bp0|] eqn:Hp0; simpl in Hb.
      * exists project, bp0, parser', ids. repeat split; assumption.
      * rewrite lookup_empty in Hb. discriminate.
  - rewrite lookup_insert_ne in Hp by exact Hpne.
    exists project', bp, parser', ids. repeat split; assumption.
Qed.

Lemma find_macro_patch_first ids (macro : Element) n (st : State) :
  macro !! "name" = Some n ->
  find_macro_patch ids macro st = (Ok (first_macro_patch n ids), st).
Proof.
  intros Hn. induction ids as [|uid ids IH]; simpl; [reflexivity |].
  unfold elem_name, dict_get. rewrite Hn, bind_ret.
  destruct (str_eq_yaml (last_part uid) n); [reflexivity | exact IH].
Qed.

(** X21: when none of the macro patches recorded in the schema file ends
    with the name of the macro element, [delete_schema_macro_patch] raises
    on the read of [macro_unique_id], which no round of the loop bound, and
    changes nothing. *)
Theorem delete_schema_macro_patch_unbound (r : ref) (sf : @SourceFile V) (macro : Element)
    (n : @yaml_value V) (st : State) :
  heap st !! r = Some sf ->
  macro !! "name" = Some n ->
  first_macro_patch n (macro_patches sf) = None ->
  delete_schema_macro_patch parse_file_type_to_parser r macro st
  = (Raise (UnboundLocalError "macro_unique_id"), st).
Proof.
  intros Hsf Hn Hnone. unfold delete_schema_macro_patch.
  rewrite (bind_ok _ _ _ _ _ (read_file_result r st sf Hsf)).
  rewrite (bind_ok _ _ _ _ _ (find_macro_patch_first (macro_patches sf) macro n st Hn)).
  rewrite Hnone. reflexivity.
Qed.

(** X22: when a macro patch recorded in the schema file ends with the
    name of the macro element, the first such macro is moved from the saved
    manifest to the removed one, the saved file of that macro is passed to
    [add_to_pp_files] and the id leaves the macro patches of the schema
    file; the file of the macro is in the schedule afterwards when it is
    not in the bucket of the deleted files, and otherwise the schedule
    holds no id that it did not hold. *)
Theorem delete_schema_macro_patch_unlinks (r rf : ref) (sf f : @SourceFile V)
    (macro : Element) (n : @yaml_value V) (unique_id parser_name : string)
    (m : ParsedMacro) (st : State) :
  heap st !! r = Some sf ->
  macro !! "name" = Some n ->
  first_macro_patch n (macro_patches sf) = Some unique_id ->
  unique_id <> "" ->
  macros (saved_manifest st) !! unique_id = Some m ->
  saved_files st !! macro_file_id m = Some rf ->
  heap st !! rf = Some f ->
  parse_file_type_to_parser (parse_file_type f) = Some parser_name ->
  parser_name <> "" -> project_name f <> "" ->
  exists l st',
    list_remove unique_id (macro_patches sf) = Ok l /\
    delete_schema_macro_patch parse_file_type_to_parser r macro st = (Ok tt, st') /\
    st' = set_heap (insert r (set_macro_patches l sf))
            (set_project_parser_files
               (schedule_add (project_name f) parser_name (file_id f)
                  (deleted (file_diff st)))
               (set_deleted (set_macros (insert unique_id m))
                  (set_saved (set_macros (delete unique_id)) st))) /\
    (file_id f ∉ deleted (file_diff st) ->
     scheduled (file_id f) (project_parser_files st')) /\
    (file_id f ∈ deleted (file_diff st) ->
     forall file_id_, scheduled file_id_ (project_parser_files st') ->
                      scheduled file_id_ (project_parser_files st)).
Proof.
  intros Hsf Hn Hfirst Hne Hm Hrf Hf Hpn Hpne Hpr.
  cut (exists l,
    list_remove unique_id (macro_patches sf) = Ok l /\
    delete_schema_macro_patch parse_file_type_to_parser r macro st
    = (Ok tt,
       set_heap (insert r (set_macro_patches l sf))
         (set_project_parser_files
            (schedule_add (project_name f) parser_name (file_id f) (deleted (file_diff st)))
            (set_deleted (set_macros (insert unique_id m))
               (set_saved (set_macros (delete unique_id)) st))))).
  { intros (l & Hl & Hrun). eexists l, _. split; [exact Hl |]. split; [exact Hrun |].
    split; [reflexivity |]. split.
    - intros Hdel. simpl. apply scheduled_schedule_add. exact Hdel.
    - intros Hdel file_id_. simpl. apply scheduled_schedule_add_deleted. exact Hdel. }
  assert (Hin : unique_id ∈ macro_patches sf).
  { apply find_some in Hfirst as [Hin _]. apply list_elem_of_In. exact Hin. }
  destruct (list_remove_in _ _ Hin) as [l Hl]. exists l. split; [exact Hl |].
  unfold delete_schema_macro_patch.
  rewrite (bind_ok _ _ _ _ _ (read_file_result r st sf Hsf)).
  rewrite (bind_ok _ _ _ _ _ (find_macro_patch_first (macro_patches sf) macro n st Hn)).
  rewrite Hfirst. cbv beta iota. rewrite bind_get.
  apply String.eqb_neq in Hne. rewrite Hne.
  rewrite bool_decide_eq_true_2 by (apply elem_of_dom; eauto). cbn [negb andb].
  destruct (move_macro_result unique_id st) as [[e He] | (m' & Hm' & He)].
  { exfalso. unfold move_macro in He. rewrite bind_get in He.
    unfold dict_get in He. rewrite Hm in He. discriminate. }
  rewrite Hm in Hm'. injection Hm' as <-.
  rewrite !bind_assoc, (bind_ok _ _ _ _ _ He).
  set (st1 := set_deleted _ _).
  rewrite bind_assoc, bind_get. unfold dict_get.
  change (saved_files st1) with (saved_files st). rewrite Hrf.
  rewrite bind_assoc, bind_ret.
  rewrite (bind_ok _ _ _ _ _ (add_to_pp_files_ok rf st1 f parser_name Hf Hpn Hpne Hpr)).
  set (st2 := set_project_parser_files _ _).
  rewrite (bind_ok _ _ _ _ _ (read_file_result r st2 sf Hsf)).
  unfold str_in. rewrite (bool_decide_eq_true_2 _ Hin).
  exact (remove_from_ok r macro_patches set_macro_patches unique_id st2 sf l Hsf Hl).
Qed.

(** X23: [delete_schema_exposure] looks every exposure recorded in the
    schema file up in the saved manifest before it tests whether it is
    there: when one of them is gone from the manifest, the call raises the
    [KeyError] of a recorded id. *)
Theorem delete_schema_exposure_missing (r : ref) (sf : @SourceFile V)
    (exposure_dict : Element) (n : @yaml_value V) (st : State) :
  heap st !! r = Some sf ->
  exposure_dict !! "name" = Some n ->
  Exists (fun unique_id => exposures (saved_manifest st) !! unique_id = None)
    (sf_exposures sf) ->
  exists unique_id st',
    unique_id ∈ sf_exposures sf /\
    delete_schema_exposure r exposure_dict st = (Raise (KeyError unique_id), st').
Proof.
  intros Hsf Hn. unfold delete_schema_exposure.
  unfold elem_name, dict_get at 1. rewrite Hn, bind_ret.
  rewrite (bind_ok _ _ _ _ _ (read_file_result r st sf Hsf)).
  clear Hsf. generalize (sf_exposures sf) as ids. intros ids. revert st.
  induction ids as [|uid ids IH]; intros st Hex; [inversion Hex |].
  cbn [for_each]. rewrite bind_assoc, bind_get. unfold dict_get at 1.
  destruct (exposures (saved_manifest st) !! uid) as [exposure|] eqn:Hu.
  - assert (Hrest : Exists (fun unique_id => exposures (saved_manifest st) !! unique_id = None)
                      ids)
      by (inversion Hex as [? ? Hhead | ? ? Htail]; subst; [congruence | exact Htail]).
    rewrite bind_assoc, bind_ret.
    destruct (str_eq_yaml (entry_name exposure) n).
    + rewrite bind_assoc, bind_modify, bind_modify.
      destruct (IH (set_deleted (set_exposures (insert uid exposure))
                      (set_saved (set_exposures (delete uid)) st)))
        as (uid' & st' & Hin & Hrun).
      { eapply Exists_impl; [exact Hrest |]. intros x Hx. simpl.
        apply lookup_delete_None. right. exact Hx. }
      exists uid', st'. split; [apply elem_of_cons; right; exact Hin | exact Hrun].
    + rewrite bind_ret.
      destruct (IH st Hrest) as (uid' & st' & Hin & Hrun).
      exists uid', st'. split; [apply elem_of_cons; right; exact Hin | exact Hrun].
  - exists uid, st. split; [apply elem_of_cons; left; reflexivity | reflexivity].
Qed.

Lemma filter_agree {A} (P Q : A -> Prop) `{!forall x, Decision (P x)}
    `{!forall x, Decision (Q x)} (l : list A) :
  (forall x, x ∈ l -> (P x <-> Q x)) -> filter P l = filter Q l.
Proof.
  induction l as [|x l IH]; intros Hagree; [reflexivity |].
  rewrite !filter_cons.
  assert (Hx : P x <-> Q x) by (apply Hagree; apply elem_of_cons; left; reflexivity).
  rewrite IH by (intros y Hy; apply Hagree; apply elem_of_cons; right; exact Hy).
  destruct (decide (P x)), (decide (Q x)); tauto || reflexivity.
Qed.

(** X24: when the exposures recorded in the schema file are in the saved
    manifest, each once, [delete_schema_exposure] moves the ones with the
    name of the element to the removed manifest, and changes nothing else. *)
Theorem delete_schema_exposure_moves (r : ref) (sf : @SourceFile V)
    (exposure_dict : Element) (n : @yaml_value V) (st : State) :
  heap st !! r = Some sf ->
  exposure_dict !! "name" = Some n ->
  NoDup (sf_exposures sf) ->
  Forall (fun unique_id => is_Some (exposures (saved_manifest st) !! unique_id))
    (sf_exposures sf) ->
  exists st',
    delete_schema_exposure r exposure_dict st = (Ok tt, st') /\
    entries_moved (named_entries n (exposures (saved_manifest st)) (sf_exposures sf))
      (exposures (saved_manifest st)) (exposures (saved_manifest st'))
      (exposures (deleted_manifest st)) (exposures (deleted_manifest st')) /\
    same_but_exposures st st'.
Proof.
  intros Hsf Hn. unfold delete_schema_exposure.
  unfold elem_name, dict_get at 1. rewrite Hn, bind_ret.
  rewrite (bind_ok _ _ _ _ _ (read_file_result r st sf Hsf)).
  clear Hsf. generalize (sf_exposures sf) as ids. intros ids. revert st.
  induction ids as [|uid ids IH]; intros st Hnd Hall.
  - exists st. split; [reflexivity |]. split.
    + split; intros k; rewrite bool_decide_eq_false_2; try reflexivity;
        intros Hin; inversion Hin.
    + unfold same_but_exposures. destruct st as [[] ? ? [] ? ?]. reflexivity.
  - inversion Hnd as [|? ? Hnotin Hnd']; subst.
    inversion Hall as [|? ? [exposure Hu] Hall']; subst.
    cbn [for_each]. rewrite bind_assoc, bind_get. unfold dict_get at 1.
    rewrite Hu, bind_assoc, bind_ret.
    assert (Huid : is_named n (exposures (saved_manifest st)) uid
                   = str_eq_yaml (entry_name exposure) n)
      by (unfold is_named; rewrite Hu; reflexivity).
    unfold named_entries. rewrite filter_cons.
    destruct (str_eq_yaml (entry_name exposure) n) eqn:Hname.
    + rewrite decide_True by exact Huid.
      rewrite bind_assoc, bind_modify, bind_modify.
      set (st1 := set_deleted _ _).
      destruct (IH st1) as (st' & Hrun & [Hs Hd] & Hsame).
      { exact Hnd'. }
      { rewrite Forall_forall in Hall' |- *. intros x Hx. subst st1. simpl.
        rewrite lookup_delete_ne by (intros ->; exact (Hnotin Hx)). exact (Hall' x Hx). }
      assert (Hfilter : named_entries n (exposures (saved_manifest st1)) ids
                        = named_entries n (exposures (saved_manifest st)) ids).
      { apply filter_agree. intros x Hx. unfold is_named. subst st1. simpl.
        rewrite lookup_delete_ne by (intros ->; exact (Hnotin Hx)). reflexivity. }
      rewrite Hfilter in Hs, Hd. unfold named_entries in Hs, Hd.
      set (matching := filter _ ids) in *.
      assert (Hout : uid ∉ matching).
      { subst matching. intros Hin. apply list_elem_of_filter in Hin as [_ Hin].
        exact (Hnotin Hin). }
      exists st'. split; [exact Hrun |]. split; [split |].
      * intros k. rewrite Hs. subst st1. simpl.
        destruct (decide (k = uid)) as [-> | Hne].
        -- rewrite lookup_delete_eq.
           rewrite (bool_decide_eq_true_2 (uid ∈ uid :: matching))
             by (apply elem_of_cons; left; reflexivity).
           destruct (bool_decide (uid ∈ matching)); reflexivity.
        -- rewrite lookup_delete_ne by congruence.
           destruct (decide (k ∈ matching)) as [Hin | Hnin].
           ++ rewrite !bool_decide_eq_true_2;
                [reflexivity | apply elem_of_cons; right; exact Hin | exact Hin].
           ++ rewrite !bool_decide_eq_false_2; [reflexivity | | exact Hnin].
              intros Hin. apply elem_of_cons in Hin as [Heq | Hin];
                [congruence | exact (Hnin Hin)].
      * intros k. rewrite Hd. subst st1. simpl.
        destruct (decide (k = uid)) as [-> | Hne].
        -- rewrite (bool_decide_eq_false_2 _ Hout).
           rewrite (bool_decide_eq_true_2 (uid ∈ uid :: matching))
             by (apply elem_of_cons; left; reflexivity).
           rewrite lookup_insert_eq. symmetry. exact Hu.
        -- destruct (decide (k ∈ matching)) as [Hin | Hnin].
           ++ rewrite !bool_decide_eq_true_2;
                [apply lookup_delete_ne; congruence | apply elem_of_cons; right; exact Hin
                | exact Hin].
           ++ rewrite !bool_decide_eq_false_2;
                [apply lookup_insert_ne; congruence | | exact Hnin].
              intros Hin. apply elem_of_cons in Hin as [Heq | Hin];
                [congruence | exact (Hnin Hin)].
      * unfold same_but_exposures in *.
        remember (exposures (deleted_manifest st')) as X eqn:HX.
        remember (exposures (saved_manifest st')) as Y eqn:HY. clear HX HY.
        rewrite Hsame. subst st1. destruct st as [[] ? ? [] ? ?]. reflexivity.
    + rewrite decide_False by (rewrite Huid; discriminate). rewrite bind_ret.
      destruct (IH st Hnd' Hall') as (st' & Hrun & Hmoved & Hsame).
      exists st'. split; [exact Hrun |]. split; [exact Hmoved | exact Hsame].
Qed.

(** *** What a run writes *)

Create HintDb writes_db.

Section Writes.
(** A property of the state that every write of a run keeps: the saved
    manifest loses entries, the removed manifest gets entries, the schedule
    is free, and a file object changes in what it records alone. *)
Variable P : State -> Prop.
Hypothesis P_saved :
  forall f st, (forall m, manifest_shrinks m (f m)) -> P st -> P (set_saved f st).
Hypothesis P_deleted :
  forall f st, (forall m, manifest_grows m (f m)) -> P st -> P (set_deleted f st).
Hypothesis P_schedule : forall f st, P st -> P (set_project_parser_files f st).
Hypothesis P_write :
  forall r f st, keeps_identity f -> P st -> P (snd (write_file r f st)).

Lemma writes_write_file r f : keeps_identity f -> preserves P (write_file r f).
Proof. intros Hf st HP. apply P_write; assumption. Qed.

Lemma writes_modify_saved f :
  (forall m, manifest_shrinks m (f m)) -> preserves P (modify (set_saved f)).
Proof. intros Hf st HP. apply P_saved; assumption. Qed.

Lemma writes_modify_deleted f :
  (forall m, manifest_grows m (f m)) -> preserves P (modify (set_deleted f)).
Proof. intros Hf st HP. apply P_deleted; assumption. Qed.

Lemma writes_modify_schedule f : preserves P (modify (set_project_parser_files f)).
Proof. intros st HP. apply P_schedule. exact HP. Qed.

Lemma writes_remove_from r g s uid :
  (forall l, keeps_identity (s l)) -> preserves P (remove_from r g s uid).
Proof.
  intros Hs. unfold remove_from.
  apply preserves_bind; [apply preserves_read_file | intros sf].
  apply preserves_bind; [apply preserves_lift | intros l].
  apply writes_write_file. apply Hs.
Qed.

Ltac identity := intros ?; unfold same_identity; simpl; repeat split.
Ltac shrinks :=
  intros ?; unfold manifest_shrinks; simpl; repeat split; try reflexivity;
  apply delete_subseteq.
Ltac grows :=
  intros ?; unfold manifest_grows; simpl; repeat split; try reflexivity;
  apply dom_insert_subseteq.

Ltac writes_step :=
  match goal with
  | |- preserves _ (bind _ _) => apply preserves_bind; [| intros ?]
  | |- preserves _ (ret _) => apply preserves_ret
  | |- preserves _ (raise _) => apply preserves_raise
  | |- preserves _ get => apply preserves_get
  | |- preserves _ (lift _) => apply preserves_lift
  | |- preserves _ (dict_get _ _) => apply preserves_dict_get
  | |- preserves _ (elem_name _) => apply preserves_dict_get
  | |- preserves _ (read_file _) => apply preserves_read_file
  | |- preserves _ (write_file _ _) => apply writes_write_file; identity
  | |- preserves _ (modify (set_saved _)) => apply writes_modify_saved; shrinks
  | |- preserves _ (modify (set_deleted _)) => apply writes_modify_deleted; grows
  | |- preserves _ (modify (set_project_parser_files _)) => apply writes_modify_schedule
  | |- preserves _ (remove_from _ _ _ _) => apply writes_remove_from; intros ?; identity
  | |- preserves _ (for_each _ _) => apply preserves_for_each; intros ?; cbv beta
  | |- preserves _ (match ?x with _ => _ end) => destruct x
  | |- preserves _ (let (_, _) := ?x in _) => destruct x
  end.
Ltac writes := repeat (writes_step || solve [auto with writes_db]).

Lemma writes_add_to_pp_files r : preserves P (add_to_pp_files parse_file_type_to_parser r).
Proof. unfold add_to_pp_files. writes. Qed.

Lemma writes_move_node uid : preserves P (move_node uid).
Proof. unfold move_node. writes. Qed.

Lemma writes_move_macro uid : preserves P (move_macro uid).
Proof. unfold move_macro. writes. Qed.

Lemma writes_move_doc uid : preserves P (move_doc uid).
Proof. unfold move_doc. writes. Qed.

Lemma writes_move_file fid : preserves P (move_file fid).
Proof. unfold move_file. writes. Qed.

Lemma writes_patch_found elems patch found : preserves P (patch_found elems patch found).
Proof. revert found. induction elems; intros found; simpl; writes. Qed.

Lemma writes_pending_patches r : preserves P (pending_patches r).
Proof. unfold pending_patches, seed_pp_dict. writes. Qed.

Lemma writes_merge_patch r key patch : preserves P (merge_patch r key patch).
Proof.
  unfold merge_patch. writes;
    first [apply writes_pending_patches | apply writes_patch_found].
Qed.

Lemma writes_build_test_index ids index : preserves P (build_test_index ids index).
Proof. revert index. induction ids; intros index; simpl; writes. Qed.

Lemma writes_get_tests_for r name : preserves P (get_tests_for r name).
Proof. unfold get_tests_for. writes; apply writes_build_test_index. Qed.

Lemma writes_find_node_patch prefix ids elem : preserves P (find_node_patch prefix ids elem).
Proof. induction ids; simpl; writes. Qed.

Lemma writes_delete_schema_mssa_links r key elem :
  preserves P (delete_schema_mssa_links parse_file_type_to_parser r key elem).
Proof.
  unfold delete_schema_mssa_links. writes;
    first [ apply writes_find_node_patch | apply writes_move_node
          | apply writes_add_to_pp_files | apply writes_get_tests_for ].
Qed.

#[local] Hint Resolve writes_add_to_pp_files writes_move_node writes_move_macro
  writes_move_doc writes_move_file writes_patch_found writes_merge_patch
  writes_build_test_index writes_get_tests_for writes_find_node_patch
  writes_delete_schema_mssa_links : writes_db.

Lemma writes_find_elem_patch elems name found :
  preserves P (find_elem_patch elems name found).
Proof. revert found. induction elems; intros found; simpl; writes. Qed.

Lemma writes_section_get d key : preserves P (section_get d key).
Proof. unfold section_get. writes. Qed.

#[local] Hint Resolve writes_find_elem_patch writes_section_get : writes_db.

Lemma writes_delete_node_in_saved r uid :
  preserves P (delete_node_in_saved parse_file_type_to_parser r uid).
Proof. unfold delete_node_in_saved. writes. Qed.

#[local] Hint Resolve writes_delete_node_in_saved : writes_db.

Lemma writes_update_mssat_in_saved rn ro :
  preserves P (update_mssat_in_saved parse_file_type_to_parser rn ro).
Proof. unfold update_mssat_in_saved. writes. Qed.

Lemma writes_schedule_dependent uid fid deps :
  preserves P (schedule_dependent parse_file_type_to_parser uid fid deps).
Proof. unfold schedule_dependent. writes. Qed.

#[local] Hint Resolve writes_update_mssat_in_saved writes_schedule_dependent : writes_db.

Lemma writes_handle_macro_file_links r :
  preserves P (handle_macro_file_links parse_file_type_to_parser r).
Proof. unfold handle_macro_file_links. writes. Qed.

#[local] Hint Resolve writes_handle_macro_file_links : writes_db.

Lemma writes_update_macro_in_saved rn ro :
  preserves P (update_macro_in_saved parse_file_type_to_parser rn ro).
Proof. unfold update_macro_in_saved. writes. Qed.

Lemma writes_update_doc_in_saved rn ro :
  preserves P (update_doc_in_saved parse_file_type_to_parser rn ro).
Proof. unfold update_doc_in_saved. writes. Qed.

Lemma writes_delete_mssat_file r :
  preserves P (delete_mssat_file parse_file_type_to_parser r).
Proof. unfold delete_mssat_file. writes. Qed.

Lemma writes_delete_macro_file r :
  preserves P (delete_macro_file parse_file_type_to_parser r).
Proof. unfold delete_macro_file. writes. Qed.

Lemma writes_delete_doc_file r : preserves P (delete_doc_file r).
Proof. unfold delete_doc_file. writes. Qed.

#[local] Hint Resolve writes_update_macro_in_saved writes_update_doc_in_saved
  writes_delete_mssat_file writes_delete_macro_file writes_delete_doc_file
  : writes_db.

Lemma writes_delete_from_saved fid :
  preserves P (delete_from_saved parse_file_type_to_parser fid).
Proof. unfold delete_from_saved. writes. Qed.

Lemma writes_update_in_saved fid :
  preserves P (update_in_saved parse_file_type_to_parser fid).
Proof. unfold update_in_saved. writes. Qed.

Lemma writes_delete_schema_source r d : preserves P (delete_schema_source r d).
Proof. unfold delete_schema_source. writes. Qed.

Lemma writes_find_macro_patch ids macro : preserves P (find_macro_patch ids macro).
Proof. induction ids; simpl; writes. Qed.

#[local] Hint Resolve writes_delete_from_saved writes_update_in_saved
  writes_delete_schema_source writes_find_macro_patch : writes_db.

Lemma writes_delete_schema_macro_patch r macro :
  preserves P (delete_schema_macro_patch parse_file_type_to_parser r macro).
Proof. unfold delete_schema_macro_patch. writes. Qed.

Lemma writes_delete_schema_exposure r d : preserves P (delete_schema_exposure r d).
Proof. unfold delete_schema_exposure. writes. Qed.

#[local] Hint Resolve writes_delete_schema_macro_patch writes_delete_schema_exposure
  : writes_db.

Lemma writes_handle_mssa_section r sd nd key elem :
  preserves P (handle_mssa_section parse_file_type_to_parser r sd nd key elem).
Proof. unfold handle_mssa_section. writes. Qed.

#[local] Hint Resolve writes_handle_mssa_section : writes_db.

Lemma writes_handle_mssa_sections r sd nd keys elem :
  preserves P (handle_mssa_sections parse_file_type_to_parser r sd nd keys elem).
Proof. revert elem. induction keys; intros elem; simpl; writes. Qed.

Lemma writes_reject_override what r source : preserves P (reject_override what r source).
Proof. unfold reject_override. writes. Qed.

#[local] Hint Resolve writes_handle_mssa_sections writes_reject_override : writes_db.

Lemma writes_handle_sources r sd nd : preserves P (handle_sources r sd nd).
Proof. unfold handle_sources, changed_source, deleted_source, added_source. writes. Qed.

Lemma writes_handle_macros r sd nd elem :
  preserves P (handle_macros parse_file_type_to_parser r sd nd elem).
Proof. unfold handle_macros. writes. Qed.

Lemma writes_handle_exposures r sd nd : preserves P (handle_exposures r sd nd).
Proof. unfold handle_exposures. writes. Qed.

#[local] Hint Resolve writes_handle_sources writes_handle_macros
  writes_handle_exposures : writes_db.

Lemma writes_handle_schema_file_changes r sd nd :
  preserves P (handle_schema_file_changes parse_file_type_to_parser r sd nd).
Proof. unfold handle_schema_file_changes. writes. Qed.

#[local] Hint Resolve writes_handle_schema_file_changes : writes_db.

Lemma writes_change_schema_file fid :
  preserves P (change_schema_file parse_file_type_to_parser fid).
Proof. unfold change_schema_file. writes. Qed.

Lemma writes_delete_schema_file fid :
  preserves P (delete_schema_file parse_file_type_to_parser fid).
Proof. unfold delete_schema_file. writes. Qed.

Lemma writes_add_to_saved fid :
  preserves P (add_to_saved parse_file_type_to_parser fid).
Proof. unfold add_to_saved. writes. Qed.

#[local] Hint Resolve writes_change_schema_file writes_delete_schema_file
  writes_add_to_saved : writes_db.

Lemma writes_get_parsing_files :
  preserves P (get_parsing_files parse_file_type_to_parser).
Proof. unfold get_parsing_files. writes. Qed.

End Writes.

Lemma manifest_shrinks_trans (m1 m2 m3 : Manifest) :
  manifest_shrinks m1 m2 -> manifest_shrinks m2 m3 -> manifest_shrinks m1 m3.
Proof.
  intros (Hn & Hm & Hd & He & Hs) (Hn' & Hm' & Hd' & He' & Hs').
  repeat split; try (etransitivity; eassumption).
Qed.

Lemma manifest_grows_trans (m1 m2 m3 : Manifest) :
  manifest_grows m1 m2 -> manifest_grows m2 m3 -> manifest_grows m1 m3.
Proof.
  intros (Hn & Hm & Hd & Hs & He & Hf) (Hn' & Hm' & Hd' & Hs' & He' & Hf').
  repeat split; etransitivity; eassumption.
Qed.

(** X25: a run of [get_parsing_files], whether it returns or raises, adds
    no node, macro, doc or exposure to the saved manifest and changes none:
    it only removes entries; the sources of the saved manifest stay as they
    are; and the removed manifest keeps an entry under every key it had. *)
Theorem get_parsing_files_only_removes (st : State) :
  manifest_shrinks (saved_manifest st)
    (saved_manifest (snd (get_parsing_files parse_file_type_to_parser st))) /\
  manifest_grows (deleted_manifest st)
    (deleted_manifest (snd (get_parsing_files parse_file_type_to_parser st))).
Proof.
  apply (writes_get_parsing_files
           (fun st' : State =>
              manifest_shrinks (saved_manifest st) (saved_manifest st') /\
              manifest_grows (deleted_manifest st) (deleted_manifest st'))).
  - intros f st' Hf [Hs Hg]. split; [| exact Hg].
    eapply manifest_shrinks_trans; [exact Hs | apply Hf].
  - intros f st' Hf [Hs Hg]. split; [exact Hs |].
    eapply manifest_grows_trans; [exact Hg | apply Hf].
  - intros f st' HP. exact HP.
  - intros r f st' _ HP. exact HP.
  - split; repeat split; reflexivity.
Qed.

Lemma same_identity_trans (sf1 sf2 sf3 : @SourceFile V) :
  same_identity sf1 sf2 -> same_identity sf2 sf3 -> same_identity sf1 sf3.
Proof.
  unfold same_identity. intros H12 H23.
  repeat match goal with H : _ /\ _ |- _ => destruct H end.
  repeat split; etransitivity; eassumption.
Qed.

(** X26: a run of [get_parsing_files], whether it returns or raises,
    creates and destroys no file object, and every file object keeps its
    id, its project, its kind and the nodes, macros, docs, sources and
    exposures it owns. *)
Theorem get_parsing_files_keeps_objects (st : State) :
  same_objects (heap st) (heap (snd (get_parsing_files parse_file_type_to_parser st))).
Proof.
  apply (writes_get_parsing_files
           (fun st' : State => same_objects (heap st) (heap st'))).
  - intros f st' _ HP. exact HP.
  - intros f st' _ HP. exact HP.
  - intros f st' HP. exact HP.
  - intros r f st' Hf HP r0. specialize (HP r0). simpl.
    destruct (heap st' !! r) as [sf|] eqn:Hr; [| exact HP].
    destruct (decide (r0 = r)) as [-> | Hne].
    + rewrite lookup_insert_eq. rewrite Hr in HP.
      destruct (heap st !! r) as [sf0|]; [| exact HP].
      exact (same_identity_trans sf0 sf (f sf) HP (Hf sf)).
    + rewrite lookup_insert_ne by congruence. exact HP.
  - intros r. destruct (heap st !! r); [| exact I].
    unfold same_identity. repeat split.
Qed.

(** *** Files changed whose node is gone *)

(** X27: for a changed SQL file whose first node is not in the saved
    manifest, [update_in_saved] raises the [KeyError] of the node after it
    put the file read in the place of the saved one and scheduled it: the
    writes made before the failure stay. *)
Theorem update_in_saved_node_gone (file_id_ : string) (rn ro : ref)
    (new old : @SourceFile V) (unique_id : string) (others : list string)
    (parser_name : string) (st : State) :
  new_files st !! file_id_ = Some rn ->
  saved_files st !! file_id_ = Some ro ->
  heap st !! rn = Some new ->
  heap st !! ro = Some old ->
  parse_file_type new ∈ mssat_files ->
  sf_nodes old = unique_id :: others ->
  nodes (saved_manifest st) !! unique_id = None ->
  parse_file_type_to_parser (parse_file_type new) = Some parser_name ->
  parser_name <> "" -> project_name new <> "" ->
  update_in_saved parse_file_type_to_parser file_id_ st
  = (Raise (KeyError unique_id),
     set_project_parser_files
       (schedule_add (project_name new) parser_name (file_id new) (deleted (file_diff st)))
       (set_saved (set_files (insert (file_id new) rn))
          (set_deleted (set_files (insert (file_id new) ro)) st))).
Proof.
  intros Hnew Hold Hn Ho Hk Hnodes Hnode Hpn Hne Hpr.
  unfold update_in_saved. rewrite bind_get.
  unfold dict_get at 1. rewrite Hnew, bind_ret.
  unfold dict_get at 1. rewrite Hold, bind_ret.
  rewrite (bind_ok _ _ _ _ _ (read_file_result rn st new Hn)).
  rewrite (bool_decide_eq_true_2 _ Hk).
  unfold update_mssat_in_saved.
  rewrite (bind_ok _ _ _ _ _ (read_file_result ro st old Ho)), Hnodes.
  rewrite (bind_ok _ _ _ _ _ (read_file_result rn st new Hn)).
  rewrite !bind_modify.
  set (st1 := set_saved _ _).
  rewrite (bind_ok _ _ _ _ _ (add_to_pp_files_ok rn st1 new parser_name Hn Hpn Hne Hpr)).
  set (st2 := set_project_parser_files _ _).
  unfold delete_node_in_saved. apply bind_raise.
  unfold move_node. rewrite bind_get. unfold dict_get.
  change (nodes (saved_manifest st2)) with (nodes (saved_manifest st)). rewrite Hnode.
  reflexivity.
Qed.

(** *** Files added *)

Lemma add_to_saved_ok file_id_ r sf parser_name (st : State) :
  new_files st !! file_id_ = Some r ->
  heap st !! r = Some sf ->
  parse_file_type_to_parser (parse_file_type sf) = Some parser_name ->
  parser_name <> "" -> project_name sf <> "" ->
  add_to_saved parse_file_type_to_parser file_id_ st
  = (Ok tt,
     set_project_parser_files
       (schedule_add (project_name sf) parser_name (file_id sf) (deleted (file_diff st)))
       (set_saved (set_files (insert file_id_ r))
          (if decide (parse_file_type sf = Schema)
           then set_heap (insert r (set_pp_dict (Some (dict_from_yaml sf)) sf)) st
           else st))).
Proof.
  intros Hnew Hsf Hpn Hne Hpr. unfold add_to_saved.
  rewrite bind_get. unfold dict_get. rewrite Hnew, bind_ret.
  rewrite (bind_ok _ _ _ _ _ (read_file_result r st sf Hsf)).
  destruct (decide (parse_file_type sf = Schema)) as [Hk | Hk].
  - rewrite (bind_ok _ _ _ _ _ (write_file_result r _ st sf Hsf)).
    set (st1 := set_heap _ st).
    rewrite bind_modify.
    erewrite add_to_pp_files_ok;
      [| apply lookup_insert_eq | exact Hpn | exact Hne | exact Hpr].
    reflexivity.
  - rewrite bind_ret, bind_modify.
    erewrite add_to_pp_files_ok; [| exact Hsf | exact Hpn | exact Hne | exact Hpr].
    reflexivity.
Qed.

Lemma scheduled_extends file_id_ ppf ppf' :
  scheduled file_id_ ppf -> schedule_extends ppf ppf' -> scheduled file_id_ ppf'.
Proof.
  intros (project & bp & parser & ids & Hp & Hb & Hin) Hext.
  destruct (Hext project parser) as [more Hmore]. unfold scheduled_ids in Hmore.
  rewrite Hp in Hmore. simpl in Hmore. rewrite Hb in Hmore. simpl in Hmore.
  destruct (ppf' !! project) as [bp'|] eqn:Hp'; simpl in Hmore.
  - destruct (bp' !! parser) as [ids'|] eqn:Hb'; simpl in Hmore.
    + exists project, bp', parser, ids'. split; [exact Hp' |]. split; [exact Hb' |].
      rewrite Hmore. apply elem_of_app. left. exact Hin.
    + destruct ids; [inversion Hin | discriminate].
  - rewrite lookup_empty in Hmore. simpl in Hmore.
    destruct ids; [inversion Hin | discriminate].
Qed.

(** The file objects of [st1] are those of [st], but for pending patches. *)
Lemma new_file_patched (st st1 : State) :
  new_files st1 = new_files st ->
  (forall r, heap st1 !! r = heap st !! r \/
             exists sf d, heap st !! r = Some sf /\ heap st1 !! r = Some (set_pp_dict d sf)) ->
  forall f,
    match new_file st f, new_file st1 f with
    | Some sf, Some sf1 =>
        file_id sf1 = file_id sf /\ project_name sf1 = project_name sf /\
        parse_file_type sf1 = parse_file_type sf
    | None, None => True
    | _, _ => False
    end.
Proof.
  intros Hnew Hheap f. unfold new_file. rewrite Hnew.
  destruct (new_files st !! f) as [r|]; [| exact I].
  destruct (Hheap r) as [-> | (sf & d & -> & ->)].
  - destruct (heap st !! r); [repeat split | exact I].
  - repeat split.
Qed.

Lemma add_all_to_saved ids : forall st : State,
  deleted (file_diff st) = [] ->
  Forall (addable parse_file_type_to_parser st) ids ->
  exists st',
    for_each ids (add_to_saved parse_file_type_to_parser) st = (Ok tt, st') /\
    new_files st' = new_files st /\
    file_diff st' = file_diff st /\
    deleted_manifest st' = deleted_manifest st /\
    nodes (saved_manifest st') = nodes (saved_manifest st) /\
    same_entities (saved_manifest st) (saved_manifest st') /\
    (forall f, saved_files st' !! f
               = if bool_decide (f ∈ ids) then new_files st !! f else saved_files st !! f) /\
    schedule_extends (project_parser_files st) (project_parser_files st') /\
    (forall f, f ∈ ids ->
       exists sf, new_file st f = Some sf /\
                  scheduled (file_id sf) (project_parser_files st')).
Proof.
  induction ids as [|f ids IH]; intros st Hdel Hall.
  - exists st. split; [reflexivity |]. repeat split.
    + apply schedule_extends_refl.
    + intros f Hf. inversion Hf.
  - inversion Hall as [|? ? (sf & pn & Hnf & Hpn & Hne & Hpr) Hall']; subst.
    destruct (new_file_lookup st f (ex_intro _ sf Hnf)) as (r & sf0 & Hr & Hsf & Hnf').
    rewrite Hnf in Hnf'. injection Hnf' as <-.
    assert (Hrun := add_to_saved_ok f r sf pn st Hr Hsf Hpn Hne Hpr).
    set (st1 := set_project_parser_files _ _) in Hrun.
    assert (Hnew1 : new_files st1 = new_files st)
      by (subst st1; destruct (decide (parse_file_type sf = Schema)); reflexivity).
    assert (Hdiff1 : file_diff st1 = file_diff st)
      by (subst st1; destruct (decide (parse_file_type sf = Schema)); reflexivity).
    assert (Hheap1 : forall r0, heap st1 !! r0 = heap st !! r0 \/
              exists sf0 d, heap st !! r0 = Some sf0 /\
                            heap st1 !! r0 = Some (set_pp_dict d sf0)).
    { intros r0. subst st1. destruct (decide (parse_file_type sf = Schema)); simpl;
        [| left; reflexivity].
      destruct (decide (r0 = r)) as [-> | Hne0].
      - right. exists sf, (Some (dict_from_yaml sf)). split; [exact Hsf |].
        apply lookup_insert_eq.
      - left. apply lookup_insert_ne. congruence. }
    assert (Hstep := new_file_patched st st1 Hnew1 Hheap1).
    destruct (IH st1) as (st' & Hloop & Hnew & Hdiff & Hdm & Hnodes & Hsame & Hfiles
                          & Hext & Hsched).
    { rewrite Hdiff1. exact Hdel. }
    { rewrite Forall_forall in Hall' |- *. intros f' Hf'.
      destruct (Hall' f' Hf') as (sf' & pn' & Hnf' & Hpn' & Hne' & Hpr').
      specialize (Hstep f'). rewrite Hnf' in Hstep.
      destruct (new_file st1 f') as [sf1|] eqn:Hnf1; [| contradiction].
      destruct Hstep as (_ & Hproj & Hkind).
      exists sf1, pn'. split; [exact Hnf1 |]. rewrite Hkind, Hproj. repeat split; assumption. }
    assert (Hext1 : schedule_extends (project_parser_files st) (project_parser_files st1)).
    { subst st1. destruct (decide (parse_file_type sf = Schema)); simpl;
        apply schedule_extends_add. }
    exists st'. split.
    { cbn [for_each]. rewrite (bind_ok _ _ _ _ _ Hrun). exact Hloop. }
    split; [rewrite Hnew; exact Hnew1 |].
    split; [rewrite Hdiff; exact Hdiff1 |].
    split.
    { rewrite Hdm. subst st1. destruct (decide (parse_file_type sf = Schema)); reflexivity. }
    split.
    { rewrite Hnodes. subst st1. destruct (decide (parse_file_type sf = Schema)); reflexivity. }
    split.
    { destruct Hsame as (H1 & H2 & H3 & H4). unfold same_entities.
      rewrite H1, H2, H3, H4. subst st1.
      destruct (decide (parse_file_type sf = Schema)); repeat split. }
    split.
    { intros f0. rewrite Hfiles, Hnew1.
      destruct (decide (f0 ∈ ids)) as [Hin | Hout].
      - rewrite !bool_decide_eq_true_2;
          [reflexivity | apply elem_of_cons; right; exact Hin | exact Hin].
      - rewrite (bool_decide_eq_false_2 _ Hout).
        assert (Hsaved1 : saved_files st1 = <[f := r]> (saved_files st))
          by (subst st1; destruct (decide (parse_file_type sf = Schema)); reflexivity).
        rewrite Hsaved1.
        destruct (decide (f0 = f)) as [-> | Hne0].
        + rewrite bool_decide_eq_true_2 by (apply elem_of_cons; left; reflexivity).
          rewrite lookup_insert_eq. symmetry. exact Hr.
        + rewrite lookup_insert_ne by congruence.
          rewrite bool_decide_eq_false_2; [reflexivity |].
          intros Hin. apply elem_of_cons in Hin as [Heq | Hin]; [congruence | exact (Hout Hin)]. }
    split; [eapply schedule_extends_trans; [exact Hext1 | exact Hext] |].
    intros f0 Hf0. apply elem_of_cons in Hf0 as [-> | Hf0].
    + exists sf. split; [exact Hnf |].
      apply (scheduled_extends _ (project_parser_files st1)); [| exact Hext].
      subst st1. destruct (decide (parse_file_type sf = Schema)); simpl;
        apply scheduled_schedule_add; rewrite Hdel; intros Hin; inversion Hin.
    + destruct (Hsched f0 Hf0) as (sf1 & Hnf1 & Hs1).
      specialize (Hstep f0). rewrite Hnf1 in Hstep.
      destruct (new_file st f0) as [sf0|] eqn:Hnf0; [| contradiction].
      destruct Hstep as (Hid & _ & _).
      exists sf0. split; [reflexivity |]. rewrite <- Hid. exact Hs1.
Qed.

(** X28: when files were added and none was deleted or changed, and every
    file added has a parser and a project, [get_parsing_files] returns the
    schedule it leaves; the files added are then saved under their ids and
    scheduled, the other saved files, the nodes and the other entries of
    the saved manifest and the removed manifest being as before. *)
Theorem get_parsing_files_added_only (st : State) :
  deleted (file_diff st) = [] ->
  changed (file_diff st) = [] ->
  changed_schema_files (file_diff st) = [] ->
  deleted_schema_files (file_diff st) = [] ->
  added (file_diff st) <> ∅ ->
  (forall f, f ∈ added (file_diff st) -> addable parse_file_type_to_parser st f) ->
  exists st',
    get_parsing_files parse_file_type_to_parser st = (Ok (project_parser_files st'), st') /\
    (forall f, saved_files st' !! f
               = if bool_decide (f ∈ added (file_diff st)) then new_files st !! f
                 else saved_files st !! f) /\
    (forall f, f ∈ added (file_diff st) ->
       exists sf, new_file st f = Some sf /\
                  scheduled (file_id sf) (project_parser_files st')) /\
    nodes (saved_manifest st') = nodes (saved_manifest st) /\
    same_entities (saved_manifest st) (saved_manifest st') /\
    deleted_manifest st' = deleted_manifest st.
Proof.
  intros Hdel Hch Hcs Hds Hadded Hall.
  destruct (add_all_to_saved (elements (added (file_diff st))) st Hdel)
    as (st' & Hloop & Hnew & Hdiff & Hdm & Hnodes & Hsame & Hfiles & Hext & Hsched).
  { rewrite Forall_forall. intros f Hf. apply Hall. apply elem_of_elements. exact Hf. }
  exists st'. split.
  { unfold get_parsing_files. rewrite bind_get.
    assert (Hskip : skip_parsing st = false).
    { unfold skip_parsing. rewrite Hdel. simpl.
      rewrite (bool_decide_eq_false_2 _ Hadded). reflexivity. }
    rewrite Hskip, (bind_ok _ _ _ _ _ Hloop), Hcs, Hds, Hdel, Hch. reflexivity. }
  split.
  { intros f. rewrite Hfiles.
    rewrite (bool_decide_ext (f ∈ elements (added (file_diff st))) (f ∈ added (file_diff st)))
      by apply elem_of_elements.
    reflexivity. }
  split.
  { intros f Hf. apply Hsched. apply elem_of_elements. exact Hf. }
  split; [exact Hnodes |]. split; [exact Hsame | exact Hdm].
Qed.

End PartialFacts.

Lemma skip_parsing_reuses_manifest_witness :
  Partial.skip_parsing Examples.quiet_state = true /\
  Partial.get_parsing_files Examples.parsers Examples.quiet_state
    = (Ok ∅, Examples.quiet_state).
Proof.
  split; [reflexivity |].
  apply (proj2 (skip_parsing_reuses_manifest Examples.parsers Examples.quiet_state)).
  reflexivity.
Defined.

Lemma add_to_pp_files_sole_writer_witness :
  PartialSpec.schedule_ok
    (snd (Partial.add_to_pp_files Examples.parsers 1 Examples.schema_changed_state)).
Proof.
  apply (proj1 (add_to_pp_files_sole_writer Examples.parsers) 1 Examples.schema_changed_state).
  intros project by_parser parser ids Hp. simpl in Hp. rewrite lookup_empty in Hp.
  discriminate.
Defined.

(** C3, the code at a macro file with dependents: removing
    [macros/m1.sql] moves its macro [m1] to the removed manifest, and
    schedules neither [macros/m2.sql], whose macro calls [m1], nor
    [models/a.sql], whose model calls [m1]: the schedule stays empty. *)
Theorem handle_macro_file_links_misses_dependents :
  let r := Partial.handle_macro_file_links Examples.parsers 0 MoreExamples.macro_state in
  fst r = Ok tt /\
  dom (Partial.macros (Partial.saved_manifest (snd r))) = {["macro.test.m2"]} /\
  dom (Partial.macros (Partial.deleted_manifest (snd r))) = {["macro.test.m1"]} /\
  Partial.project_parser_files (snd r) = ∅.
Proof. vm_compute. repeat split. Qed.

(** C9, the code at a removed source: for the schema file that declares
    the source [seed_source], [delete_schema_source] pops the id of the
    source table from the exposures, where it is not, and raises; the
    source stays in the saved manifest and the removed manifest records
    nothing.  The run of [get_parsing_files] after the schema file was
    removed ends the same way. *)
Theorem delete_schema_source_pops_exposure :
  Partial.delete_schema_source 0 (Examples.named "seed_source") MoreExamples.source_state
    = (Raise (KeyError MoreExamples.raw_customers), MoreExamples.source_state) /\
  let run := Partial.get_parsing_files Examples.parsers MoreExamples.source_state in
  fst run = Raise (KeyError MoreExamples.raw_customers) /\
  dom (Partial.sources (Partial.saved_manifest (snd run))) = {[MoreExamples.raw_customers]} /\
  Partial.sources (Partial.deleted_manifest (snd run)) = ∅.
Proof. vm_compute. repeat split. Qed.

Lemma source_override_rejected_witness :
  Partial.for_each ([] ++ MoreExamples.overriding "seed_source" :: [])
      (Partial.deleted_source 0) MoreExamples.source_state
  = (Raise (Exception (Partial.source_override_msg "deleted" MoreExamples.sources_yml)),
     MoreExamples.source_state).
Proof.
  refine (proj1 (proj2 (source_override_rejected 0 MoreExamples.sources_file_obj
            (MoreExamples.overriding "seed_source") [] [] MoreExamples.source_state
            MoreExamples.source_state _ _)) _).
  - apply (bool_decide_unpack _). vm_compute. exact I.
  - reflexivity.
  - reflexivity.
Defined.

Lemma get_diff_for_last_wins_witness :
  exists d, Partial.get_diff_for "models" MoreExamples.twice_a_doc ∅ = Ok d /\
    (forall e, e ∈ Partial.diff_deleted d <->
       exists name, PartialSpec.last_named name MoreExamples.twice_a = Some e /\
                    @PartialSpec.last_named unit _ name [] = None) /\
    (forall e, e ∈ Partial.diff_added d <->
       exists name, @PartialSpec.last_named unit _ name [] = Some e /\
                    PartialSpec.last_named name MoreExamples.twice_a = None) /\
    (forall e, e ∈ Partial.diff_changed d <->
       exists name e0, @PartialSpec.last_named unit _ name [] = Some e /\
                       PartialSpec.last_named name MoreExamples.twice_a = Some e0 /\
                       e0 <> e).
Proof.
  apply (get_diff_for_last_wins "models" MoreExamples.twice_a_doc ∅ MoreExamples.twice_a []).
  - reflexivity.
  - reflexivity.
  - repeat constructor; exists "a"; reflexivity.
  - constructor.
Defined.

Lemma merge_patch_idempotent_witness :
  exists st1 sf1,
    Partial.bind (Partial.merge_patch 0 "models" (Examples.named "model_three"))
      (fun _ => Partial.merge_patch 0 "models" (Examples.named "model_three"))
      Examples.schema_changed_state = (Ok tt, st1) /\
    Partial.heap st1 !! 0 = Some sf1 /\
    Partial.pp_dict sf1 = Some (<["models" := Partial.YElems [Examples.named "model_three"]]>
                                 {["version" := Partial.YScalar (Partial.YStr "2")]}) /\
    PartialSpec.queued 0 "models" (Partial.YStr "model_three") st1
      = [Examples.named "model_three"].
Proof.
  refine (proj2 (merge_patch_idempotent 0 "models" (Examples.named "model_three")
                   (Partial.YStr "model_three") Examples.schema_changed_state _ _)
            Examples.schema_file_obj (Partial.YScalar (Partial.YStr "2")) _ _ _).
  - reflexivity.
  - discriminate.
  - reflexivity.
  - left. reflexivity.
  - reflexivity.
Defined.


Lemma unlink_model_element_witness :
  exists st',
    Partial.delete_schema_mssa_links Examples.parsers 0 "models"
      (Examples.named "model_three") Examples.schema_changed_state = (Ok tt, st') /\
    size (Partial.nodes (Partial.saved_manifest st')) +
      List.length ("model.test.model_three" ::
                   PartialSpec.tests_of (Partial.nodes Examples.model_manifest)
                     "model_three" Examples.schema_file_obj)
    = size (Partial.nodes Examples.model_manifest) /\
    PartialSpec.scheduled Examples.model_three_sql (Partial.project_parser_files st') /\
    Partial.saved_files st' !! Examples.model_three_sql = Some 2.
Proof.
  destruct (unlink_model_element Examples.parsers 0 2 (Examples.named "model_three")
              "model_three" "model.test.model_three" Examples.schema_file_obj
              (Examples.plain_file Examples.model_three_sql Partial.Model "c2" [] [])
              (Examples.node "model_three" Examples.model_three_sql
                 (Some Examples.schema_yml) [] [])
              "ModelParser" Examples.schema_changed_state)
    as (st' & Hrun & _ & _ & Hsize & _ & _ & Hsched & Hfiles).
  - reflexivity.
  - reflexivity.
  - reflexivity.
  - reflexivity.
  - reflexivity.
  - reflexivity.
  - reflexivity.
  - discriminate.
  - discriminate.
  - left. reflexivity.
  - intros t Ht. apply elem_of_cons in Ht as [-> | Ht];
      [| apply list_elem_of_singleton in Ht as ->];
      eexists _, _, _; split; reflexivity.
  - apply (bool_decide_unpack _). vm_compute. exact I.
  - apply (bool_decide_unpack _). vm_compute. exact I.
  - exists st'. split; [exact Hrun |]. split; [exact Hsize |]. split.
    + apply Hsched. intros Hdel. inversion Hdel.
    + rewrite Hfiles. reflexivity.
Defined.

(** The first of two elements of the name [a] plays no part in the diff:
    the section removed, the second element alone is deleted. *)
Example get_diff_for_twice_a :
  Partial.get_diff_for "models" MoreExamples.twice_a_doc ∅
    = Ok {| Partial.diff_deleted :=
              [<["description" := Partial.YStr "second"]> (Examples.named "a")];
            Partial.diff_added := []; Partial.diff_changed := [] |}.
Proof. vm_compute. reflexivity. Qed.

Lemma build_file_diff_partition_witness :
  exists d,
    Partial.build_file_diff DiffExamples.model_changed_state
      = (Ok tt, Partial.set_file_diff d DiffExamples.model_changed_state) /\
    Partial.changed d = [Examples.model_three_sql] /\
    Partial.unchanged d = [Examples.schema_yml].
Proof.
  destruct (build_file_diff_partition DiffExamples.model_changed_state) as (d & Hrun & _).
  - apply (bool_decide_unpack _). vm_compute. exact I.
  - apply (bool_decide_unpack _). vm_compute. exact I.
  - exists d. split; [exact Hrun |].
    assert (Hd : d = Partial.file_diff (snd (Partial.build_file_diff
                                               DiffExamples.model_changed_state)))
      by (rewrite Hrun; reflexivity).
    rewrite Hd. split; vm_compute; reflexivity.
Defined.

Lemma build_file_diff_serialization_failure_witness :
  exists f,
    Partial.build_file_diff DiffExamples.misserialized_state
      = (Raise (Exception ("Serialization failure for " +:+ f)),
         DiffExamples.misserialized_state) /\
    PartialMore.misserialized DiffExamples.misserialized_state f = true.
Proof.
  apply (build_file_diff_serialization_failure DiffExamples.misserialized_state).
  - apply (bool_decide_unpack _). vm_compute. exact I.
  - apply (bool_decide_unpack _). vm_compute. exact I.
Defined.

Lemma unchanged_files_skip_parsing_witness :
  exists d,
    Partial.build_file_diff DiffExamples.reread_state
      = (Ok tt, Partial.set_file_diff d DiffExamples.reread_state) /\
    Partial.skip_parsing (Partial.set_file_diff d DiffExamples.reread_state) = true /\
    Partial.get_parsing_files Examples.parsers
      (Partial.set_file_diff d DiffExamples.reread_state)
      = (Ok ∅, Partial.set_file_diff d DiffExamples.reread_state).
Proof.
  apply (unchanged_files_skip_parsing Examples.parsers DiffExamples.reread_state).
  - apply (bool_decide_unpack _). vm_compute. exact I.
  - apply (bool_decide_unpack _). vm_compute. exact I.
  - apply (bool_decide_unpack _). vm_compute. exact I.
Defined.

Lemma add_to_saved_registers_witness :
  exists st',
    Partial.add_to_saved Examples.parsers Examples.schema_yml
      DiffExamples.model_changed_state = (Ok tt, st') /\
    Partial.saved_files st' !! Examples.schema_yml = Some 3 /\
    Partial.heap st' !! 3
      = Some (Partial.set_pp_dict (Some (Partial.dict_from_yaml Examples.schema_file_obj))
                Examples.schema_file_obj).
Proof.
  destruct (add_to_saved_registers Examples.parsers Examples.schema_yml 3
              Examples.schema_file_obj "SchemaParser" DiffExamples.model_changed_state)
    as (st' & Hrun & Hfiles & _ & _ & _ & _ & Hheap).
  - reflexivity.
  - reflexivity.
  - reflexivity.
  - discriminate.
  - discriminate.
  - exists st'. split; [exact Hrun |]. rewrite Hfiles, Hheap.
    split; [apply lookup_insert_eq |]. simpl. apply lookup_insert_eq.
Defined.

Lemma get_diff_for_degenerate_witness :
  Partial.get_diff_for "models" DiffExamples.doc_ab DiffExamples.doc_ab
    = Ok {| Partial.diff_deleted := []; Partial.diff_added := [];
            Partial.diff_changed := [] |}.
Proof.
  refine (proj1 (get_diff_for_degenerate "models" DiffExamples.doc_ab ∅
                   [Examples.named "a"; Examples.named "b"] _ _ _)).
  - reflexivity.
  - repeat constructor; eexists; reflexivity.
  - reflexivity.
Defined.

Lemma get_diff_for_swap_witness :
  exists d',
    Partial.get_diff_for "models" DiffExamples.doc_bc DiffExamples.doc_ab = Ok d' /\
    Partial.diff_added d' = [Examples.named "a"] /\
    Partial.diff_deleted d' = [Examples.named "c"] /\
    List.length (Partial.diff_changed d') = 1.
Proof.
  destruct (get_diff_for_swap "models" DiffExamples.doc_ab DiffExamples.doc_bc
              {| Partial.diff_deleted := [Examples.named "a"];
                 Partial.diff_added := [Examples.named "c"];
                 Partial.diff_changed :=
                   [<["description" := Partial.YStr "B"]> (Examples.named "b")] |})
    as (d' & Hrun & Ha & Hd & Hc).
  - vm_compute. reflexivity.
  - exists d'. repeat split; assumption.
Defined.

Lemma change_schema_file_same_document_witness :
  exists st',
    Partial.change_schema_file Examples.parsers Examples.schema_yml
      DiffExamples.reformatted_state = (Ok tt, st') /\
    Partial.saved_manifest st' = Partial.saved_manifest DiffExamples.reformatted_state /\
    Partial.deleted_manifest st' = Partial.empty_manifest.
Proof.
  destruct (change_schema_file_same_document Examples.parsers Examples.schema_yml 0 3
              Examples.schema_file_obj
              {| Partial.file_id := Examples.schema_yml; Partial.project_name := "test";
                 Partial.parse_file_type := Partial.Schema; Partial.checksum := "c7";
                 Partial.contents := "# a comment"; Partial.is_SchemaSourceFile := true;
                 Partial.sf_nodes := []; Partial.sf_macros := []; Partial.sf_docs := [];
                 Partial.dict_from_yaml := Partial.dict_from_yaml Examples.schema_file_obj;
                 Partial.pp_dict := None; Partial.node_patches := [];
                 Partial.macro_patches := []; Partial.tests := [];
                 Partial.sf_sources := []; Partial.sf_exposures := [];
                 Partial.pp_test_index := None |}
              (Partial.YScalar (Partial.YStr "2")) "SchemaParser"
              DiffExamples.reformatted_state)
    as (st' & Hrun & Hsaved & Hdel & _).
  - reflexivity.
  - reflexivity.
  - discriminate.
  - reflexivity.
  - reflexivity.
  - reflexivity.
  - reflexivity.
  - unfold PartialMore.well_formed_document, PartialMore.section_keys.
    repeat constructor; eexists; (split; [reflexivity |]);
      repeat constructor; eexists; reflexivity.
  - reflexivity.
  - discriminate.
  - discriminate.
  - exists st'. repeat split; assumption.
Defined.

Lemma delete_from_saved_never_returns_witness :
  exists e st',
    Partial.delete_from_saved Examples.parsers Examples.model_three_sql Examples.quiet_state
    = (Raise e, st').
Proof.
  apply (delete_from_saved_never_returns Examples.parsers Examples.model_three_sql 1
           (Examples.plain_file Examples.model_three_sql Partial.Model "c1"
              ["model.test.model_three"] [])
           Examples.quiet_state).
  - reflexivity.
  - reflexivity.
  - reflexivity.
  - left. apply (bool_decide_unpack _). vm_compute. exact I.
Defined.

Lemma update_in_saved_unpatched_node_witness :
  exists st',
    Partial.update_in_saved Examples.parsers MoreExamples.a_sql MoreExamples.macro_state
    = (Ok tt, st') /\
    Partial.nodes (Partial.saved_manifest st') = ∅.
Proof.
  destruct (update_in_saved_unpatched_node Examples.parsers MoreExamples.a_sql 2 2
              (Examples.plain_file MoreExamples.a_sql Partial.Model "c2" ["model.test.a"] [])
              (Examples.plain_file MoreExamples.a_sql Partial.Model "c2" ["model.test.a"] [])
              "model.test.a" []
              (Examples.node "a" MoreExamples.a_sql None [] ["macro.test.m1"])
              "ModelParser" MoreExamples.macro_state)
    as (st' & Hrun & _ & _ & Hnodes & _).
  - reflexivity.
  - reflexivity.
  - reflexivity.
  - reflexivity.
  - apply (bool_decide_unpack _). vm_compute. exact I.
  - reflexivity.
  - reflexivity.
  - reflexivity.
  - reflexivity.
  - discriminate.
  - discriminate.
  - exists st'. split; [exact Hrun |]. rewrite Hnodes. vm_compute. reflexivity.
Defined.

Lemma delete_node_in_saved_unbound_patch_witness :
  fst (Partial.delete_node_in_saved Examples.parsers 1 "model.test.model_three"
         DiffExamples.stale_patch_state)
  = Raise (UnboundLocalError "elem_patch").
Proof.
  rewrite (delete_node_in_saved_unbound_patch Examples.parsers 1 0 "model.test.model_three"
             Examples.schema_yml "models"
             (Examples.node "model_three" Examples.model_three_sql
                (Some Examples.schema_yml) [] [])
             (Examples.plain_file Examples.model_three_sql Partial.Model "c1"
                ["model.test.model_three"] [])
             DiffExamples.stale_schema_obj [Examples.named "model_one"]
             DiffExamples.stale_patch_state).
  - reflexivity.
  - reflexivity.
  - reflexivity.
  - discriminate.
  - reflexivity.
  - reflexivity.
  - reflexivity.
  - reflexivity.
  - reflexivity.
  - reflexivity.
  - repeat constructor. eexists. split; [reflexivity | discriminate].
Defined.

Lemma update_in_saved_doc_file_witness :
  Partial.docs (Partial.saved_manifest
    (snd (Partial.update_in_saved Examples.parsers DiffExamples.docs_md
            DiffExamples.docs_state)))
  = Partial.docs (Partial.saved_manifest DiffExamples.docs_state).
Proof.
  rewrite (update_in_saved_doc_file Examples.parsers DiffExamples.docs_md 1 0
             (DiffExamples.docs_file_obj "c1") "DocumentationParser"
             DiffExamples.docs_state).
  - reflexivity.
  - reflexivity.
  - reflexivity.
  - reflexivity.
  - reflexivity.
  - reflexivity.
  - discriminate.
  - discriminate.
Defined.

Lemma update_in_saved_macro_file_witness :
  exists st',
    Partial.update_in_saved Examples.parsers MoreExamples.m2_sql MoreExamples.macro_state
    = (Ok tt, st') /\
    Partial.macros (Partial.saved_manifest st') !! "macro.test.m2" = None.
Proof.
  destruct (update_in_saved_macro_file Examples.parsers MoreExamples.m2_sql 1 1
              (Examples.plain_file MoreExamples.m2_sql Partial.Macro "c1" []
                 ["macro.test.m2"])
              (Examples.plain_file MoreExamples.m2_sql Partial.Macro "c1" []
                 ["macro.test.m2"])
              "MacroParser" MoreExamples.macro_state)
    as (st' & Hrun & [Hsaved _] & _).
  - reflexivity.
  - reflexivity.
  - reflexivity.
  - reflexivity.
  - reflexivity.
  - constructor; [intros Hin; inversion Hin | constructor].
  - constructor; [eexists; reflexivity | constructor].
  - reflexivity.
  - discriminate.
  - discriminate.
  - exists st'. split; [exact Hrun |]. rewrite Hsaved. reflexivity.
Defined.

Lemma delete_schema_macro_patch_unbound_witness :
  Partial.delete_schema_macro_patch Examples.parsers 3 (Examples.named "m2")
    DiffExamples.macro_patch_state
  = (Raise (UnboundLocalError "macro_unique_id"), DiffExamples.macro_patch_state).
Proof.
  apply (delete_schema_macro_patch_unbound Examples.parsers 3 DiffExamples.macro_patch_obj
           (Examples.named "m2") (Partial.YStr "m2") DiffExamples.macro_patch_state).
  - reflexivity.
  - reflexivity.
  - reflexivity.
Defined.

Lemma delete_schema_macro_patch_unlinks_witness :
  exists st',
    Partial.delete_schema_macro_patch Examples.parsers 3 (Examples.named "m1")
      DiffExamples.macro_patch_kept_state = (Ok tt, st') /\
    Partial.macros (Partial.saved_manifest st') !! "macro.test.m1" = None /\
    PartialSpec.scheduled MoreExamples.m1_sql (Partial.project_parser_files st').
Proof.
  destruct (delete_schema_macro_patch_unlinks Examples.parsers 3 0
              DiffExamples.macro_patch_obj
              (Examples.plain_file MoreExamples.m1_sql Partial.Macro "c0" []
                 ["macro.test.m1"])
              (Examples.named "m1") (Partial.YStr "m1") "macro.test.m1" "MacroParser"
              {| Partial.macro_file_id := MoreExamples.m1_sql;
                 Partial.macro_depends_on_macros := [] |}
              DiffExamples.macro_patch_kept_state)
    as (l & st' & Hl & Hrun & Hst & Hsched & _).
  - reflexivity.
  - reflexivity.
  - reflexivity.
  - discriminate.
  - reflexivity.
  - reflexivity.
  - reflexivity.
  - reflexivity.
  - discriminate.
  - discriminate.
  - exists st'. split; [exact Hrun |]. split.
    + rewrite Hst. reflexivity.
    + apply Hsched. intros Hin. inversion Hin.
Defined.

Lemma delete_schema_exposure_missing_witness :
  exists unique_id st',
    unique_id ∈ ["exposure.test.weekly"; "exposure.test.monthly"] /\
    Partial.delete_schema_exposure 0 (Examples.named "weekly")
      (DiffExamples.exposure_state ["exposure.test.weekly"; "exposure.test.monthly"])
    = (Raise (KeyError unique_id), st').
Proof.
  apply (delete_schema_exposure_missing 0
           (DiffExamples.exposures_file_obj ["exposure.test.weekly"; "exposure.test.monthly"])
           (Examples.named "weekly") (Partial.YStr "weekly")
           (DiffExamples.exposure_state ["exposure.test.weekly"; "exposure.test.monthly"])).
  - reflexivity.
  - reflexivity.
  - apply Exists_cons_tl. apply Exists_cons_hd. reflexivity.
Defined.

Lemma delete_schema_exposure_moves_witness :
  exists st',
    Partial.delete_schema_exposure 0 (Examples.named "weekly")
      (DiffExamples.exposure_state ["exposure.test.weekly"; "exposure.test.daily"])
    = (Ok tt, st') /\
    Partial.exposures (Partial.saved_manifest st') !! "exposure.test.weekly" = None /\
    is_Some (Partial.exposures (Partial.saved_manifest st') !! "exposure.test.daily").
Proof.
  destruct (delete_schema_exposure_moves 0
              (DiffExamples.exposures_file_obj ["exposure.test.weekly"; "exposure.test.daily"])
              (Examples.named "weekly") (Partial.YStr "weekly")
              (DiffExamples.exposure_state ["exposure.test.weekly"; "exposure.test.daily"]))
    as (st' & Hrun & [Hsaved _] & _).
  - reflexivity.
  - reflexivity.
  - repeat constructor; intros Hin; repeat (apply elem_of_cons in Hin as [Hin | Hin]);
      try discriminate; inversion Hin.
  - repeat constructor; eexists; reflexivity.
  - exists st'. split; [exact Hrun |]. rewrite !Hsaved. split; [reflexivity |].
    eexists. reflexivity.
Defined.

Lemma update_in_saved_node_gone_witness :
  fst (Partial.update_in_saved Examples.parsers MoreExamples.a_sql
         DiffExamples.node_gone_state)
  = Raise (KeyError "model.test.a").
Proof.
  rewrite (update_in_saved_node_gone Examples.parsers MoreExamples.a_sql 2 2
             (Examples.plain_file MoreExamples.a_sql Partial.Model "c2" ["model.test.a"] [])
             (Examples.plain_file MoreExamples.a_sql Partial.Model "c2" ["model.test.a"] [])
             "model.test.a" [] "ModelParser" DiffExamples.node_gone_state).
  - reflexivity.
  - reflexivity.
  - reflexivity.
  - reflexivity.
  - reflexivity.
  - apply (bool_decide_unpack _). vm_compute. exact I.
  - reflexivity.
  - reflexivity.
  - reflexivity.
  - discriminate.
  - discriminate.
Defined.

Lemma get_parsing_files_added_only_witness :
  exists st',
    Partial.get_parsing_files Examples.parsers DiffExamples.files_added_state
    = (Ok (Partial.project_parser_files st'), st') /\
    Partial.saved_files st' !! DiffExamples.model_four_sql = Some 5.
Proof.
  destruct (get_parsing_files_added_only Examples.parsers DiffExamples.files_added_state)
    as (st' & Hrun & Hfiles & _).
  - reflexivity.
  - reflexivity.
  - reflexivity.
  - reflexivity.
  - apply (bool_decide_unpack _). vm_compute. exact I.
  - intros f Hf. apply elem_of_union in Hf as [Hf | Hf];
      apply elem_of_singleton in Hf; subst f;
      eexists _, _; (split; [reflexivity |]); (split; [reflexivity |]);
      split; discriminate.
  - exists st'. split; [exact Hrun |]. rewrite Hfiles.
    rewrite bool_decide_eq_true_2; [reflexivity |].
    apply elem_of_union. left. apply elem_of_singleton. reflexivity.
Defined.
